(** * Weekly status post manager: a shallow embedding of
      [weekly_post_manager.py] and the properties of its scoreboard post.

    Python strings are sequences of Unicode code points; they are modelled
    as lists of code points, so that [len], indexing and slicing count the
    same units as the source does.  The manager object, the Discord
    channel, the JSON state file and the streak table are threaded through
    an explicit state with Python exceptions as results. *)

From Stdlib Require Import ZArith Lia String Ascii.
From stdpp Require Import base numbers option list gmap.

Local Open Scope Z_scope.

(** ** Python [str] primitives *)

Module Py.

Abbreviation str := (list N).

(** A string literal of the source whose characters are all ASCII. *)
Fixpoint lit (s : string) : str :=
  match s with
  | EmptyString => []
  | String a s' => N_of_ascii a :: lit s'
  end.

Definition QUESTION : N := 10067%N.  (* U+2753, the pending mark *)
Definition CHECK : N := 9989%N.      (* U+2705, the done mark *)
Definition NEWLINE : N := 10%N.
Definition SPACE : N := 32%N.
Definition HASH : N := 35%N.
Definition LPAREN : N := 40%N.

(** [len(s)] *)
Definition len (s : str) : Z := Z.of_nat (length s).

(** [s.startswith(p)] *)
Fixpoint starts_with (p s : str) : bool :=
  match p, s with
  | [], _ => true
  | _ :: _, [] => false
  | a :: p', b :: s' => (a =? b)%N && starts_with p' s'
  end.

(** Offset of the first occurrence of [sub] in [s]. *)
Fixpoint index_of (sub s : str) : option nat :=
  if starts_with sub s then Some 0%nat
  else match s with
       | [] => None
       | _ :: s' => S <$> index_of sub s'
       end.

(** [s.find(sub)]: the lowest index, or -1. *)
Definition find (s sub : str) : Z :=
  match index_of sub s with
  | Some i => Z.of_nat i
  | None => -1
  end.

(** [sub in s] *)
Definition contains (s sub : str) : bool :=
  match index_of sub s with Some _ => true | None => false end.

(** [s.count(c)] for a one-character [c]. *)
Definition count (s : str) (c : N) : nat :=
  length (filter (λ x, x = c) s).

(** [s.split(c)] for a one-character separator: never returns the empty
    list. *)
Fixpoint split (s : str) (c : N) : list str :=
  match s with
  | [] => [[]]
  | x :: s' =>
      if (x =? c)%N then [] :: split s' c
      else match split s' c with
           | l :: ls => (x :: l) :: ls
           | [] => [[x]]
           end
  end.

(** [sep.join(parts)] *)
Fixpoint join (sep : str) (parts : list str) : str :=
  match parts with
  | [] => []
  | [p] => p
  | p :: ps => p ++ sep ++ join sep ps
  end.

(** [c.isspace()]: the characters [str.strip()] removes. *)
Definition is_space (c : N) : bool :=
  ((9 <=? c) && (c <=? 13) || (28 <=? c) && (c <=? 32)
   || (c =? 133) || (c =? 160) || (c =? 5760)
   || (8192 <=? c) && (c <=? 8202) || (c =? 8232) || (c =? 8233)
   || (c =? 8239) || (c =? 8287) || (c =? 12288))%N.

Fixpoint lstrip (s : str) : str :=
  match s with
  | [] => []
  | x :: s' => if is_space x then lstrip s' else s
  end.

Definition rstrip (s : str) : str := reverse (lstrip (reverse s)).

(** [s.strip()] *)
Definition strip (s : str) : str := rstrip (lstrip s).

(** [s.ljust(w)] *)
Definition ljust (s : str) (w : nat) : str :=
  s ++ replicate (w - length s) SPACE.

(** Slice bounds: a negative index counts from the end, and every index
    is clamped to the string. *)
Definition clamp (s : str) (i : Z) : nat :=
  if i <? 0 then Z.to_nat (Z.max 0 (len s + i))
  else Z.to_nat (Z.min i (len s)).

(** [s[i:]] *)
Definition slice_from (s : str) (i : Z) : str := drop (clamp s i) s.

(** [s[:j]] *)
Definition slice_to (s : str) (j : Z) : str := take (clamp s j) s.

(** [s[i:j]] *)
Definition slice (s : str) (i j : Z) : str :=
  take (clamp s j - clamp s i) (drop (clamp s i) s).

(** [s.replace(old, new)] for a non-empty [old]: occurrences are taken
    left to right and do not overlap; [skip] counts the characters of a
    matched occurrence still to be dropped. *)
Fixpoint replace_go (old new : str) (skip : nat) (s : str) : str :=
  match s with
  | [] => []
  | x :: s' =>
      match skip with
      | S k => replace_go old new k s'
      | O =>
          if starts_with old s
          then new ++ replace_go old new (length old - 1) s'
          else x :: replace_go old new 0 s'
      end
  end.

(** [s.replace(old, new)]; with an empty [old], Python puts [new] before
    every character and at the end. *)
Definition replace (s old new : str) : str :=
  match old with
  | [] => new ++ concat (map (λ x, x :: new) s)
  | _ :: _ => replace_go old new 0 s
  end.

(** [str(n)] / [f"{n}"] for an [int]. *)
Definition digit (d : N) : N := (48 + d)%N.

Fixpoint str_of_uint (u : Decimal.uint) : str :=
  match u with
  | Decimal.Nil => []
  | Decimal.D0 u' => digit 0 :: str_of_uint u'
  | Decimal.D1 u' => digit 1 :: str_of_uint u'
  | Decimal.D2 u' => digit 2 :: str_of_uint u'
  | Decimal.D3 u' => digit 3 :: str_of_uint u'
  | Decimal.D4 u' => digit 4 :: str_of_uint u'
  | Decimal.D5 u' => digit 5 :: str_of_uint u'
  | Decimal.D6 u' => digit 6 :: str_of_uint u'
  | Decimal.D7 u' => digit 7 :: str_of_uint u'
  | Decimal.D8 u' => digit 8 :: str_of_uint u'
  | Decimal.D9 u' => digit 9 :: str_of_uint u'
  end.

Definition str_of_int (n : Z) : str :=
  match Z.to_int n with
  | Decimal.Pos u => str_of_uint u
  | Decimal.Neg u => 45%N :: str_of_uint u
  end.

End Py.

Import Py.

(** ** Python's [datetime], as far as the manager uses it

    A [datetime] is kept as its proleptic Gregorian ordinal
    ([date.toordinal()]) and the second of its day; the functions follow
    the pure-Python [datetime] module. *)

Module Calendar.

Record datetime := { ordinal : Z; second_of_day : Z }.

Definition days_before_year (year : Z) : Z :=
  let y := year - 1 in y * 365 + y / 4 - y / 100 + y / 400.

Definition DAYS_IN_MONTH : list Z :=
  [0; 31; 28; 31; 30; 31; 30; 31; 31; 30; 31; 30; 31].

Definition DAYS_BEFORE_MONTH : list Z :=
  [0; 0; 31; 59; 90; 120; 151; 181; 212; 243; 273; 304; 334].

Definition tbl (t : list Z) (i : Z) : Z := default 0 (t !! Z.to_nat i).

Definition b2z (b : bool) : Z := if b then 1 else 0.

(** [_ord2ymd] *)
Definition ord2ymd (n0 : Z) : Z * Z * Z :=
  let n := n0 - 1 in
  let n400 := n / 146097 in let n := n mod 146097 in
  let year := n400 * 400 + 1 in
  let n100 := n / 36524 in let n := n mod 36524 in
  let n4 := n / 1461 in let n := n mod 1461 in
  let n1 := n / 365 in let n := n mod 365 in
  let year := year + n100 * 100 + n4 * 4 + n1 in
  if (n1 =? 4) || (n100 =? 4) then (year - 1, 12, 31)
  else
    let leapyear := (n1 =? 3) && (negb (n4 =? 24) || (n100 =? 3)) in
    let month := (n + 50) / 32 in
    let preceding := tbl DAYS_BEFORE_MONTH month + b2z ((2 <? month) && leapyear) in
    if n <? preceding then
      let month := month - 1 in
      let preceding :=
        preceding - (tbl DAYS_IN_MONTH month + b2z ((month =? 2) && leapyear)) in
      (year, month, n - preceding + 1)
    else (year, month, n - preceding + 1).

Definition year_of (dt : datetime) : Z := (ord2ymd (ordinal dt)).1.1.
Definition month_of (dt : datetime) : Z := (ord2ymd (ordinal dt)).1.2.
Definition day_of (dt : datetime) : Z := (ord2ymd (ordinal dt)).2.

(** [dt.weekday()]: Monday is 0. *)
Definition weekday (dt : datetime) : Z := (ordinal dt + 6) mod 7.

(** [_isoweek1monday] *)
Definition isoweek1monday (year : Z) : Z :=
  let firstday := days_before_year year + 1 in
  let firstweekday := (firstday + 6) mod 7 in
  let week1monday := firstday - firstweekday in
  if 3 <? firstweekday then week1monday + 7 else week1monday.

(** [dt.isocalendar()[1]]: the ISO week number. *)
Definition isoweek (dt : datetime) : Z :=
  let year := year_of dt in
  let today := ordinal dt in
  let week := (today - isoweek1monday year) / 7 in
  if week <? 0 then (today - isoweek1monday (year - 1)) / 7 + 1
  else if (52 <=? week) && (isoweek1monday (year + 1) <=? today) then 1
  else week + 1.

(** [dt - timedelta(days=k)] and [dt + timedelta(days=k)] *)
Definition sub_days (dt : datetime) (k : Z) : datetime :=
  {| ordinal := ordinal dt - k; second_of_day := second_of_day dt |}.
Definition add_days (dt : datetime) (k : Z) : datetime :=
  {| ordinal := ordinal dt + k; second_of_day := second_of_day dt |}.

(** [dt.strftime('%B')] *)
Definition month_name (dt : datetime) : str :=
  default [] (map lit
    [""; "January"; "February"; "March"; "April"; "May"; "June"; "July";
     "August"; "September"; "October"; "November"; "December"]%string
    !! Z.to_nat (month_of dt)).

End Calendar.

Import Calendar.

(** ** The manager, the channel and the stores it talks to *)

Record TeamMember := { discord_id : Z; name : str }.

(** A Discord message as the manager holds it: the id and the content it
    had when it was sent, fetched or last edited. *)
Record Message := { msg_id : Z; content : str }.

Record Channel := {
  messages : gmap Z str;   (* the live messages of the channel *)
  next_id : Z;             (* the id the next sent message gets *)
  readable : bool          (* the bot may still read the history *)
}.

(** What [weekly_post_data.json] holds: [{}] or a post id with the time it
    was saved.  Only files that hold such a record are modelled: on a file
    that exists and does not parse, the constructor raises. *)
Record PostData := { post_id : option Z; timestamp : option datetime }.

Record Manager := {
  team_members : list TeamMember;
  max_name_length : nat;
  editable_weekly_post : option Message;
  editable_weekly_post_id : option Z;
  weekly_post_timestamp : option datetime
}.

(** What the manager reads and writes outside itself.  The two clock
    readings are those of the call being run. *)
Record World := {
  channel : Channel;
  data_file : option PostData;   (* [None]: the file does not exist *)
  streaks : gmap Z Z;            (* the table behind [StatusDB] *)
  clock_now : datetime;          (* [datetime.now()] *)
  clock_utcnow : datetime        (* [datetime.utcnow()] *)
}.

Record State := { self : Manager; world : World }.

Inductive exn := AttributeError | NotFound | Forbidden.

Inductive result (A : Type) :=
  | Ok (a : A) (st : State)
  | Raise (e : exn) (st : State).
Arguments Ok {A} a st.
Arguments Raise {A} e st.

(** Stateful code that may raise. *)
Definition M (A : Type) : Type := State -> result A.

Definition ret {A} (a : A) : M A := fun st => Ok a st.

Definition bind {A B} (c : M A) (k : A -> M B) : M B :=
  fun st => match c st with
            | Ok a st' => k a st'
            | Raise e st' => Raise e st'
            end.

Definition raise {A} (e : exn) : M A := fun st => Raise e st.

Definition gets {A} (f : State -> A) : M A := fun st => Ok (f st) st.

Definition modify (f : State -> State) : M unit := fun st => Ok tt (f st).

Notation "'let!' x ':=' c 'in' k" := (bind c (fun x => k))
  (at level 10, x name, c at level 100, k at level 200, only parsing).
Notation "c ';;' k" := (bind c (fun _ => k))
  (at level 100, k at level 200, right associativity, only parsing).

(** [for x in l: body(x)] *)
Fixpoint for_each {A} (l : list A) (body : A -> M unit) : M unit :=
  match l with
  | [] => ret tt
  | x :: l' => body x ;; for_each l' body
  end.

(** A loop that appends one value per element to a fresh list. *)
Fixpoint collect {A B} (l : list A) (body : A -> M B) : M (list B) :=
  match l with
  | [] => ret []
  | x :: l' =>
      let! y := body x in
      let! ys := collect l' body in
      ret (y :: ys)
  end.

(** *** Attribute updates *)

Definition on_self (f : Manager -> Manager) (st : State) : State :=
  {| self := f (self st); world := world st |}.

Definition on_world (f : World -> World) (st : State) : State :=
  {| self := self st; world := f (world st) |}.

Definition set_team_members (l : list TeamMember) : M unit :=
  modify (on_self (fun m =>
    {| team_members := l;
       max_name_length := max_name_length m;
       editable_weekly_post := editable_weekly_post m;
       editable_weekly_post_id := editable_weekly_post_id m;
       weekly_post_timestamp := weekly_post_timestamp m |})).

Definition set_max_name_length (w : nat) : M unit :=
  modify (on_self (fun m =>
    {| team_members := team_members m;
       max_name_length := w;
       editable_weekly_post := editable_weekly_post m;
       editable_weekly_post_id := editable_weekly_post_id m;
       weekly_post_timestamp := weekly_post_timestamp m |})).

Definition set_editable_weekly_post (p : option Message) : M unit :=
  modify (on_self (fun m =>
    {| team_members := team_members m;
       max_name_length := max_name_length m;
       editable_weekly_post := p;
       editable_weekly_post_id := editable_weekly_post_id m;
       weekly_post_timestamp := weekly_post_timestamp m |})).

Definition set_loaded (i : option Z) (t : option datetime) : M unit :=
  modify (on_self (fun m =>
    {| team_members := team_members m;
       max_name_length := max_name_length m;
       editable_weekly_post := editable_weekly_post m;
       editable_weekly_post_id := i;
       weekly_post_timestamp := t |})).

Definition set_channel (c : Channel) : M unit :=
  modify (on_world (fun w =>
    {| channel := c; data_file := data_file w; streaks := streaks w;
       clock_now := clock_now w; clock_utcnow := clock_utcnow w |})).

Definition set_data_file (d : option PostData) : M unit :=
  modify (on_world (fun w =>
    {| channel := channel w; data_file := d; streaks := streaks w;
       clock_now := clock_now w; clock_utcnow := clock_utcnow w |})).

Definition set_streaks (s : gmap Z Z) : M unit :=
  modify (on_world (fun w =>
    {| channel := channel w; data_file := data_file w; streaks := s;
       clock_now := clock_now w; clock_utcnow := clock_utcnow w |})).

(** *** The chat platform *)

(** [channel.send(text)] *)
Definition send (text : str) : M Message :=
  let! ch := gets (fun st => channel (world st)) in
  let i := next_id ch in
  set_channel {| messages := <[i := text]> (messages ch);
                 next_id := i + 1;
                 readable := readable ch |} ;;
  ret {| msg_id := i; content := text |}.

(** [channel.fetch_message(id)] *)
Definition fetch_message (i : Z) : M Message :=
  let! ch := gets (fun st => channel (world st)) in
  if negb (readable ch) then raise Forbidden
  else match messages ch !! i with
       | Some text => ret {| msg_id := i; content := text |}
       | None => raise NotFound
       end.

(** [message.edit(content=text)]: returns the edited message. *)
Definition edit (m : Message) (text : str) : M Message :=
  let! ch := gets (fun st => channel (world st)) in
  match messages ch !! msg_id m with
  | Some _ =>
      set_channel {| messages := <[msg_id m := text]> (messages ch);
                     next_id := next_id ch;
                     readable := readable ch |} ;;
      ret {| msg_id := msg_id m; content := text |}
  | None => raise NotFound
  end.

(** [message.delete()] *)
Definition delete_message (m : Message) : M unit :=
  let! ch := gets (fun st => channel (world st)) in
  match messages ch !! msg_id m with
  | Some _ =>
      set_channel {| messages := delete (msg_id m) (messages ch);
                     next_id := next_id ch;
                     readable := readable ch |}
  | None => raise NotFound
  end.

(** *** The persistence gateway *)

(** Modelled from the spec: [StatusDB] is not part of the sources; the spec
    gives [get_streak(member_id) -> int] and [set_streak(member_id, int)]
    over a streak that is an integer keyed by member id.  A member without
    a stored streak reads as 0. *)
Definition get_streak (i : Z) : M Z :=
  gets (fun st => default 0 (streaks (world st) !! i)).

(** Modelled from the spec: [StatusDB.update_streak(member_id, int)], the
    spec's [set_streak], stores the streak of a member. *)
Definition update_streak_db (i : Z) (v : Z) : M unit :=
  let! s := gets (fun st => streaks (world st)) in
  set_streaks (<[i := v]> s).

(** ** [WeeklyPostManager] *)

(** [self.editable_weekly_post.<attr>]: an attribute of [None] raises. *)
Definition the_post : M Message :=
  let! p := gets (fun st => editable_weekly_post (self st)) in
  match p with
  | Some m => ret m
  | None => raise AttributeError
  end.

(** [max((len(m.name) for m in team_members), default=0)] *)
Definition max_len (l : list TeamMember) : nat :=
  foldr (fun m acc => Nat.max (length (name m)) acc) 0%nat l.

Definition load_weekly_post_data : M unit :=
  let! f := gets (fun st => data_file (world st)) in
  match f with
  | Some data => set_loaded (post_id data) (timestamp data)
  | None =>
      set_loaded None None ;;
      set_data_file (Some {| post_id := None; timestamp := None |})
  end.

(** [WeeklyPostManager(channel, team_members)] in the world [w]. *)
Definition init (members : list TeamMember) (w : World) : result unit :=
  load_weekly_post_data
    {| self := {| team_members := members;
                  max_name_length := max_len members;
                  editable_weekly_post := None;
                  editable_weekly_post_id := None;
                  weekly_post_timestamp := None |};
       world := w |}.

Definition save_weekly_post_data : M unit :=
  let! post := the_post in
  let! now := gets (fun st => clock_now (world st)) in
  set_data_file (Some {| post_id := Some (msg_id post); timestamp := Some now |}).

Definition format_date (dt : datetime) : str :=
  let suffix := [lit "th"; lit "st"; lit "nd"; lit "rd"] in
  let day := day_of dt in
  let suffix_index :=
    if (4 <=? day) && (day <=? 20) || (24 <=? day) && (day <=? 30) then 0
    else day mod 10 in
  month_name dt ++ lit " " ++ str_of_int day
    ++ default [] (suffix !! Z.to_nat suffix_index).

Definition day_suffix (streak : Z) : str :=
  if streak =? 1 then lit "day" else lit "days".

(** The line of a member as [initialize_post] and [rebuild_post] format
    it. *)
Definition member_row (w : nat) (nm marks : str) (streak : Z) : str :=
  lit "# `" ++ ljust nm w ++ lit " " ++ marks ++ lit " (Streak: "
    ++ str_of_int streak ++ lit " " ++ day_suffix streak ++ lit ")`".

(** A Python value used as a condition. *)
Definition truthy_id (i : option Z) : bool :=
  match i with Some v => negb (v =? 0) | None => false end.

Definition same_week (current : Z) (saved : option Z) : bool :=
  match saved with Some v => current =? v | None => false end.

Definition initialize_post : M unit :=
  let! now := gets (fun st => clock_now (world st)) in
  let current_week_number := isoweek now in
  let! ts := gets (fun st => weekly_post_timestamp (self st)) in
  let saved_week_number := isoweek <$> ts in
  let! pid := gets (fun st => editable_weekly_post_id (self st)) in
  if truthy_id pid && same_week current_week_number saved_week_number then
    let! post := fetch_message (default 0 pid) in
    set_editable_weekly_post (Some post)
  else
    let! utc_now := gets (fun st => clock_utcnow (world st)) in
    let today_weekday := weekday utc_now in
    let last_monday := sub_days utc_now today_weekday in
    let next_sunday := add_days last_monday 6 in
    let start_date := format_date last_monday in
    let end_date := format_date next_sunday in
    let! members := gets (fun st => team_members (self st)) in
    let! w := gets (fun st => max_name_length (self st)) in
    let! member_list :=
      collect members (fun m =>
        let! streak := get_streak (discord_id m) in
        ret (member_row w (name m) (replicate 5 QUESTION) streak)) in
    let member_list_str := join [NEWLINE] member_list in
    send (lit "# Weekly Status Updates") ;;
    send (lit "## " ++ start_date ++ lit " to " ++ end_date) ;;
    match member_list_str with
    | [] => ret tt
    | _ :: _ =>
        let! post := send member_list_str in
        set_editable_weekly_post (Some post) ;;
        save_weekly_post_data
    end.

(** [next((line for line in lines if name in line), None)] *)
Definition member_line (lines : list str) (nm : str) : option str :=
  List.find (fun line => contains line nm) lines.

Definition update_post (member : TeamMember) : M unit :=
  let! post := the_post in
  let lines := split (content post) NEWLINE in
  match member_line lines (name member) with
  | None => ret tt
  | Some line_to_edit =>
      let line_to_edit := strip (replace line_to_edit [HASH] []) in
      let name_end := find line_to_edit [SPACE] in
      let marks_streak := strip (slice_from line_to_edit name_end) in
      let first_question_mark := find marks_streak [QUESTION] in
      if first_question_mark =? -1 then ret tt
      else
        let new_marks_streak :=
          slice_to marks_streak first_question_mark ++ [CHECK]
            ++ slice_from marks_streak (first_question_mark + 1) in
        let! new_streak := get_streak (discord_id member) in
        let new_streak_str :=
          lit "(Streak: " ++ str_of_int new_streak ++ lit " "
            ++ day_suffix new_streak ++ lit ")" in
        let! w := gets (fun st => max_name_length (self st)) in
        let new_line :=
          lit "`" ++ ljust (name member) w ++ lit " "
            ++ strip (default [] (head (split new_marks_streak LPAREN)))
            ++ lit " " ++ new_streak_str ++ lit "`" in
        let new_content := replace (content post) line_to_edit new_line in
        let! edited := edit post new_content in
        set_editable_weekly_post (Some edited)
  end.

Definition update_streak (member : TeamMember) : M unit :=
  let! existing_streak := get_streak (discord_id member) in
  let new_streak := existing_streak + 1 in
  update_streak_db (discord_id member) new_streak.

Definition has_minimum_checkmarks (member : TeamMember) (n : Z) : M bool :=
  let! post := the_post in
  let name_index := find (content post) (name member) in
  if name_index =? -1 then ret false
  else
    let! w := gets (fun st => max_name_length (self st)) in
    let start_index := name_index + Z.of_nat w + 1 in
    let existing_line := slice (content post) start_index (start_index + 5) in
    ret (n <=? Z.of_nat (count existing_line CHECK)).

Definition reset_streaks : M unit :=
  let! members := gets (fun st => team_members (self st)) in
  for_each members (fun member =>
    let! ok := has_minimum_checkmarks member 5 in
    if negb ok then update_streak_db (discord_id member) 0 else ret tt).

(** The marks [rebuild_post] reads back for a member from the lines of the
    current post. *)
Definition existing_marks (lines : list str) (nm : str) : str :=
  match member_line lines nm with
  | Some ((_ :: _) as line) =>
      let first_checkmark := find line [CHECK] in
      let first_question_mark := find line [QUESTION] in
      if negb (first_checkmark =? -1)
      then slice line first_checkmark (first_checkmark + 5)
      else if negb (first_question_mark =? -1)
      then slice line first_question_mark (first_question_mark + 5)
      else replicate 5 QUESTION
  | _ => replicate 5 QUESTION
  end.

Definition rebuild_post : M unit :=
  let! members := gets (fun st => team_members (self st)) in
  let! p := gets (fun st => editable_weekly_post (self st)) in
  let! w := gets (fun st => max_name_length (self st)) in
  match members, p with
  | first_member :: _, None =>
      let! streak := get_streak (discord_id first_member) in
      let initial_content :=
        member_row w (name first_member) (replicate 5 QUESTION) streak in
      let! post := send initial_content in
      set_editable_weekly_post (Some post) ;;
      save_weekly_post_data
  | [], _ =>
      match p with
      | Some post => delete_message post
      | None => ret tt
      end ;;
      set_editable_weekly_post None
  | _ :: _, Some _ =>
      let! member_list :=
        collect members (fun m =>
          let! post := the_post in
          let lines := split (content post) NEWLINE in
          let marks := existing_marks lines (name m) in
          let! streak := get_streak (discord_id m) in
          ret (member_row w (name m) marks streak)) in
      let new_content := join [NEWLINE] member_list in
      let! post := the_post in
      let! edited := edit post new_content in
      set_editable_weekly_post (Some edited)
  end.

Definition add_member_to_post (member : TeamMember) : M unit :=
  let! members := gets (fun st => team_members (self st)) in
  set_team_members (members ++ [member]) ;;
  let! members := gets (fun st => team_members (self st)) in
  set_max_name_length (max_len members) ;;
  rebuild_post.

Definition remove_member_from_post (member : TeamMember) : M unit :=
  let! members := gets (fun st => team_members (self st)) in
  set_team_members
    (filter (fun m => discord_id m ≠ discord_id member) members) ;;
  let! members := gets (fun st => team_members (self st)) in
  set_max_name_length (max_len members) ;;
  rebuild_post.

Definition has_all_checkmarks (member : TeamMember) : M bool :=
  let! post := the_post in
  let name_index := find (content post) (name member) in
  if name_index =? -1 then ret false
  else
    let! w := gets (fun st => max_name_length (self st)) in
    let start_index := name_index + Z.of_nat w + 1 in
    let existing_line := slice (content post) start_index (start_index + 5) in
    ret (forallb (fun char => (char =? CHECK)%N) existing_line).

(** ** Notions the properties are stated with *)

(** What [update_post] takes for the marks and streak of a line: the line
    without ['#'], stripped, from its first space on, stripped again. *)
Definition marks_streak_of (line : str) : str :=
  let line_to_edit := strip (replace line [HASH] []) in
  let name_end := find line_to_edit [SPACE] in
  strip (slice_from line_to_edit name_end).

(** The saved post id is usable and was saved in the ISO week of the
    current time: the condition under which [initialize_post] fetches. *)
Definition saved_post_is_current (st : State) : Prop :=
  exists pid t,
    editable_weekly_post_id (self st) = Some pid /\ pid <> 0
    /\ weekly_post_timestamp (self st) = Some t
    /\ isoweek t = isoweek (clock_now (world st)).


(** The line of a member in a fresh post, written out. *)
Definition fresh_row (w : nat) (m : TeamMember) (n : Z) : str :=
  lit "# `" ++ ljust (name m) w ++ lit " " ++ replicate 5 QUESTION
    ++ lit " (Streak: " ++ str_of_int n
    ++ (if n =? 1 then lit " day" else lit " days") ++ lit ")`".

(** The two headings [initialize_post] sends before the post. *)
Definition week_heading (utc_now : datetime) : str :=
  let last_monday := sub_days utc_now (weekday utc_now) in
  lit "## " ++ format_date last_monday ++ lit " to "
    ++ format_date (add_days last_monday 6).

(** Every character of a formatted row that is not of the name or of the
    marks is one of these. *)
Definition row_chars : str := lit "# `(Streak: days)-0123456789".

Definition no_newline (members : list TeamMember) : Prop :=
  Forall (fun m => NEWLINE ∉ name m) members.

(** The width the manager pads to is the length of the longest name of
    its roster. *)
Definition width_ok (st : State) : Prop :=
  max_name_length (self st) = max_len (team_members (self st)).

(** The manager holds a post whose message is on the channel. *)
Definition post_is_live (st : State) : Prop :=
  exists post,
    editable_weekly_post (self st) = Some post
    /\ is_Some (messages (channel (world st)) !! msg_id post).

(** What follows the name column of a row: the marks and the streak. *)
Definition row_tail (marks : str) (streak : Z) : str :=
  marks ++ lit " (Streak: " ++ str_of_int streak ++ lit " "
    ++ day_suffix streak ++ lit ")`".

(** [row] is the row of [m] with the name left-justified to exactly [w]
    characters, so that its marks start at column [w + 4]. *)
Definition aligned_row (w : nat) (m : TeamMember) (row : str) : Prop :=
  exists marks streak,
    row = member_row w (name m) marks streak
    /\ length (ljust (name m) w) = w
    /\ take (w + 4) row = lit "# `" ++ ljust (name m) w ++ lit " "
    /\ drop (w + 4) row = row_tail marks streak.

(** [text] has one aligned row per member, in roster order, each padded to
    the longest name of the roster; with names free of line breaks these
    rows are the lines of [text]. *)
Definition aligned (members : list TeamMember) (text : str) : Prop :=
  exists rows,
    text = join [NEWLINE] rows
    /\ Forall2 (aligned_row (max_len members)) members rows
    /\ (no_newline members -> split text NEWLINE = rows).

(** The post of [st] is live and aligned for the roster of [st]. *)
Definition post_aligned (st : State) : Prop :=
  exists post,
    editable_weekly_post (self st) = Some post
    /\ aligned (team_members (self st)) (content post).

(** The text a full [rebuild_post] writes over the text [old]. *)
Definition rebuilt_text (members : list TeamMember) (w : nat)
    (strk : gmap Z Z) (old : str) : str :=
  join [NEWLINE]
    (map (fun m =>
            member_row w (name m)
              (existing_marks (split old NEWLINE) (name m))
              (default 0 (strk !! discord_id m)))
         members).

(** The manager after a call that replaced the content of its post. *)
Definition with_post_text (st : State) (post : Message) (text : str) : State :=
  {| self := {| team_members := team_members (self st);
                max_name_length := max_name_length (self st);
                editable_weekly_post := Some {| msg_id := msg_id post; content := text |};
                editable_weekly_post_id := editable_weekly_post_id (self st);
                weekly_post_timestamp := weekly_post_timestamp (self st) |};
     world := {| channel :=
                   {| messages := <[msg_id post := text]> (messages (channel (world st)));
                      next_id := next_id (channel (world st));
                      readable := readable (channel (world st)) |};
                 data_file := data_file (world st);
                 streaks := streaks (world st);
                 clock_now := clock_now (world st);
                 clock_utcnow := clock_utcnow (world st) |} |}.

(** The roster of [st] replaced, with the width recomputed. *)
Definition with_roster (st : State) (members : list TeamMember) : State :=
  {| self := {| team_members := members;
                max_name_length := max_len members;
                editable_weekly_post := editable_weekly_post (self st);
                editable_weekly_post_id := editable_weekly_post_id (self st);
                weekly_post_timestamp := weekly_post_timestamp (self st) |};
     world := world st |}.

(** The name column of a row. *)
Definition row_head (w : nat) (nm : str) : str :=
  lit "# `" ++ ljust nm w ++ lit " ".

(** The row [rebuild_post] writes for [m] over the text [old]. *)
Definition rebuilt_row (w : nat) (strk : gmap Z Z) (old : str) (m : TeamMember) : str :=
  member_row w (name m) (existing_marks (split old NEWLINE) (name m))
    (default 0 (strk !! discord_id m)).

(** No name of the roster holds a mark character. *)
Definition names_without_marks (members : list TeamMember) : Prop :=
  Forall (fun m => (CHECK ∉ name m) /\ (QUESTION ∉ name m)) members.

(** Five characters are read back from [old] for every member. *)
Definition full_marks (members : list TeamMember) (old : str) : Prop :=
  Forall (fun m => length (existing_marks (split old NEWLINE) (name m)) = 5%nat)
    members.

(** In [text], the first line in which the name of a member occurs is the
    row [row m] of that member. *)
Definition names_find_own_rows (members : list TeamMember)
    (row : TeamMember -> str) (text : str) : Prop :=
  Forall (fun m => member_line (split text NEWLINE) (name m) = Some (row m)) members.

(** No row holds the name of a member listed after it. *)
Fixpoint no_name_in_earlier_row (row : TeamMember -> str)
    (members : list TeamMember) : Prop :=
  match members with
  | [] => True
  | m :: later =>
      Forall (fun m' => contains (row m) (name m') = false) later
      /\ no_name_in_earlier_row row later
  end.

(** What [has_minimum_checkmarks] answers for the name [nm] on the post text
    [text] with the width [w]. *)
Definition meets_minimum (text : str) (w : nat) (nm : str) (n : Z) : bool :=
  let name_index := find text nm in
  if name_index =? -1 then false
  else
    let start_index := name_index + Z.of_nat w + 1 in
    n <=? Z.of_nat (count (slice text start_index (start_index + 5)) CHECK).

(** The streak table after [reset_streaks] went through [members]. *)
Definition reset_table (text : str) (w : nat) (members : list TeamMember)
    (strk : gmap Z Z) : gmap Z Z :=
  foldl (fun acc m =>
           if meets_minimum text w (name m) 5 then acc
           else <[discord_id m := 0]> acc)
        strk members.

(** *** A post as a board of rows *)

Definition BACKTICK : N := 96%N.

(** The streak annotation of a row. *)
Definition streak_note (streak : Z) : str :=
  lit "(Streak: " ++ str_of_int streak ++ lit " " ++ day_suffix streak ++ lit ")".

(** What stands between the two backticks of a row. *)
Definition row_body (w : nat) (nm marks : str) (streak : Z) : str :=
  ljust nm w ++ lit " " ++ marks ++ lit " " ++ streak_note streak.

(** One row of the board: whose it is, the width its name was padded to,
    its marks and the streak it shows. *)
Record Entry := {
  member : TeamMember;
  width : nat;
  marks : str;
  shown : Z
}.

Definition entry_row (e : Entry) : str :=
  member_row (width e) (name (member e)) (marks e) (shown e).

Definition board_text (entries : list Entry) : str :=
  join [NEWLINE] (map entry_row entries).

(** A name that [update_post] can handle: no line break, ['#'], backtick
    or space in it. *)
Definition plain_name (nm : str) : Prop :=
  (NEWLINE ∉ nm) /\ (HASH ∉ nm) /\ (BACKTICK ∉ nm) /\ (SPACE ∉ nm).

(** A sequence of done and pending marks. *)
Definition mark_seq (ms : str) : Prop :=
  Forall (fun c => c = CHECK \/ c = QUESTION) ms.

Definition plain_entry (e : Entry) : Prop :=
  plain_name (name (member e)) /\ mark_seq (marks e).

(** The first pending mark turned into a done mark. *)
Fixpoint flip_first (ms : str) : str :=
  match ms with
  | [] => []
  | c :: ms' =>
      if (c =? QUESTION)%N then CHECK :: ms' else c :: flip_first ms'
  end.

(** The row of [e] after a check-in recorded with the width [w] and the
    stored streak [streak]. *)
Definition checked_in (w : nat) (streak : Z) (e : Entry) : Entry :=
  {| member := member e; width := w; marks := flip_first (marks e);
     shown := streak |}.

(** The row of [e] after [update_post] recorded a check-in in [st]. *)
Definition recorded (st : State) (e : Entry) : Entry :=
  checked_in (max_name_length (self st))
    (default 0 (streaks (world st) !! discord_id (member e))) e.

(** Every character of a streak annotation is one of these. *)
Definition note_chars : str := lit "(Streak: days)-0123456789".

(** The name [nm'] has a character that is neither in [nm] nor in anything
    else a row of [nm] can hold, so it cannot occur in such a row. *)
Definition separated (nm nm' : str) : Prop :=
  exists c, c ∈ nm' /\ (c ∉ nm) /\ (c ∉ [CHECK; QUESTION] ++ row_chars).

Definition separated_names (names : list str) : Prop :=
  forall i j nm nm',
    i <> j -> names !! i = Some nm -> names !! j = Some nm' -> separated nm nm'.

(** The manager holds a live post whose content is the board [entries]:
    plain names that are separated from each other, five marks a row. *)
Definition good_board (st : State) (entries : list Entry) : Prop :=
  (exists post,
     editable_weekly_post (self st) = Some post
     /\ is_Some (messages (channel (world st)) !! msg_id post)
     /\ content post = board_text entries)
  /\ Forall plain_entry entries
  /\ Forall (fun e => length (marks e) = 5%nat) entries
  /\ separated_names (map (fun e => name (member e)) entries).

(** The calls the check-in logic makes for a member during a week. *)
Inductive call :=
  | Bump (m : TeamMember)      (* [update_streak(m, db)] *)
  | CheckIn (m : TeamMember).  (* [update_post(m, db)] *)

Definition run_call (c : call) : M unit :=
  match c with
  | Bump m => update_streak m
  | CheckIn m => update_post m
  end.

Definition call_member (c : call) : TeamMember :=
  match c with Bump m | CheckIn m => m end.

(** Every done slot of [ms] is done in [ms'], which has as many slots. *)
Definition keeps_done (ms ms' : str) : Prop :=
  length ms' = length ms
  /\ (forall i, ms !! i = Some CHECK -> ms' !! i = Some CHECK)
  /\ (count ms CHECK <= count ms' CHECK)%nat.

Definition board_keeps_done (entries entries' : list Entry) : Prop :=
  Forall2 (fun e e' => member e' = member e /\ keeps_done (marks e) (marks e'))
    entries entries'.

(** ** Sample rosters and states *)

Module Sample.

Definition alice : TeamMember := {| discord_id := 1; name := lit "Alice" |}.
Definition bob : TeamMember := {| discord_id := 2; name := lit "Bob" |}.
Definition bobby : TeamMember := {| discord_id := 3; name := lit "Bobby" |}.
Definition chris : TeamMember := {| discord_id := 4; name := lit "Christopher" |}.

(** Tuesday 2026-11-03, ISO week 45. *)
Definition tuesday : datetime := {| ordinal := 739923; second_of_day := 0 |}.
Definition monday : datetime := {| ordinal := 739922; second_of_day := 0 |}.

Definition empty_channel : Channel :=
  {| messages := ∅; next_id := 100; readable := true |}.

Definition fresh_world : World :=
  {| channel := empty_channel; data_file := None; streaks := ∅;
     clock_now := tuesday; clock_utcnow := tuesday |}.

Definition fresh_manager (members : list TeamMember) : Manager :=
  {| team_members := members; max_name_length := max_len members;
     editable_weekly_post := None; editable_weekly_post_id := None;
     weekly_post_timestamp := None |}.

End Sample.

Import Sample.

(** A manager before its first load, with no state file. *)
Definition first_run : State :=
  {| self := fresh_manager [alice; bob]; world := fresh_world |}.



(** The empty roster with a live post, as [remove_member_from_post]
    leaves it before rebuilding. *)
Definition last_member_removed : State :=
  {| self := {| team_members := []; max_name_length := 0;
                editable_weekly_post :=
                  Some {| msg_id := 102;
                          content := member_row 5 (lit "Alice") (replicate 5 QUESTION) 0 |};
                editable_weekly_post_id := None;
                weekly_post_timestamp := None |};
     world := {| channel :=
                   {| messages :=
                        {[ 102 := member_row 5 (lit "Alice") (replicate 5 QUESTION) 0 ]};
                      next_id := 103; readable := true |};
                 data_file := Some {| post_id := Some 102; timestamp := Some monday |};
                 streaks := ∅; clock_now := tuesday; clock_utcnow := tuesday |} |}.

(** The lines of the live post. *)
Definition post_lines (st : State) : list str :=
  match editable_weekly_post (self st) with
  | Some post => split (content post) NEWLINE
  | None => []
  end.

(** The board of a fresh week for Alice and Bob, and some calls of that
    week. *)
Definition alice_bob_board : list Entry :=
  [ {| member := alice; width := 5; marks := replicate 5 QUESTION; shown := 0 |};
    {| member := bob; width := 5; marks := replicate 5 QUESTION; shown := 0 |} ].

Definition week_calls : list call :=
  [Bump alice; CheckIn alice; Bump bob; CheckIn bob; Bump alice; CheckIn alice].

(** The outcome of a call made after an earlier call returned. *)
Definition and_then {A} (r : result unit) (c : M A) : result A :=
  match r with
  | Ok _ st => c st
  | Raise e st => Raise e st
  end.

(** A week with the roster Alice, Bob: the manager is created and the post
    initialized; Alice then checks in five times. *)
Definition alice_bob_start : result unit :=
  and_then (init [alice; bob] fresh_world) initialize_post.


Definition alice_full : result unit :=
  and_then alice_bob_start
    (for_each (replicate 5 alice) (fun m => update_streak m ;; update_post m)).

(** A week with the roster Bobby, Bob, in this order; Bob starts the week
    with a stored streak of 3. *)
Definition bobby_bob_world : World :=
  {| channel := empty_channel; data_file := None; streaks := {[ 2 := 3 ]};
     clock_now := tuesday; clock_utcnow := tuesday |}.

Definition bobby_bob_start : result unit :=
  and_then (init [bobby; bob] bobby_bob_world) initialize_post.

(** Bobby has checked in twice. *)
Definition bobby_twice : result unit :=
  and_then bobby_bob_start
    (for_each (replicate 2 bobby) (fun m => update_streak m ;; update_post m)).

(** ... and then Bob checks in. *)
Definition bobby_twice_bob_once : result unit :=
  and_then bobby_twice (update_streak bob ;; update_post bob).

(** Bobby has checked in five times, Bob never. *)
Definition bobby_full : result unit :=
  and_then bobby_bob_start
    (for_each (replicate 5 bobby) (fun m => update_streak m ;; update_post m)).

(** Bob has checked in five times, Bobby never; then the post is rebuilt,
    and Bob checks in once more. *)
Definition bob_full : result unit :=
  and_then bobby_bob_start
    (for_each (replicate 5 bob) (fun m => update_streak m ;; update_post m)).

Definition bob_full_rebuilt : result unit :=
  and_then bob_full rebuild_post.

Definition bob_full_rebuilt_bob_again : result unit :=
  and_then bob_full_rebuilt (update_post bob).

(** Alice has checked in once. *)
Definition alice_once : result unit :=
  and_then alice_bob_start (update_streak alice ;; update_post alice).

(** Alice has checked in five times and Bob three times; then the week is
    closed. *)
Definition alice_full_bob_thrice : result unit :=
  and_then alice_full
    (for_each (replicate 3 bob) (fun m => update_streak m ;; update_post m)).

Definition week_closed : result unit :=
  and_then alice_full_bob_thrice reset_streaks.

(** The board of [alice_full_bob_thrice]. *)
Definition thrice_board : list Entry :=
  [ {| member := alice; width := 5; marks := replicate 5 CHECK; shown := 5 |};
    {| member := bob; width := 5;
       marks := [CHECK; CHECK; CHECK; QUESTION; QUESTION]; shown := 3 |} ].

(** Christopher joins the roster of [alice_full_bob_thrice]. *)
Definition chris_joined : result unit :=
  and_then alice_full_bob_thrice (add_member_to_post chris).

(** A one-member roster whose name has a space: five check-ins, then the
    week is closed. *)
Definition al_smith : TeamMember := {| discord_id := 5; name := lit "Al Smith" |}.

Definition al_smith_full : result unit :=
  and_then (and_then (init [al_smith] fresh_world) initialize_post)
    (for_each (replicate 5 al_smith) (fun m => update_streak m ;; update_post m)).

(** A manager with the roster Alice, Bob and no post yet, rebuilt once
    and twice. *)
Definition first_rebuild : result unit :=
  and_then (init [alice; bob] fresh_world) rebuild_post.

Definition second_rebuild : result unit :=
  and_then first_rebuild rebuild_post.

Definition state_of (r : result unit) : State :=
  match r with Ok _ st => st | Raise _ st => st end.

Definition returned {A} (r : result A) : bool :=
  match r with Ok _ _ => true | Raise _ _ => false end.

Definition pending5 : str := replicate 5 QUESTION.
Definition done5 : str := replicate 5 CHECK.

(** ** Notions for the further properties *)

(** The five characters both predicates read for a name: those after the
    name column of its first occurrence in the post text. *)
Definition slots_read (text : str) (w : nat) (nm : str) : str :=
  let start_index := find text nm + Z.of_nat w + 1 in
  slice text start_index (start_index + 5).

(** The English ordinal suffix of a day number. *)
Definition english_suffix (day : Z) : str :=
  if (11 <=? day mod 100) && (day mod 100 <=? 13) then lit "th"
  else if day mod 10 =? 1 then lit "st"
  else if day mod 10 =? 2 then lit "nd"
  else if day mod 10 =? 3 then lit "rd"
  else lit "th".

(** Month and day of the [n]-th day (from 0) of a year, as [ord2ymd] finds
    them once the year is known. *)
Definition month_day (n : Z) (leapyear : bool) : Z * Z :=
  let month := (n + 50) / 32 in
  let preceding := tbl DAYS_BEFORE_MONTH month + b2z ((2 <? month) && leapyear) in
  if n <? preceding then
    let month := month - 1 in
    let preceding :=
      preceding - (tbl DAYS_IN_MONTH month + b2z ((month =? 2) && leapyear)) in
    (month, n - preceding + 1)
  else (month, n - preceding + 1).

(** The world at a later time. *)
Definition at_time (w : World) (now utcnow : datetime) : World :=
  {| channel := channel w; data_file := data_file w; streaks := streaks w;
     clock_now := now; clock_utcnow := utcnow |}.

(** The done marks of a week in progress: done slots first, pending slots
    after them, five in all. *)
Definition progress_marks (ms : str) : Prop :=
  exists k, (k <= 5)%nat /\ ms = replicate k CHECK ++ replicate (5 - k) QUESTION.

(** The post is the board [entries] of the roster, as the manager's own
    calls keep it: plain, separated, non-empty names without mark
    characters, and marks of a week in progress. *)
Definition week_board (st : State) (entries : list Entry) : Prop :=
  good_board st entries
  /\ team_members (self st) = map member entries
  /\ Forall (fun e => progress_marks (marks e)) entries
  /\ names_without_marks (map member entries)
  /\ Forall (fun e => name (member e) <> []) entries.

(** Every row is padded to the width the manager holds. *)
Definition padded (st : State) (entries : list Entry) : Prop :=
  Forall (fun e => width e = max_name_length (self st)) entries.

(** The row of [e] as a full rebuild in [st] writes it. *)
Definition refreshed (st : State) (e : Entry) : Entry :=
  {| member := member e; width := max_name_length (self st); marks := marks e;
     shown := default 0 (streaks (world st) !! discord_id (member e)) |}.

(** The row of a member who joins. *)
Definition joined (st : State) (m : TeamMember) : Entry :=
  {| member := m; width := max_name_length (self st);
     marks := replicate 5 QUESTION;
     shown := default 0 (streaks (world st) !! discord_id m) |}.

(** The name [nm] and the names of the board cannot occur in each other's
    rows. *)
Definition separated_from (entries : list Entry) (nm : str) : Prop :=
  Forall (fun e => separated (name (member e)) nm /\ separated nm (name (member e)))
    entries.

(** A member who can join the board: a plain, non-empty name without mark
    characters that is separated from the names of the board. *)
Definition newcomer (entries : list Entry) (m : TeamMember) : Prop :=
  plain_name (name m) /\ (CHECK ∉ name m) /\ (QUESTION ∉ name m)
  /\ name m <> [] /\ separated_from entries (name m).

(** The rows that stay when [m] is removed: those of another id. *)
Definition staying (m : TeamMember) (entries : list Entry) : list Entry :=
  filter (fun e => discord_id (member e) ≠ discord_id m) entries.

(** The state after [update_streak(member)]. *)
Definition bumped (st : State) (m : TeamMember) : State :=
  {| self := self st;
     world := {| channel := channel (world st);
                 data_file := data_file (world st);
                 streaks := <[discord_id m :=
                                default 0 (streaks (world st) !! discord_id m) + 1]>
                              (streaks (world st));
                 clock_now := clock_now (world st);
                 clock_utcnow := clock_utcnow (world st) |} |}.

(** * Properties *)

(** ** Running the state-and-exception code *)

#[local] Arguments fetch_message : simpl never.
#[local] Arguments member_row : simpl never.
#[local] Arguments format_date : simpl never.
#[local] Arguments isoweek : simpl never.
#[local] Arguments lit : simpl never.
#[local] Arguments existing_marks : simpl never.

Lemma collect_reads {A B} (l : list A) (body : A -> M B) (f : A -> B) st :
  (forall x, x ∈ l -> body x st = Ok (f x) st) ->
  collect l body st = Ok (map f l) st.
Proof.
  induction l as [|x l IH]; intros Hbody; [reflexivity|].
  cbn. unfold bind. rewrite Hbody by left.
  rewrite IH; [reflexivity|]. intros y Hy. apply Hbody. by right.
Qed.

(** ** The state store *)

(** C9: loading the persisted state tolerates a missing state file: on a
    first run the post id and the timestamp are set to [None] without an
    exception, an empty record is written, and a later load succeeds with
    the same outcome. *)
Theorem load_weekly_post_data_tolerates_absence st :
  data_file (world st) = None ->
  exists st',
    load_weekly_post_data st = Ok tt st'
    /\ editable_weekly_post_id (self st') = None
    /\ weekly_post_timestamp (self st') = None
    /\ data_file (world st') = Some {| post_id := None; timestamp := None |}
    /\ exists st'',
         load_weekly_post_data st' = Ok tt st''
         /\ editable_weekly_post_id (self st'') = None
         /\ weekly_post_timestamp (self st'') = None.
Proof.
  intros Hfile. unfold load_weekly_post_data, bind, gets. rewrite Hfile.
  cbn. eexists. split; [reflexivity|]. cbn. repeat split.
  eexists. split; [reflexivity|]. by cbn.
Qed.

Lemma load_weekly_post_data_first_run :
  data_file (world first_run) = None
  /\ exists st',
    load_weekly_post_data first_run = Ok tt st'
    /\ editable_weekly_post_id (self st') = None
    /\ weekly_post_timestamp (self st') = None
    /\ data_file (world st') = Some {| post_id := None; timestamp := None |}
    /\ exists st'',
         load_weekly_post_data st' = Ok tt st''
         /\ editable_weekly_post_id (self st'') = None
         /\ weekly_post_timestamp (self st'') = None.
Proof.
  split; [reflexivity|].
  apply (load_weekly_post_data_tolerates_absence first_run). reflexivity.
Defined.

(** ** Creating, fetching and rebuilding the post *)




(** C10: with a non-empty roster and no live post, [rebuild_post] sends a
    new post holding the single line of the first roster member (five
    pending marks and the stored streak), saves the new post id and
    returns; with an empty roster it deletes the live post, if there is
    one, and is left without a post. *)
Theorem rebuild_post_edge_cases st :
  (forall first rest,
     team_members (self st) = first :: rest ->
     editable_weekly_post (self st) = None ->
     let ch := channel (world st) in
     let row :=
       member_row (max_name_length (self st)) (name first) (replicate 5 QUESTION)
         (default 0 (streaks (world st) !! discord_id first)) in
     exists st',
       rebuild_post st = Ok tt st'
       /\ editable_weekly_post (self st') = Some {| msg_id := next_id ch; content := row |}
       /\ messages (channel (world st')) = <[next_id ch := row]> (messages ch)
       /\ data_file (world st')
          = Some {| post_id := Some (next_id ch);
                    timestamp := Some (clock_now (world st)) |}
       /\ team_members (self st') = first :: rest)
  /\ (team_members (self st) = [] ->
      (editable_weekly_post (self st) = None ->
       exists st',
         rebuild_post st = Ok tt st'
         /\ editable_weekly_post (self st') = None
         /\ world st' = world st)
      /\ (forall post,
            editable_weekly_post (self st) = Some post ->
            is_Some (messages (channel (world st)) !! msg_id post) ->
            exists st',
              rebuild_post st = Ok tt st'
              /\ editable_weekly_post (self st') = None
              /\ messages (channel (world st'))
                 = delete (msg_id post) (messages (channel (world st))))).
Proof.
  split.
  - intros first rest Hm Hp ch row. unfold rebuild_post, bind, gets.
    rewrite Hm, Hp. cbn. eexists. split; [reflexivity|]. cbn. done.
  - intros Hm. split.
    + intros Hp. unfold rebuild_post, bind, gets. rewrite Hm, Hp. cbn.
      eexists. split; [reflexivity|]. done.
    + intros post Hp [text Htext]. unfold rebuild_post, bind, gets.
      rewrite Hm, Hp. cbn. rewrite Htext. cbn.
      eexists. split; [reflexivity|]. done.
Qed.

Lemma rebuild_post_edge_cases_witness :
  (exists st',
     rebuild_post first_run = Ok tt st'
     /\ editable_weekly_post (self st')
        = Some {| msg_id := 100;
                  content := member_row 5 (lit "Alice") (replicate 5 QUESTION) 0 |}
     /\ messages (channel (world st'))
        = {[ 100 := member_row 5 (lit "Alice") (replicate 5 QUESTION) 0 ]}
     /\ data_file (world st') = Some {| post_id := Some 100; timestamp := Some tuesday |}
     /\ team_members (self st') = [alice; bob])
  /\ (exists st',
        rebuild_post last_member_removed = Ok tt st'
        /\ editable_weekly_post (self st') = None
        /\ messages (channel (world st')) = ∅).
Proof.
  split.
  - apply (proj1 (rebuild_post_edge_cases first_run) alice [bob]); reflexivity.
  - destruct (proj2 (proj2 (rebuild_post_edge_cases last_member_removed) eq_refl)
                _ eq_refl) as (st' & H1 & H2 & H3).
    + vm_compute. eauto.
    + exists st'. split; [exact H1|]. split; [exact H2|]. rewrite H3.
      vm_compute. reflexivity.
Defined.

(** ** Facts on the string primitives *)

Section Strings.

Implicit Types (s p sub pre post line : str) (c x : N) (ls : list str).

Lemma starts_with_app p s : starts_with p (p ++ s) = true.
Proof. induction p as [|a p IH]; [done|]. cbn. by rewrite N.eqb_refl. Qed.

Lemma starts_with_inv p s : starts_with p s = true -> exists r, s = p ++ r.
Proof.
  revert s. induction p as [|a p IH]; intros s H; [by exists s|].
  destruct s as [|b s]; [done|]. cbn in H.
  apply andb_true_iff in H as [Hab Hps]. apply N.eqb_eq in Hab as ->.
  destruct (IH _ Hps) as [r ->]. by exists r.
Qed.

Lemma index_of_Some sub s i :
  index_of sub s = Some i ->
  exists pre post, s = pre ++ sub ++ post /\ length pre = i.
Proof.
  revert i. induction s as [|x s IH]; intros i; cbn.
  - destruct (starts_with sub []) eqn:E; [|done].
    intros [= <-]. apply starts_with_inv in E as [r E]. by exists [], r.
  - destruct (starts_with sub (x :: s)) eqn:E.
    + intros [= <-]. apply starts_with_inv in E as [r E]. by exists [], r.
    + destruct (index_of sub s) as [j|]; [|done]. intros [= <-].
      destruct (IH j eq_refl) as (pre & post & -> & <-).
      by exists (x :: pre), post.
Qed.

Lemma index_of_None sub s pre post :
  index_of sub s = None -> s <> pre ++ sub ++ post.
Proof.
  revert pre. induction s as [|x s IH]; intros pre; cbn.
  - destruct (starts_with sub []) eqn:E; [done|]. intros _ H.
    symmetry in H. apply app_eq_nil in H as [-> H].
    apply app_eq_nil in H as [-> _]. done.
  - destruct (starts_with sub (x :: s)) eqn:E; [done|].
    destruct (index_of sub s) eqn:Ei; [done|]. intros _ H.
    destruct pre as [|y pre].
    + cbn in H. rewrite H, starts_with_app in E. done.
    + injection H as _ H'. by eapply IH.
Qed.

Lemma contains_true s sub :
  contains s sub = true <-> exists pre post, s = pre ++ sub ++ post.
Proof.
  unfold contains. destruct (index_of sub s) as [i|] eqn:E; split; try done.
  - intros _. destruct (index_of_Some _ _ _ E) as (pre & post & ? & _). eauto.
  - intros (pre & post & H). by apply index_of_None with (pre := pre) (post := post) in E.
Qed.

(** The first occurrence of a character. *)
Lemma index_of_char c pre post :
  c ∉ pre -> index_of [c] (pre ++ c :: post) = Some (length pre).
Proof.
  induction pre as [|x pre IH]; intros Hc; cbn.
  - by rewrite N.eqb_refl.
  - apply not_elem_of_cons in Hc as [Hx Hpre].
    destruct (N.eqb_spec c x) as [->|_]; [done|]. cbn.
    by rewrite IH.
Qed.

Lemma index_of_char_None c s : c ∉ s -> index_of [c] s = None.
Proof.
  induction s as [|x s IH]; intros Hc; [done|].
  apply not_elem_of_cons in Hc as [Hx Hs]. cbn.
  destruct (N.eqb_spec c x) as [->|_]; [done|]. cbn. by rewrite IH.
Qed.

Lemma find_char c pre post :
  c ∉ pre -> find (pre ++ c :: post) [c] = len pre.
Proof. intros H. unfold find. by rewrite index_of_char. Qed.

Lemma find_char_None c s : c ∉ s -> find s [c] = -1.
Proof. intros H. unfold find. by rewrite index_of_char_None. Qed.

Lemma find_None_iff s sub : find s sub = -1 <-> index_of sub s = None.
Proof. unfold find. destruct (index_of sub s); split; try done; lia. Qed.

(** [split] and [join] *)

Lemma split_nonempty s c : split s c <> [].
Proof.
  destruct s as [|x s]; [done|]. cbn.
  destruct (x =? c)%N; [done|]. by destruct (split s c).
Qed.

Lemma join_cons sep p ps :
  ps <> [] -> join sep (p :: ps) = p ++ sep ++ join sep ps.
Proof. by destruct ps. Qed.

Lemma join_split s c : join [c] (split s c) = s.
Proof.
  induction s as [|x s IH]; [done|]. cbn [split].
  destruct (N.eqb_spec x c) as [->|Hx].
  - rewrite join_cons by apply split_nonempty. by rewrite IH.
  - pose proof (split_nonempty s c) as Hne.
    destruct (split s c) as [|l ls]; [done|].
    destruct ls as [|l' ls]; cbn in *; by rewrite <- IH.
Qed.

Lemma split_no_sep s c : c ∉ s -> split s c = [s].
Proof.
  induction s as [|x s IH]; intros Hc; [done|].
  apply not_elem_of_cons in Hc as [Hx Hs]. cbn.
  destruct (N.eqb_spec x c) as [->|_]; [done|]. by rewrite IH.
Qed.

Lemma split_app_sep p s c :
  c ∉ p -> split (p ++ c :: s) c = p :: split s c.
Proof.
  induction p as [|x p IH]; intros Hc; cbn.
  - by rewrite N.eqb_refl.
  - apply not_elem_of_cons in Hc as [Hx Hp].
    destruct (N.eqb_spec x c) as [->|_]; [done|]. by rewrite IH.
Qed.

Lemma split_join c ls :
  ls <> [] -> Forall (fun l => c ∉ l) ls -> split (join [c] ls) c = ls.
Proof.
  induction ls as [|p ps IH]; [done|]. intros _ Hall.
  apply Forall_cons in Hall as [Hp Hps].
  destruct ps as [|q ps]; [by apply split_no_sep|].
  rewrite join_cons by done. cbn [app].
  rewrite split_app_sep by done. by rewrite IH.
Qed.

Lemma split_elem_no_sep s c line : line ∈ split s c -> c ∉ line.
Proof.
  revert line. induction s as [|x s IH]; intros line; cbn.
  - intros ->%list_elem_of_singleton. apply not_elem_of_nil.
  - destruct (N.eqb_spec x c) as [->|Hx].
    + intros [->|H]%elem_of_cons; [apply not_elem_of_nil|by apply IH].
    + pose proof (split_nonempty s c) as Hne.
      destruct (split s c) as [|l ls]; [done|].
      intros [->|H]%elem_of_cons.
      * apply not_elem_of_cons. split; [done|]. apply IH. by left.
      * apply IH. by right.
Qed.

Lemma join_elem sep ls line :
  line ∈ ls -> exists pre post, join sep ls = pre ++ line ++ post.
Proof.
  induction ls as [|p ps IH]; [by intros ?%elem_of_nil|].
  destruct ps as [|q ps].
  - intros ->%list_elem_of_singleton. exists [], []. cbn. by rewrite app_nil_r.
  - rewrite join_cons by done. intros [->|H]%elem_of_cons.
    + by exists [], (sep ++ join sep (q :: ps)).
    + destruct (IH H) as (pre & post & ->).
      exists (p ++ sep ++ pre), post. by rewrite <- !app_assoc.
Qed.

(** A line of [s.split(c)] is a piece of [s]. *)
Lemma split_elem_piece s c line :
  line ∈ split s c -> exists pre post, s = pre ++ line ++ post.
Proof.
  intros H. destruct (join_elem [c] _ _ H) as (pre & post & E).
  rewrite join_split in E. eauto.
Qed.

Lemma contains_line s c line sub :
  line ∈ split s c -> contains line sub = true -> contains s sub = true.
Proof.
  intros (pre & post & ->)%split_elem_piece (a & b & ->)%contains_true.
  apply contains_true. exists (pre ++ a), (b ++ post).
  by rewrite <- !app_assoc.
Qed.

End Strings.

(** ** Checking in: [update_post] *)

Section Sublists.

Implicit Types (s old : str).

Lemma lstrip_subseteq s : lstrip s ⊆ s.
Proof.
  induction s as [|x s IH]; [done|]. cbn.
  destruct (is_space x); [|done]. intros y Hy. right. by apply IH.
Qed.

Lemma strip_subseteq s : strip s ⊆ s.
Proof.
  unfold strip, rstrip. intros y Hy. apply lstrip_subseteq.
  rewrite elem_of_reverse in Hy. apply lstrip_subseteq in Hy.
  by rewrite elem_of_reverse in Hy.
Qed.

Lemma slice_from_subseteq s i : slice_from s i ⊆ s.
Proof. apply sublist_subseteq, sublist_drop. Qed.

Lemma replace_go_erase_subseteq old k s : replace_go old [] k s ⊆ s.
Proof.
  revert k. induction s as [|x s IH]; intros k; [done|]. cbn.
  destruct k as [|k]; [|intros y Hy; right; by eapply IH].
  destruct (starts_with old (x :: s)); [intros y Hy; right; by eapply IH|].
  intros y [->|Hy]%elem_of_cons; [by left|right; by eapply IH].
Qed.

Lemma replace_erase_subseteq s x : replace s [x] [] ⊆ s.
Proof. apply replace_go_erase_subseteq. Qed.

Lemma marks_streak_of_subseteq line : marks_streak_of line ⊆ line.
Proof.
  unfold marks_streak_of.
  etrans; [apply strip_subseteq|]. etrans; [apply slice_from_subseteq|].
  etrans; [apply strip_subseteq|]. apply replace_erase_subseteq.
Qed.

End Sublists.

#[local] Arguments member_line : simpl never.
#[local] Arguments split : simpl never.
#[local] Arguments join : simpl never.
#[local] Arguments find : simpl never.
#[local] Arguments contains : simpl never.
#[local] Arguments strip : simpl never.
#[local] Arguments replace : simpl never.
#[local] Arguments slice_from : simpl never.
#[local] Arguments slice_to : simpl never.
#[local] Arguments slice : simpl never.
#[local] Arguments ljust : simpl never.
#[local] Arguments str_of_int : simpl never.

(** A line without a pending mark has none in what [update_post] reads as
    its marks. *)
Lemma marks_streak_of_no_question line :
  QUESTION ∉ line -> QUESTION ∉ marks_streak_of line.
Proof.
  intros H Hin. by apply H, (marks_streak_of_subseteq line).
Qed.

Lemma member_line_Some lines nm line :
  member_line lines nm = Some line ->
  line ∈ lines /\ contains line nm = true.
Proof.
  unfold member_line. intros H. apply List.find_some in H as [Hin Hc].
  split; [by apply list_elem_of_In|done].
Qed.

Lemma member_line_not_in_content text nm :
  contains text nm = false -> member_line (split text NEWLINE) nm = None.
Proof.
  intros Hno. destruct (member_line _ nm) as [line|] eqn:E; [|done].
  apply member_line_Some in E as [Hin Hc].
  by rewrite (contains_line _ _ _ _ Hin Hc) in Hno.
Qed.

(** A member whose name is not in the content is skipped. *)
Lemma update_post_unknown_name st post member :
  editable_weekly_post (self st) = Some post ->
  contains (content post) (name member) = false ->
  update_post member st = Ok tt st.
Proof.
  intros Hpost Hno. unfold update_post, the_post, bind, gets.
  rewrite Hpost. cbn. by rewrite member_line_not_in_content.
Qed.

(** A member whose line has no pending mark left is skipped. *)
Lemma update_post_no_pending st post member line :
  editable_weekly_post (self st) = Some post ->
  member_line (split (content post) NEWLINE) (name member) = Some line ->
  QUESTION ∉ marks_streak_of line ->
  update_post member st = Ok tt st.
Proof.
  intros Hpost Hline Hq. unfold update_post, the_post, bind, gets.
  rewrite Hpost. cbn. rewrite Hline. fold (marks_streak_of line).
  by rewrite find_char_None.
Qed.

(** The two early returns of [update_post], as the code tests them: when
    the member's name does not occur in the post content, or the first
    line that holds the name has no pending mark left in its marks,
    [update_post] returns normally and leaves the manager, the channel and
    the stores exactly as they were. *)
Theorem update_post_noop st post member :
  editable_weekly_post (self st) = Some post ->
  contains (content post) (name member) = false
  \/ (exists line,
        member_line (split (content post) NEWLINE) (name member) = Some line
        /\ QUESTION ∉ marks_streak_of line) ->
  update_post member st = Ok tt st.
Proof.
  intros Hpost [Hno|(line & Hline & Hq)].
  - by apply (update_post_unknown_name st post).
  - by apply (update_post_no_pending st post member line).
Qed.

Lemma update_post_noop_witness :
  update_post {| discord_id := 9; name := lit "Carol" |} (state_of alice_full)
  = Ok tt (state_of alice_full)
  /\ update_post alice (state_of alice_full) = Ok tt (state_of alice_full).
Proof.
  split.
  - apply (update_post_noop (state_of alice_full)
             {| msg_id := 102;
                content := join [NEWLINE]
                  [member_row 5 (lit "Alice") done5 5;
                   member_row 5 (lit "Bob") pending5 0] |}).
    + vm_compute; reflexivity.
    + left. vm_compute; reflexivity.
  - apply (update_post_noop (state_of alice_full)
             {| msg_id := 102;
                content := join [NEWLINE]
                  [member_row 5 (lit "Alice") done5 5;
                   member_row 5 (lit "Bob") pending5 0] |}).
    + vm_compute; reflexivity.
    + right. exists (member_row 5 (lit "Alice") done5 5).
      split; [vm_compute; reflexivity|].
      apply (bool_decide_unpack _). vm_compute. exact I.
Defined.

(** C3, on the code: with the roster Bobby, Bob, after five check-ins of Bob
    and a rebuild, Bob's own line has five done marks and no pending one.
    A further [update_post] for Bob is not skipped: the first line in
    which the name "Bob" occurs is Bobby's, which has pending marks, and
    that line is rewritten as a line named Bob with one done mark. *)
Theorem update_post_rewrites_line_for_member_without_pending :
  returned bob_full_rebuilt = true
  /\ post_lines (state_of bob_full_rebuilt)
     = [member_row 5 (lit "Bobby") pending5 0; member_row 5 (lit "Bob") done5 8]
  /\ marks_streak_of (member_row 5 (lit "Bob") done5 8)
     = done5 ++ lit " (Streak: 8 days)`"
  /\ returned bob_full_rebuilt_bob_again = true
  /\ post_lines (state_of bob_full_rebuilt_bob_again)
     = [member_row 5 (lit "Bob") [CHECK; QUESTION; QUESTION; QUESTION; QUESTION] 8;
        member_row 5 (lit "Bob") done5 8]
  /\ state_of bob_full_rebuilt_bob_again <> state_of bob_full_rebuilt.
Proof.
  split_and!; try (vm_compute; reflexivity).
  intros H. apply (f_equal post_lines) in H. vm_compute in H. discriminate.
Qed.

(** C1, on the code: with the roster Bobby, Bob and Bobby at two check-ins,
    a check-in of Bob is recorded on Bobby's line, because that is the first
    line in which the name "Bob" occurs.  Bobby's line is replaced by a line
    named Bob, and Bob's own line stays as it was. *)
Theorem update_post_edits_line_of_other_member :
  returned bobby_twice = true
  /\ post_lines (state_of bobby_twice)
     = [member_row 5 (lit "Bobby") [CHECK; CHECK; QUESTION; QUESTION; QUESTION] 2;
        member_row 5 (lit "Bob") pending5 3]
  /\ returned bobby_twice_bob_once = true
  /\ post_lines (state_of bobby_twice_bob_once)
     = [member_row 5 (lit "Bob") [CHECK; CHECK; CHECK; QUESTION; QUESTION] 4;
        member_row 5 (lit "Bob") pending5 3].
Proof. split_and!; vm_compute; reflexivity. Qed.

(** C5, on the code: in the same week, Bobby has two done slots before Bob
    checks in and none afterwards: no line of the post names Bobby any
    more, and [has_minimum_checkmarks] finds not even one done slot. *)
Theorem update_post_loses_done_slots_of_other_member :
  has_minimum_checkmarks bobby 2 (state_of bobby_twice)
  = Ok true (state_of bobby_twice)
  /\ has_minimum_checkmarks bobby 1 (state_of bobby_twice_bob_once)
     = Ok false (state_of bobby_twice_bob_once)
  /\ member_line (post_lines (state_of bobby_twice_bob_once)) (name bobby) = None.
Proof. split_and!; vm_compute; reflexivity. Qed.

(** C7, on the code: at the end of a week in which Bobby checked in five
    times and Bob never, Bob's line has no done mark, yet [reset_streaks]
    leaves his stored streak of 3: the marks read for Bob are those after
    the first occurrence of "Bob", which is inside Bobby's name. *)
Theorem reset_streaks_reads_line_of_other_member :
  returned bobby_full = true
  /\ post_lines (state_of bobby_full)
     = [member_row 5 (lit "Bobby") done5 5; member_row 5 (lit "Bob") pending5 3]
  /\ returned (and_then bobby_full reset_streaks) = true
  /\ streaks (world (state_of (and_then bobby_full reset_streaks))) !! discord_id bob
     = Some 3.
Proof. split_and!; vm_compute; reflexivity. Qed.

(** ** The characters of a rendered row *)

Lemma str_of_uint_digits u : str_of_uint u ⊆ lit "0123456789".
Proof.
  induction u; cbn; [by intros ? ?%elem_of_nil|..];
    (intros y [->|Hy]%elem_of_cons; [|by apply IHu]);
    apply (bool_decide_unpack _); vm_compute; exact I.
Qed.

Lemma str_of_int_chars n : str_of_int n ⊆ row_chars.
Proof.
  assert (Hd : lit "0123456789" ⊆ row_chars).
  { apply (bool_decide_unpack _). vm_compute. exact I. }
  unfold str_of_int. destruct (Z.to_int n) as [u|u].
  - etrans; [apply str_of_uint_digits|done].
  - intros y [->|Hy]%elem_of_cons.
    + apply (bool_decide_unpack _). vm_compute. exact I.
    + by apply Hd, (str_of_uint_digits u).
Qed.

Lemma ljust_chars nm w c : c ∈ ljust nm w -> c ∈ nm \/ c = SPACE.
Proof.
  unfold ljust. rewrite elem_of_app. intros [H|H]; [by left|right].
  by apply elem_of_replicate in H as [-> _].
Qed.

Lemma member_row_chars w nm marks streak c :
  c ∈ member_row w nm marks streak ->
  c ∈ nm \/ c ∈ marks \/ c ∈ row_chars.
Proof.
  unfold member_row, day_suffix. rewrite !elem_of_app.
  intros [H|[H|[H|[H|[H|[H|[H|[H|H]]]]]]]]; auto.
  - right; right. revert H. generalize c. change (lit "# `" ⊆ row_chars).
    apply (bool_decide_unpack _). vm_compute. exact I.
  - apply ljust_chars in H as [H| ->]; [by left|].
    right; right. apply (bool_decide_unpack _). vm_compute. exact I.
  - right; right. revert H. generalize c. change (lit " " ⊆ row_chars).
    apply (bool_decide_unpack _). vm_compute. exact I.
  - right; right. revert H. generalize c. change (lit " (Streak: " ⊆ row_chars).
    apply (bool_decide_unpack _). vm_compute. exact I.
  - right; right. by apply (str_of_int_chars streak).
  - right; right. revert H. generalize c. change (lit " " ⊆ row_chars).
    apply (bool_decide_unpack _). vm_compute. exact I.
  - right; right. revert H. generalize c.
    change ((if streak =? 1 then lit "day" else lit "days") ⊆ row_chars).
    destruct (streak =? 1); apply (bool_decide_unpack _); vm_compute; exact I.
  - right; right. revert H. generalize c. change (lit ")`" ⊆ row_chars).
    apply (bool_decide_unpack _). vm_compute. exact I.
Qed.

Lemma member_row_no_newline w nm marks streak :
  NEWLINE ∉ nm -> NEWLINE ∉ marks -> NEWLINE ∉ member_row w nm marks streak.
Proof.
  intros Hn Hm [H|[H|H]]%member_row_chars; [done..|].
  revert H. apply (bool_decide_unpack _). vm_compute. exact I.
Qed.

Lemma fresh_row_eq w m n :
  fresh_row w m n = member_row w (name m) (replicate 5 QUESTION) n.
Proof.
  unfold fresh_row, member_row, day_suffix.
  by destruct (n =? 1).
Qed.

(** ** Starting the week: [initialize_post] *)

#[local] Arguments week_heading : simpl never.
#[local] Arguments weekday : simpl never.
#[local] Arguments send : simpl never.

Lemma initialize_post_guard st :
  truthy_id (editable_weekly_post_id (self st))
  && same_week (isoweek (clock_now (world st)))
       (isoweek <$> weekly_post_timestamp (self st)) = true
  <-> saved_post_is_current st.
Proof.
  unfold saved_post_is_current, truthy_id, same_week.
  destruct (editable_weekly_post_id (self st)) as [pid|];
    destruct (weekly_post_timestamp (self st)) as [t|]; cbn.
  - rewrite andb_true_iff, negb_true_iff, Z.eqb_neq, Z.eqb_eq. split.
    + intros [Hpid Hweek]. by exists pid, t.
    + intros (pid' & t' & [= <-] & Hpid & [= <-] & Hweek). done.
  - rewrite andb_false_r. split; [done|]. by intros (? & ? & _ & _ & ? & _).
  - split; [done|]. by intros (? & ? & ? & _).
  - split; [done|]. by intros (? & ? & ? & _).
Qed.

Lemma send_run text st :
  send text st
  = Ok {| msg_id := next_id (channel (world st)); content := text |}
       (on_world (fun w =>
          {| channel := {| messages := <[next_id (channel w) := text]> (messages (channel w));
                           next_id := next_id (channel w) + 1;
                           readable := readable (channel w) |};
             data_file := data_file w; streaks := streaks w;
             clock_now := clock_now w; clock_utcnow := clock_utcnow w |}) st).
Proof. reflexivity. Qed.

Lemma join_rows_nonempty {A} (f : A -> str) (l : list A) :
  l <> [] -> (forall x, f x <> []) -> join [NEWLINE] (map f l) <> [].
Proof.
  destruct l as [|x l]; [done|]. intros _ Hf. cbn [map].
  destruct (map f l) as [|y ys]; cbn; [apply Hf|].
  specialize (Hf x). by destruct (f x).
Qed.

(** Without a saved post of the current week and with a non-empty roster,
    [initialize_post] sends the two headings and the post, and saves the
    id of the post. *)
Lemma initialize_post_creates st :
  ~ saved_post_is_current st ->
  team_members (self st) <> [] ->
  let ch := channel (world st) in
  let rows :=
    map (fun m => fresh_row (max_name_length (self st)) m
                    (default 0 (streaks (world st) !! discord_id m)))
        (team_members (self st)) in
  let text := join [NEWLINE] rows in
  let pid := next_id ch + 1 + 1 in
  exists st',
    initialize_post st = Ok tt st'
    /\ editable_weekly_post (self st') = Some {| msg_id := pid; content := text |}
    /\ messages (channel (world st'))
       = <[pid := text]>
           (<[next_id ch + 1 := week_heading (clock_utcnow (world st))]>
              (<[next_id ch := lit "# Weekly Status Updates"]> (messages ch)))
    /\ data_file (world st')
       = Some {| post_id := Some pid; timestamp := Some (clock_now (world st)) |}
    /\ (no_newline (team_members (self st)) -> split text NEWLINE = rows)
    /\ team_members (self st') = team_members (self st)
    /\ max_name_length (self st') = max_name_length (self st).
Proof.
  intros Hcur Hmembers ch rows text pid.
  unfold initialize_post, bind, gets.
  destruct (truthy_id _ && _) eqn:Hguard;
    [by apply initialize_post_guard in Hguard|].
  rewrite (collect_reads _ _
             (fun m => member_row (max_name_length (self st)) (name m)
                         (replicate 5 QUESTION)
                         (default 0 (streaks (world st) !! discord_id m))))
    by done.
  assert (Hrows :
    map (fun m => member_row (max_name_length (self st)) (name m)
                    (replicate 5 QUESTION)
                    (default 0 (streaks (world st) !! discord_id m)))
        (team_members (self st)) = rows).
  { apply map_ext. intros m. by rewrite fresh_row_eq. }
  rewrite Hrows. fold text. rewrite !send_run. cbn.
  assert (Htext : text <> []).
  { apply join_rows_nonempty; [done|]. intros m. by rewrite fresh_row_eq. }
  destruct text as [|x text'] eqn:Etext; [done|].
  rewrite send_run. cbn.
  eexists. split; [reflexivity|]. cbn. split_and!; try done.
  intros Hnl. rewrite <- Etext. apply split_join.
  + subst rows. by destruct (team_members (self st)).
  + subst rows. apply Forall_map. eapply Forall_impl; [exact Hnl|].
    intros m Hm. cbn. rewrite fresh_row_eq.
    apply member_row_no_newline; [done|].
    apply (bool_decide_unpack _). vm_compute. exact I.
Qed.







(** ** Rendering: alignment of the rows *)

#[local] Arguments edit : simpl never.
#[local] Arguments the_post : simpl never.
#[local] Arguments max_len : simpl never.

Lemma max_len_bound members m :
  m ∈ members -> (length (name m) <= max_len members)%nat.
Proof.
  induction members as [|m' members IH]; [by intros ?%elem_of_nil|].
  unfold max_len. cbn. fold (max_len members).
  intros [->|H]%elem_of_cons; [lia|]. specialize (IH H). lia.
Qed.

Lemma ljust_length nm w : (length nm <= w)%nat -> length (ljust nm w) = w.
Proof. intros H. unfold ljust. rewrite length_app, length_replicate. lia. Qed.

Lemma member_row_aligned members m marks streak :
  m ∈ members ->
  aligned_row (max_len members) m
    (member_row (max_len members) (name m) marks streak).
Proof.
  intros Hm. exists marks, streak.
  pose proof (ljust_length _ _ (max_len_bound _ _ Hm)) as Hlen.
  split; [done|]. split; [done|].
  assert (Hrow : member_row (max_len members) (name m) marks streak
                 = (lit "# `" ++ ljust (name m) (max_len members) ++ lit " ")
                     ++ row_tail marks streak).
  { unfold member_row, row_tail. by rewrite <- !app_assoc. }
  assert (Hpre : length (lit "# `" ++ ljust (name m) (max_len members) ++ lit " ")
                 = (max_len members + 4)%nat).
  { rewrite !length_app, Hlen.
    change (length (lit "# `")) with 3%nat. change (length (lit " ")) with 1%nat.
    lia. }
  rewrite Hrow. split; [by apply take_app_length'|by apply drop_app_length'].
Qed.

Lemma slice_subseteq (s : str) i j : slice s i j ⊆ s.
Proof.
  unfold slice. etrans; [apply sublist_subseteq, sublist_take|].
  apply sublist_subseteq, sublist_drop.
Qed.

Lemma existing_marks_no_newline text nm :
  NEWLINE ∉ existing_marks (split text NEWLINE) nm.
Proof.
  assert (Hdefault : NEWLINE ∉ replicate 5 QUESTION).
  { apply (bool_decide_unpack _). vm_compute. exact I. }
  unfold existing_marks.
  destruct (member_line _ nm) as [[|x line]|] eqn:E; [done| |done].
  apply member_line_Some in E as [Hin _].
  apply split_elem_no_sep in Hin.
  cbv zeta.
  destruct (negb _); [intros Hs; eapply Hin, slice_subseteq, Hs|].
  destruct (negb _); [intros Hs; eapply Hin, slice_subseteq, Hs|done].
Qed.

(** The rows of a full render are aligned. *)
Lemma rendered_rows_aligned members (marks : TeamMember -> str) (streak : TeamMember -> Z) :
  members <> [] ->
  (forall m, NEWLINE ∉ marks m) ->
  aligned members
    (join [NEWLINE]
       (map (fun m => member_row (max_len members) (name m) (marks m) (streak m))
            members)).
Proof.
  intros Hne Hmarks. eexists. split; [reflexivity|]. split.
  - apply Forall2_fmap_r, Forall_Forall2_diag, Forall_forall.
    intros m Hm. by apply member_row_aligned.
  - intros Hnl. apply split_join; [by destruct members|].
    apply Forall_map. eapply Forall_impl; [exact Hnl|].
    intros m Hm. cbn. by apply member_row_no_newline.
Qed.

Lemma the_post_run st post :
  editable_weekly_post (self st) = Some post -> the_post st = Ok post st.
Proof. intros H. unfold the_post, bind, gets. by rewrite H. Qed.

Lemma edit_run st post text :
  is_Some (messages (channel (world st)) !! msg_id post) ->
  edit post text st
  = Ok {| msg_id := msg_id post; content := text |}
       (on_world (fun w =>
          {| channel := {| messages := <[msg_id post := text]> (messages (channel w));
                           next_id := next_id (channel w);
                           readable := readable (channel w) |};
             data_file := data_file w; streaks := streaks w;
             clock_now := clock_now w; clock_utcnow := clock_utcnow w |}) st).
Proof. intros [old H]. unfold edit, bind, gets. by rewrite H. Qed.

(** A full rebuild: non-empty roster and a live post. *)
Lemma rebuild_post_full st post :
  team_members (self st) <> [] ->
  editable_weekly_post (self st) = Some post ->
  is_Some (messages (channel (world st)) !! msg_id post) ->
  rebuild_post st
  = Ok tt (with_post_text st post
             (rebuilt_text (team_members (self st)) (max_name_length (self st))
                (streaks (world st)) (content post))).
Proof.
  intros Hne Hpost Hlive. unfold rebuild_post, bind, gets. rewrite Hpost.
  destruct (team_members (self st)) as [|m members] eqn:Hm; [done|].
  rewrite (collect_reads _ _
             (fun m => member_row (max_name_length (self st)) (name m)
                         (existing_marks (split (content post) NEWLINE) (name m))
                         (default 0 (streaks (world st) !! discord_id m)))).
  - rewrite (the_post_run _ _ Hpost), (edit_run _ _ _ Hlive). reflexivity.
  - intros x _. by rewrite (the_post_run _ _ Hpost).
Qed.

Lemma rebuilt_text_aligned members strk old :
  members <> [] ->
  aligned members (rebuilt_text members (max_len members) strk old).
Proof.
  intros Hne. unfold rebuilt_text.
  apply (rendered_rows_aligned members
           (fun m => existing_marks (split old NEWLINE) (name m))
           (fun m => default 0 (strk !! discord_id m))); [done|].
  intros m. apply existing_marks_no_newline.
Qed.

Lemma rebuild_post_aligned st :
  width_ok st -> post_is_live st -> team_members (self st) <> [] ->
  exists st',
    rebuild_post st = Ok tt st'
    /\ team_members (self st') = team_members (self st)
    /\ post_aligned st' /\ width_ok st' /\ post_is_live st'.
Proof.
  intros Hw (post & Hpost & Hlive) Hne.
  eexists. split; [by apply rebuild_post_full|]. split; [done|].
  split; [|split; [done|]].
  - eexists. split; [reflexivity|]. cbn. rewrite Hw.
    by apply rebuilt_text_aligned.
  - eexists. split; [reflexivity|]. cbn. rewrite lookup_insert_eq. eauto.
Qed.

Lemma fresh_rows_aligned members (strk : gmap Z Z) :
  members <> [] ->
  aligned members
    (join [NEWLINE]
       (map (fun m => fresh_row (max_len members) m (default 0 (strk !! discord_id m)))
            members)).
Proof.
  intros Hne.
  rewrite (map_ext _ (fun m => member_row (max_len members) (name m)
                                 (replicate 5 QUESTION)
                                 (default 0 (strk !! discord_id m))))
    by (intros m; apply fresh_row_eq).
  apply (rendered_rows_aligned members (fun _ => replicate 5 QUESTION)
           (fun m => default 0 (strk !! discord_id m))); [done|].
  intros _. apply (bool_decide_unpack _). vm_compute. exact I.
Qed.

(** C6: every full render pads each name to the longest name of the
    current roster, so that the marks of all rows start at the same
    column: the constructor sets the width to the longest name; from such
    a state a newly created post of [initialize_post] and a rebuilt post
    of [rebuild_post] are aligned; adding or removing a member recomputes
    the width over the changed roster and the rebuilt post is aligned for
    it. *)
Theorem renders_are_aligned :
  (forall members w, width_ok (state_of (init members w)))
  /\ (forall st,
        width_ok st -> ~ saved_post_is_current st -> team_members (self st) <> [] ->
        exists st',
          initialize_post st = Ok tt st'
          /\ post_aligned st' /\ width_ok st' /\ post_is_live st')
  /\ (forall st,
        width_ok st -> post_is_live st -> team_members (self st) <> [] ->
        exists st',
          rebuild_post st = Ok tt st'
          /\ post_aligned st' /\ width_ok st' /\ post_is_live st')
  /\ (forall st m,
        post_is_live st ->
        exists st',
          add_member_to_post m st = Ok tt st'
          /\ team_members (self st') = team_members (self st) ++ [m]
          /\ post_aligned st' /\ width_ok st' /\ post_is_live st')
  /\ (forall st m,
        post_is_live st ->
        filter (fun m' => discord_id m' ≠ discord_id m) (team_members (self st)) <> [] ->
        exists st',
          remove_member_from_post m st = Ok tt st'
          /\ team_members (self st')
             = filter (fun m' => discord_id m' ≠ discord_id m) (team_members (self st))
          /\ post_aligned st' /\ width_ok st' /\ post_is_live st').
Proof.
  split_and!.
  - intros members w. unfold init, load_weekly_post_data, bind, gets. cbn.
    by destruct (data_file w).
  - intros st Hw Hcur Hne.
    destruct (initialize_post_creates st Hcur Hne)
      as (st' & Hrun & Hpost & Hmsgs & _ & _ & Hmembers & Hwidth).
    exists st'. split; [done|]. split_and!.
    + eexists. split; [exact Hpost|]. rewrite Hmembers. cbn [content].
      unfold width_ok in Hw. rewrite Hw. by apply fresh_rows_aligned.
    + unfold width_ok. by rewrite Hmembers, Hwidth.
    + eexists. split; [exact Hpost|]. rewrite Hmsgs. cbn.
      rewrite lookup_insert_eq. eauto.
  - intros st Hw Hlive Hne.
    destruct (rebuild_post_aligned st Hw Hlive Hne) as (st' & ? & ? & ? & ? & ?).
    by exists st'.
  - intros st m Hlive.
    destruct (rebuild_post_aligned (with_roster st (team_members (self st) ++ [m])))
      as (st' & Hrun & Hmembers & ? & ? & ?);
      [done|done|by destruct (team_members (self st))|].
    exists st'. split; [|done]. exact Hrun.
  - intros st m Hlive Hne.
    destruct (rebuild_post_aligned
                (with_roster st
                   (filter (fun m' => discord_id m' ≠ discord_id m) (team_members (self st)))))
      as (st' & Hrun & Hmembers & ? & ? & ?); [done|done|done|].
    exists st'. split; [|done]. exact Hrun.
Qed.

Lemma renders_are_aligned_witness :
  exists st',
    add_member_to_post chris (state_of alice_full) = Ok tt st'
    /\ team_members (self st') = team_members (self (state_of alice_full)) ++ [chris]
    /\ post_aligned st' /\ width_ok st' /\ post_is_live st'.
Proof.
  apply (proj1 (proj2 (proj2 (proj2 renders_are_aligned))) (state_of alice_full) chris).
  eexists. split; [vm_compute; reflexivity|]. vm_compute. eauto.
Defined.

(** ** Rebuilding twice *)

#[local] Arguments rebuilt_text : simpl never.

Section ReadBack.

Implicit Types (s row head tail marks : str) (c : N).

Lemma index_of_char_None_inv c s : index_of [c] s = None -> c ∉ s.
Proof.
  intros H Hin. apply list_elem_of_split in Hin as (pre & post & ->).
  by apply (index_of_None [c] _ pre post) in H.
Qed.

Lemma slice_five s (i : nat) :
  slice s (Z.of_nat i) (Z.of_nat i + 5) = take 5 (drop i s).
Proof.
  unfold slice, clamp, len.
  destruct (Z.ltb_spec (Z.of_nat i) 0) as [?|_]; [lia|].
  destruct (Z.ltb_spec (Z.of_nat i + 5) 0) as [?|_]; [lia|].
  destruct (decide (i <= length s)%nat) as [Hi|Hi].
  - replace (Z.to_nat (Z.min (Z.of_nat i) (Z.of_nat (length s)))) with i by lia.
    destruct (decide (i + 5 <= length s)%nat) as [Hj|Hj].
    + replace (Z.to_nat (Z.min (Z.of_nat i + 5) (Z.of_nat (length s))) - i)%nat
        with 5%nat by lia.
      reflexivity.
    + replace (Z.to_nat (Z.min (Z.of_nat i + 5) (Z.of_nat (length s))) - i)%nat
        with (length (drop i s)) by (rewrite length_drop; lia).
      rewrite firstn_all. symmetry. apply take_ge. rewrite length_drop. lia.
  - replace (Z.to_nat (Z.min (Z.of_nat i) (Z.of_nat (length s)))) with (length s) by lia.
    rewrite !drop_ge by lia. by rewrite !take_nil.
Qed.

Lemma index_of_char_Some c s i :
  index_of [c] s = Some i ->
  exists pre post, s = pre ++ c :: post /\ (c ∉ pre) /\ length pre = i.
Proof.
  revert i. induction s as [|x s IH]; intros i; cbn; [done|].
  destruct (N.eqb_spec c x) as [<-|Hx]; cbn.
  - intros [= <-]. exists [], s. split; [done|]. split; [apply not_elem_of_nil|done].
  - destruct (index_of [c] s) as [j|]; [|done]. intros [= <-].
    destruct (IH j eq_refl) as (pre & post & -> & Hpre & <-).
    exists (x :: pre), post. split; [done|]. split; [|done].
    apply not_elem_of_cons. by split.
Qed.

(** Reading five characters at the first occurrence of a mark. *)
Lemma slice_at_find c s :
  find s [c] <> -1 ->
  exists pre post,
    s = pre ++ c :: post /\ (c ∉ pre)
    /\ slice s (find s [c]) (find s [c] + 5) = take 5 (c :: post).
Proof.
  unfold find. destruct (index_of [c] s) as [i|] eqn:E; [|done]. intros _.
  destruct (index_of_char_Some _ _ _ E) as (pre & post & -> & Hpre & <-).
  exists pre, post. split; [done|]. split; [done|].
  rewrite slice_five. by rewrite drop_app_length.
Qed.

(** The marks read back for a member start with a done mark, or hold no
    done mark and start with a pending one, whenever five characters were
    read. *)
Lemma existing_marks_shape lines nm :
  length (existing_marks lines nm) = 5%nat ->
  (exists rest, existing_marks lines nm = CHECK :: rest)
  \/ ((CHECK ∉ existing_marks lines nm)
      /\ exists rest, existing_marks lines nm = QUESTION :: rest).
Proof.
  assert (Hdefault : (CHECK ∉ replicate 5 QUESTION)
                      /\ exists rest, replicate 5 QUESTION = QUESTION :: rest).
  { split; [apply (bool_decide_unpack _); vm_compute; exact I|]. by eexists. }
  unfold existing_marks.
  destruct (member_line lines nm) as [[|x line]|]; [by right| |by right].
  cbv zeta.
  destruct (Z.eqb_spec (find (x :: line) [CHECK]) (-1)) as [Hc|Hc]; cbn [negb].
  - destruct (Z.eqb_spec (find (x :: line) [QUESTION]) (-1)) as [Hq|Hq]; cbn [negb];
      [by right|].
    intros Hlen. right.
    destruct (slice_at_find _ _ Hq) as (pre & post & Hline & _ & Hslice).
    split.
    + intros Hin%slice_subseteq.
      apply find_None_iff, index_of_char_None_inv in Hc. done.
    + rewrite Hslice. cbn. eauto.
  - intros Hlen. left.
    destruct (slice_at_find _ _ Hc) as (pre & post & Hline & _ & Hslice).
    rewrite Hslice. cbn. eauto.
Qed.

(** Reading the marks back from a rendered row gives the marks it was
    rendered with. *)
Lemma read_back_row head marks tail :
  CHECK ∉ head -> QUESTION ∉ head -> CHECK ∉ tail ->
  length marks = 5%nat ->
  (exists rest, marks = CHECK :: rest)
  \/ ((CHECK ∉ marks) /\ exists rest, marks = QUESTION :: rest) ->
  let row := head ++ marks ++ tail in
  (if negb (find row [CHECK] =? -1)
   then slice row (find row [CHECK]) (find row [CHECK] + 5)
   else if negb (find row [QUESTION] =? -1)
   then slice row (find row [QUESTION]) (find row [QUESTION] + 5)
   else replicate 5 QUESTION) = marks.
Proof.
  intros Hch Hqh Hct Hlen Hshape row.
  assert (Hread : forall c rest, c ∉ head -> marks = c :: rest ->
            find row [c] = len head
            /\ slice row (len head) (len head + 5) = marks).
  { intros c rest Hc Hm. subst row. split.
    - rewrite Hm. cbn [app]. by apply find_char.
    - unfold len. rewrite slice_five, drop_app_length.
      by rewrite take_app_length'. }
  destruct Hshape as [[rest Hm]|[Hcm [rest Hm]]].
  - destruct (Hread _ _ Hch Hm) as [-> ->].
    destruct (Z.eqb_spec (len head) (-1)) as [E|_]; [unfold len in E; lia|done].
  - rewrite (find_char_None CHECK row).
    + cbn [Z.eqb negb]. destruct (Hread _ _ Hqh Hm) as [-> ->].
      destruct (Z.eqb_spec (len head) (-1)) as [E|_]; [unfold len in E; lia|done].
    + subst row. rewrite !not_elem_of_app. done.
Qed.

End ReadBack.

Lemma row_chars_no_marks : (CHECK ∉ row_chars) /\ (QUESTION ∉ row_chars).
Proof. split; apply (bool_decide_unpack _); vm_compute; exact I. Qed.

Lemma row_head_chars w nm c : c ∈ row_head w nm -> c ∈ nm \/ c ∈ row_chars.
Proof.
  intros H. destruct (member_row_chars w nm [] 0 c) as [?|[Hn|?]]; auto.
  - unfold member_row. rewrite !elem_of_app. unfold row_head in H.
    rewrite !elem_of_app in H. tauto.
  - by apply elem_of_nil in Hn.
Qed.

Lemma row_tail_chars streak c : c ∈ row_tail [] streak -> c ∈ row_chars.
Proof.
  intros H. destruct (member_row_chars 0 [] [] streak c) as [Hn|[Hn|?]]; auto.
  - unfold member_row. unfold row_tail in H. rewrite !elem_of_app in *. tauto.
  - by apply elem_of_nil in Hn.
  - by apply elem_of_nil in Hn.
Qed.

Lemma member_row_split w nm marks streak :
  member_row w nm marks streak = row_head w nm ++ marks ++ row_tail [] streak.
Proof. unfold member_row, row_head, row_tail. by rewrite <- !app_assoc. Qed.

(** The marks read back from the own row of a member. *)
Lemma existing_marks_own_row lines w nm marks streak :
  member_line lines nm = Some (member_row w nm marks streak) ->
  CHECK ∉ nm -> QUESTION ∉ nm ->
  length marks = 5%nat ->
  (exists rest, marks = CHECK :: rest)
  \/ ((CHECK ∉ marks) /\ exists rest, marks = QUESTION :: rest) ->
  existing_marks lines nm = marks.
Proof.
  intros Hline Hc Hq Hlen Hshape. destruct row_chars_no_marks as [Hrc Hrq].
  unfold existing_marks. rewrite Hline.
  assert (Hrow : member_row w nm marks streak = 35%N :: drop 1 (member_row w nm marks streak))
    by reflexivity.
  rewrite Hrow at 1. rewrite member_row_split. cbv zeta.
  apply read_back_row; try done.
  - by intros [?|?]%row_head_chars.
  - by intros [?|?]%row_head_chars.
  - by intros ?%row_tail_chars.
Qed.

Lemma find_skip {A} (f : A -> bool) (l1 l2 : list A) :
  Forall (fun x => f x = false) l1 -> List.find f (l1 ++ l2) = List.find f l2.
Proof.
  induction 1 as [|x l1 Hx _ IH]; [done|]. cbn. by rewrite Hx.
Qed.

Lemma member_row_contains_name w nm marks streak :
  contains (member_row w nm marks streak) nm = true.
Proof.
  apply contains_true. exists (lit "# `"). eexists.
  unfold member_row, ljust. rewrite <- !app_assoc. reflexivity.
Qed.

(** When no row holds the name of a later member, every name is first
    found in its own row. *)
Lemma member_line_own_row (row : TeamMember -> str) before members :
  (forall m, contains (row m) (name m) = true) ->
  Forall (fun m => Forall (fun p => contains (row p) (name m) = false) before)
    members ->
  no_name_in_earlier_row row members ->
  Forall (fun m => member_line (map row (before ++ members)) (name m) = Some (row m))
    members.
Proof.
  intros Hown. revert before.
  induction members as [|m later IH]; intros before Hbefore Hlater; [done|].
  apply Forall_cons in Hbefore as [Hm Hbefore]. destruct Hlater as [Hhead Hlater].
  constructor.
  - unfold member_line. rewrite map_app.
    rewrite find_skip by (by apply Forall_map). cbn. by rewrite Hown.
  - replace (before ++ m :: later) with ((before ++ [m]) ++ later)
      by (by rewrite <- app_assoc).
    apply IH; [|done].
    apply Forall_forall. intros m' Hm'. apply Forall_app. split.
    + rewrite Forall_forall in Hbefore. by apply Hbefore.
    + constructor; [|done]. rewrite Forall_forall in Hhead. by apply Hhead.
Qed.

Lemma rebuilt_text_own_rows members w strk old :
  members <> [] ->
  no_newline members ->
  no_name_in_earlier_row (rebuilt_row w strk old) members ->
  names_find_own_rows members (rebuilt_row w strk old)
    (rebuilt_text members w strk old).
Proof.
  intros Hne Hnl Hrows. unfold names_find_own_rows, rebuilt_text.
  fold (rebuilt_row w strk old). rewrite split_join.
  - apply (member_line_own_row _ []); [|by apply Forall_forall|done].
    intros m. apply member_row_contains_name.
  - by destruct members.
  - apply Forall_map. eapply Forall_impl; [exact Hnl|]. intros m Hm. cbn.
    apply member_row_no_newline; [done|apply existing_marks_no_newline].
Qed.

Lemma rebuilt_text_fixed members w strk old :
  names_without_marks members ->
  full_marks members old ->
  names_find_own_rows members (rebuilt_row w strk old)
    (rebuilt_text members w strk old) ->
  rebuilt_text members w strk (rebuilt_text members w strk old)
  = rebuilt_text members w strk old.
Proof.
  intros Hnames Hfull Hown. unfold rebuilt_text at 1 3. f_equal.
  apply map_ext_in. intros m Hm%list_elem_of_In. f_equal.
  unfold names_without_marks, full_marks, names_find_own_rows in *.
  rewrite Forall_forall in Hnames, Hfull, Hown.
  destruct (Hnames m Hm) as [Hc Hq].
  apply (existing_marks_own_row _ w _ _ (default 0 (strk !! discord_id m)));
    [by apply Hown|done|done|by apply Hfull|].
  by apply existing_marks_shape, Hfull.
Qed.

(** C4 fails on the code: for the roster Alice, Bob without a live post,
    the first [rebuild_post] creates a post with Alice's line only and the
    second one rewrites it with both lines. *)
Lemma rebuild_post_twice_differs :
  returned first_rebuild = true
  /\ returned second_rebuild = true
  /\ post_lines (state_of first_rebuild) = [member_row 5 (lit "Alice") pending5 0]
  /\ post_lines (state_of second_rebuild)
     = [member_row 5 (lit "Alice") pending5 0; member_row 5 (lit "Bob") pending5 0]
  /\ editable_weekly_post (self (state_of first_rebuild))
     <> editable_weekly_post (self (state_of second_rebuild)).
Proof.
  split_and!; try (vm_compute; reflexivity).
  intros H. vm_compute in H. discriminate.
Qed.

(** C4, as the code has it: with a live post and a non-empty roster whose
    names hold no line break and no mark character, if five characters are
    read back as marks for every member and no rebuilt row holds the name
    of a member listed after it, then a second [rebuild_post] reproduces
    the first one's content byte for byte and changes nothing. *)
Theorem rebuild_post_idempotent st post :
  editable_weekly_post (self st) = Some post ->
  is_Some (messages (channel (world st)) !! msg_id post) ->
  team_members (self st) <> [] ->
  no_newline (team_members (self st)) ->
  names_without_marks (team_members (self st)) ->
  full_marks (team_members (self st)) (content post) ->
  no_name_in_earlier_row
    (rebuilt_row (max_name_length (self st)) (streaks (world st)) (content post))
    (team_members (self st)) ->
  exists st1 st2 post1 post2,
    rebuild_post st = Ok tt st1
    /\ rebuild_post st1 = Ok tt st2
    /\ editable_weekly_post (self st1) = Some post1
    /\ editable_weekly_post (self st2) = Some post2
    /\ content post2 = content post1
    /\ st2 = st1.
Proof.
  intros Hpost Hlive Hne Hnl Hnames Hfull Hrows.
  pose proof (rebuilt_text_own_rows _ _ _ _ Hne Hnl Hrows) as Hown.
  pose proof (rebuild_post_full st post Hne Hpost Hlive) as Hrun1.
  pose proof (rebuilt_text_fixed _ _ _ _ Hnames Hfull Hown) as Hfix.
  remember (rebuilt_text (team_members (self st)) (max_name_length (self st))
              (streaks (world st)) (content post)) as text1 eqn:Etext.
  assert (Hrun2 : rebuild_post (with_post_text st post text1)
                  = Ok tt (with_post_text st post text1)).
  { rewrite (rebuild_post_full _ {| msg_id := msg_id post; content := text1 |});
      [|done|done|cbn; rewrite lookup_insert_eq; eauto].
    cbn. rewrite Hfix. unfold with_post_text. cbn. by rewrite insert_insert_eq. }
  exists (with_post_text st post text1), (with_post_text st post text1),
    {| msg_id := msg_id post; content := text1 |},
    {| msg_id := msg_id post; content := text1 |}.
  done.
Qed.

Lemma rebuild_post_idempotent_witness :
  exists st1 st2 post1 post2,
    rebuild_post (state_of alice_full) = Ok tt st1
    /\ rebuild_post st1 = Ok tt st2
    /\ editable_weekly_post (self st1) = Some post1
    /\ editable_weekly_post (self st2) = Some post2
    /\ content post2 = content post1
    /\ st2 = st1.
Proof.
  apply (rebuild_post_idempotent (state_of alice_full)
           {| msg_id := 102;
              content := join [NEWLINE]
                [member_row 5 (lit "Alice") done5 5;
                 member_row 5 (lit "Bob") pending5 0] |}).
  - vm_compute; reflexivity.
  - vm_compute. eauto.
  - vm_compute. discriminate.
  - apply (bool_decide_unpack _). vm_compute. exact I.
  - apply (bool_decide_unpack _). vm_compute. exact I.
  - apply (bool_decide_unpack _). vm_compute. exact I.
  - vm_compute. split_and!; [|constructor|exact I].
    constructor; [vm_compute; reflexivity|constructor].
Defined.

(** ** Closing the week: [reset_streaks] *)

#[local] Arguments meets_minimum : simpl never.

Lemma has_minimum_checkmarks_run st post m n :
  editable_weekly_post (self st) = Some post ->
  has_minimum_checkmarks m n st
  = Ok (meets_minimum (content post) (max_name_length (self st)) (name m) n) st.
Proof.
  intros Hpost. unfold has_minimum_checkmarks, bind, gets.
  rewrite (the_post_run _ _ Hpost). unfold meets_minimum. cbv zeta.
  by destruct (find (content post) (name m) =? -1).
Qed.

Lemma update_streak_db_run i v st :
  update_streak_db i v st
  = Ok tt {| self := self st;
             world := {| channel := channel (world st);
                         data_file := data_file (world st);
                         streaks := <[i := v]> (streaks (world st));
                         clock_now := clock_now (world st);
                         clock_utcnow := clock_utcnow (world st) |} |}.
Proof. reflexivity. Qed.

Lemma reset_loop me post members w :
  editable_weekly_post me = Some post ->
  for_each members (fun member =>
    let! ok := has_minimum_checkmarks member 5 in
    if negb ok then update_streak_db (discord_id member) 0 else ret tt)
    {| self := me; world := w |}
  = Ok tt {| self := me;
             world := {| channel := channel w;
                         data_file := data_file w;
                         streaks := reset_table (content post) (max_name_length me)
                                      members (streaks w);
                         clock_now := clock_now w;
                         clock_utcnow := clock_utcnow w |} |}.
Proof.
  intros Hpost.
  set (body := fun member : TeamMember => bind _ _).
  revert w. induction members as [|m members IH]; intros w.
  - by destruct w.
  - cbn [for_each]. unfold bind at 1. unfold body at 1. unfold bind at 1.
    rewrite (has_minimum_checkmarks_run _ post) by done.
    unfold reset_table. cbn [foldl self max_name_length].
    destruct (meets_minimum (content post) (max_name_length me) (name m) 5);
      cbn [negb].
    + unfold ret. apply IH.
    + rewrite update_streak_db_run. cbn [self world channel data_file streaks
        clock_now clock_utcnow]. rewrite IH. reflexivity.
Qed.

Lemma reset_streaks_run st post :
  editable_weekly_post (self st) = Some post ->
  reset_streaks st
  = Ok tt {| self := self st;
             world := {| channel := channel (world st);
                         data_file := data_file (world st);
                         streaks := reset_table (content post) (max_name_length (self st))
                                      (team_members (self st)) (streaks (world st));
                         clock_now := clock_now (world st);
                         clock_utcnow := clock_utcnow (world st) |} |}.
Proof.
  intros Hpost. unfold reset_streaks. unfold bind at 1. unfold gets.
  destruct st as [me w]. cbn [self world] in *. by apply reset_loop.
Qed.

Lemma reset_table_meets text w members strk i :
  Forall (fun m => discord_id m = i -> meets_minimum text w (name m) 5 = true) members ->
  reset_table text w members strk !! i = strk !! i.
Proof.
  unfold reset_table. revert strk.
  induction members as [|m members IH]; intros strk Hall; [done|].
  apply Forall_cons in Hall as [Hm Hall]. cbn.
  destruct (meets_minimum text w (name m) 5) eqn:E; [by apply IH|].
  rewrite IH by done. apply lookup_insert_ne. intros Hi.
  specialize (Hm Hi). congruence.
Qed.

Lemma reset_table_fails text w members strk m :
  m ∈ members -> meets_minimum text w (name m) 5 = false ->
  reset_table text w members strk !! discord_id m = Some 0.
Proof.
  unfold reset_table. revert strk.
  induction members as [|m' members IH]; intros strk Hin Hm;
    [by apply elem_of_nil in Hin|].
  cbn. apply elem_of_cons in Hin as [<-|Hin]; [|by apply IH].
  rewrite Hm. clear IH.
  assert (Hkeep : forall acc : gmap Z Z, acc !! discord_id m = Some 0 ->
            foldl (fun (acc : gmap Z Z) m0 =>
                     if meets_minimum text w (name m0) 5 then acc
                     else <[discord_id m0 := 0]> acc) acc members
            !! discord_id m = Some 0).
  { induction members as [|m0 members IH]; intros acc Hacc; [done|]. cbn.
    apply IH. destruct (meets_minimum text w (name m0) 5); [done|].
    destruct (decide (discord_id m0 = discord_id m)) as [->|Hne].
    - apply lookup_insert_eq.
    - by rewrite lookup_insert_ne. }
  apply Hkeep, lookup_insert_eq.
Qed.

(** [reset_streaks] sets the stored streak to 0 for every roster member for
    whom [has_minimum_checkmarks(member, 5)] is false, keeps the stored
    streak of every id all of whose roster members meet the minimum, and
    changes nothing else. *)
Theorem reset_streaks_resets_failing_members st post :
  editable_weekly_post (self st) = Some post ->
  exists st',
    reset_streaks st = Ok tt st'
    /\ self st' = self st
    /\ channel (world st') = channel (world st)
    /\ data_file (world st') = data_file (world st)
    /\ (forall m,
          m ∈ team_members (self st) ->
          has_minimum_checkmarks m 5 st = Ok false st ->
          streaks (world st') !! discord_id m = Some 0)
    /\ (forall i,
          (forall m, m ∈ team_members (self st) -> discord_id m = i ->
                     has_minimum_checkmarks m 5 st = Ok true st) ->
          streaks (world st') !! i = streaks (world st) !! i).
Proof.
  intros Hpost. eexists. split; [by apply reset_streaks_run|]. cbn.
  split_and!; try done.
  - intros m Hin Hm. rewrite (has_minimum_checkmarks_run _ post) in Hm by done.
    injection Hm as Hm. by apply reset_table_fails.
  - intros i Hall. apply reset_table_meets, Forall_forall.
    intros m Hin Hi. specialize (Hall m Hin Hi).
    rewrite (has_minimum_checkmarks_run _ post) in Hall by done.
    by injection Hall.
Qed.

(** The scenario of the spec: with Alice at five done marks and Bob at
    three, closing the week resets Bob's streak and keeps Alice's. *)
Lemma reset_streaks_alice_full_bob_thrice :
  post_lines (state_of alice_full_bob_thrice)
  = [member_row 5 (lit "Alice") done5 5;
     member_row 5 (lit "Bob") [CHECK; CHECK; CHECK; QUESTION; QUESTION] 3]
  /\ exists st',
       reset_streaks (state_of alice_full_bob_thrice) = Ok tt st'
       /\ streaks (world st') !! discord_id bob = Some 0
       /\ streaks (world st') !! discord_id alice = Some 5.
Proof.
  split; [vm_compute; reflexivity|].
  destruct (reset_streaks_resets_failing_members (state_of alice_full_bob_thrice)
              {| msg_id := 102;
                 content := join [NEWLINE]
                   [member_row 5 (lit "Alice") done5 5;
                    member_row 5 (lit "Bob") [CHECK; CHECK; CHECK; QUESTION; QUESTION] 3] |})
    as (st' & Hrun & _ & _ & _ & Hreset & Hkeep); [vm_compute; reflexivity|].
  assert (Hroster : team_members (self (state_of alice_full_bob_thrice)) = [alice; bob])
    by (vm_compute; reflexivity).
  rewrite Hroster in Hreset, Hkeep.
  exists st'. split; [exact Hrun|]. split.
  - apply (Hreset bob); [by right; left|vm_compute; reflexivity].
  - rewrite (Hkeep (discord_id alice)); [vm_compute; reflexivity|].
    intros m [->|[->|[]%elem_of_nil]%elem_of_cons]%elem_of_cons Hid.
    + vm_compute. reflexivity.
    + vm_compute in Hid. discriminate.
Defined.

(** C7, a second input: a member whose name has a space.  Each check-in
    repeats the rest of the name in the row, so after five check-ins the
    five done marks lie beyond the column [has_minimum_checkmarks] reads,
    and closing the week resets the streak of 5 to 0. *)
Lemma reset_streaks_after_name_with_space :
  returned al_smith_full = true
  /\ post_lines (state_of al_smith_full)
     = [lit "# `Al Smith Smith Smith Smith Smith Smith " ++ done5
          ++ lit " (Streak: 5 days)`"]
  /\ streaks (world (state_of al_smith_full)) !! discord_id al_smith = Some 5
  /\ returned (and_then al_smith_full reset_streaks) = true
  /\ streaks (world (state_of (and_then al_smith_full reset_streaks)))
       !! discord_id al_smith = Some 0.
Proof. split_and!; vm_compute; reflexivity. Qed.

(** ** Scenarios of the spec *)

(** Roster Alice, Bob: the initial render has two rows of five pending
    marks with "(Streak: 0 days)"; after one check-in of Alice, whose
    streak the caller raised to 1, her row reads one done mark and
    "(Streak: 1 day)" and Bob's row is unchanged. *)
Lemma scenario_first_checkin :
  post_lines (state_of alice_bob_start)
  = [lit "# `Alice " ++ pending5 ++ lit " (Streak: 0 days)`";
     lit "# `Bob   " ++ pending5 ++ lit " (Streak: 0 days)`"]
  /\ returned alice_once = true
  /\ post_lines (state_of alice_once)
     = [lit "# `Alice " ++ [CHECK; QUESTION; QUESTION; QUESTION; QUESTION]
          ++ lit " (Streak: 1 day)`";
        lit "# `Bob   " ++ pending5 ++ lit " (Streak: 0 days)`"].
Proof. split_and!; vm_compute; reflexivity. Qed.

(** Adding a member with a longer name than all others pads every row to
    the new width and keeps the marks of every member. *)
Lemma scenario_longer_name_joins :
  returned chris_joined = true
  /\ post_lines (state_of chris_joined)
     = [lit "# `Alice       " ++ done5 ++ lit " (Streak: 5 days)`";
        lit "# `Bob         " ++ [CHECK; CHECK; CHECK; QUESTION; QUESTION]
          ++ lit " (Streak: 3 days)`";
        lit "# `Christopher " ++ pending5 ++ lit " (Streak: 0 days)`"].
Proof. split_and!; vm_compute; reflexivity. Qed.

(** ** More on [strip], [replace] and slices *)

#[local] Arguments strip : simpl nomatch.
#[local] Arguments replace : simpl nomatch.
#[local] Arguments slice_from : simpl nomatch.
#[local] Arguments slice_to : simpl nomatch.

Section Trimming.

Implicit Types (s old new p q : str) (c x y : N).

Lemma lstrip_spaces a s : lstrip (replicate a SPACE ++ s) = lstrip s.
Proof. induction a as [|a IH]; [done|]. cbn. exact IH. Qed.

Lemma lstrip_head x s : is_space x = false -> lstrip (x :: s) = x :: s.
Proof. intros H. cbn. by rewrite H. Qed.

(** [strip] removes the spaces around a string that neither starts nor
    ends with a whitespace character. *)
Lemma strip_padded a b s x y :
  head s = Some x -> last s = Some y ->
  is_space x = false -> is_space y = false ->
  strip (replicate a SPACE ++ s ++ replicate b SPACE) = s.
Proof.
  intros Hx Hy Hsx Hsy. unfold strip, rstrip.
  destruct s as [|x' s']; [done|]. injection Hx as ->.
  rewrite lstrip_spaces. cbn [app]. rewrite lstrip_head by done.
  change (x :: s' ++ replicate b SPACE) with ((x :: s') ++ replicate b SPACE).
  rewrite reverse_app, reverse_replicate, lstrip_spaces.
  apply last_Some in Hy as [l' Hl']. rewrite Hl', reverse_snoc.
  rewrite lstrip_head by done. by rewrite <- reverse_snoc, reverse_involutive.
Qed.

Lemma replace_go_erase_char c s :
  replace_go [c] [] 0 s = filter (fun x => x ≠ c) s.
Proof.
  induction s as [|x s IH]; [done|].
  cbn [replace_go starts_with length Nat.sub].
  destruct (N.eqb_spec c x) as [<-|Hx]; cbn [andb app].
  - rewrite filter_cons_False by (intros H; by apply H). exact IH.
  - rewrite filter_cons_True by done. by rewrite IH.
Qed.

Lemma filter_keep c s : c ∉ s -> filter (fun x => x ≠ c) s = s.
Proof.
  induction s as [|x s IH]; [done|]. intros [Hx Hs]%not_elem_of_cons.
  rewrite filter_cons_True by done. by rewrite IH.
Qed.

(** Erasing a character that only stands in front. *)
Lemma replace_erase_first c s : c ∉ s -> replace (c :: s) [c] [] = s.
Proof.
  intros Hc. unfold replace. rewrite replace_go_erase_char.
  rewrite filter_cons_False by (intros H; by apply H). by apply filter_keep.
Qed.

Lemma replace_go_none old new s :
  index_of old s = None -> replace_go old new 0 s = s.
Proof.
  induction s as [|x s IH]; [done|]. cbn.
  destruct (starts_with old (x :: s)); [done|].
  destruct (index_of old s); [done|]. intros _. by rewrite IH.
Qed.

Lemma replace_none s old new :
  old <> [] -> contains s old = false -> replace s old new = s.
Proof.
  intros Hold Hc. destruct old as [|c old]; [done|]. unfold replace.
  apply replace_go_none. unfold contains in Hc.
  by destruct (index_of (c :: old) s).
Qed.

Lemma replace_go_skip old new s : replace_go old new (length s) s = [].
Proof. induction s as [|x s IH]; [done|]. cbn. exact IH. Qed.

Lemma starts_with_length p s : starts_with p s = true -> (length p <= length s)%nat.
Proof.
  intros [r ->]%starts_with_inv. rewrite length_app. lia.
Qed.

(** A string without line break matches at a place of a line exactly when
    it matches there in the text the line is part of. *)
Lemma starts_with_line old s rest :
  NEWLINE ∉ old -> starts_with old (s ++ NEWLINE :: rest) = starts_with old s.
Proof.
  revert s. induction old as [|c old IH]; intros s Hnl; [by destruct s|].
  apply not_elem_of_cons in Hnl as [Hc Hold].
  destruct s as [|x s]; cbn.
  - destruct (N.eqb_spec c NEWLINE) as [E|_]; [by symmetry in E|done].
  - by rewrite IH.
Qed.

Lemma replace_go_line old new k s rest :
  old <> [] -> NEWLINE ∉ old -> (k <= length s)%nat ->
  replace_go old new k (s ++ NEWLINE :: rest)
  = replace_go old new k s ++ NEWLINE :: replace_go old new 0 rest.
Proof.
  intros Hold Hnl. revert k. induction s as [|x s IH]; intros k Hk.
  - assert (k = 0%nat) as -> by (cbn in Hk; lia). cbn [app].
    pose proof (starts_with_line old [] rest Hnl) as Hsw. cbn [app] in Hsw.
    cbn [replace_go]. rewrite Hsw. destruct old; [done|]. reflexivity.
  - cbn [app replace_go]. destruct k as [|k].
    + pose proof (starts_with_line old (x :: s) rest Hnl) as Hsw.
      cbn [app] in Hsw. rewrite Hsw.
      destruct (starts_with old (x :: s)) eqn:E.
      * apply starts_with_length in E. cbn in E.
        rewrite IH by lia. by rewrite <- app_assoc.
      * rewrite IH by lia. reflexivity.
    + apply IH. cbn in Hk. lia.
Qed.

(** Replacing a string without line break works line by line. *)
Lemma replace_join old new lines :
  old <> [] -> NEWLINE ∉ old ->
  replace (join [NEWLINE] lines) old new
  = join [NEWLINE] (map (fun line => replace line old new) lines).
Proof.
  intros Hold Hnl. destruct old as [|c old]; [done|]. unfold replace.
  induction lines as [|l ls IH]; [done|].
  destruct ls as [|l' ls]; [done|].
  cbn [map].
  rewrite (join_cons _ l), (join_cons _ (replace_go _ _ _ l)) by done.
  cbn [app]. rewrite replace_go_line by (done || lia). by rewrite IH.
Qed.

(** A string that only occurs at the end, after two other characters. *)
Lemma replace_after_two a b old new :
  old <> [] -> head old ≠ Some a -> head old ≠ Some b ->
  replace (a :: b :: old) old new = a :: b :: new.
Proof.
  intros Hold Ha Hb. destruct old as [|c old]; [done|]. unfold replace.
  cbn in Ha, Hb. cbn [replace_go starts_with].
  destruct (N.eqb_spec c a) as [->|_]; [done|].
  destruct (N.eqb_spec c b) as [->|_]; [done|]. cbn [andb].
  rewrite N.eqb_refl. cbn [andb].
  assert (Hself : starts_with old old = true).
  { rewrite <- (app_nil_r old) at 2. apply starts_with_app. }
  rewrite Hself. cbn [length Nat.sub]. rewrite ?Nat.sub_0_r, replace_go_skip.
  by rewrite app_nil_r.
Qed.

Lemma contains_trans s t u :
  contains s t = true -> contains t u = true -> contains s u = true.
Proof.
  intros (a & b & ->)%contains_true (a' & b' & ->)%contains_true.
  apply contains_true. exists (a ++ a'), (b' ++ b). by rewrite <- !app_assoc.
Qed.

Lemma slice_from_app p q : slice_from (p ++ q) (len p) = q.
Proof.
  unfold slice_from, clamp, len.
  destruct (Z.ltb_spec (Z.of_nat (length p)) 0) as [?|_]; [lia|].
  rewrite length_app.
  replace (Z.to_nat (Z.min _ _)) with (length p) by lia.
  apply drop_app_length.
Qed.

Lemma slice_to_app p q : slice_to (p ++ q) (len p) = p.
Proof.
  unfold slice_to, clamp, len.
  destruct (Z.ltb_spec (Z.of_nat (length p)) 0) as [?|_]; [lia|].
  rewrite length_app.
  replace (Z.to_nat (Z.min _ _)) with (length p) by lia.
  apply take_app_length.
Qed.

End Trimming.

(** ** A check-in on a board of plain rows *)

#[local] Arguments row_body : simpl never.
#[local] Arguments streak_note : simpl never.
#[local] Arguments entry_row : simpl never.
#[local] Arguments board_text : simpl never.

Section Backticks.

Implicit Types (s t u v p q : str) (c : N).

Lemma count_app s t c : count (s ++ t) c = (count s c + count t c)%nat.
Proof. unfold count. by rewrite filter_app, length_app. Qed.

Lemma count_cons_eq s c : count (c :: s) c = S (count s c).
Proof. unfold count. by rewrite filter_cons_True. Qed.

Lemma count_not_elem s c : c ∉ s -> count s c = 0%nat.
Proof.
  unfold count. induction s as [|x s IH]; [done|].
  intros [Hx Hs]%not_elem_of_cons.
  rewrite filter_cons_False by (intros ->; done). by apply IH.
Qed.

Lemma count_zero s c : count s c = 0%nat -> c ∉ s.
Proof.
  unfold count. induction s as [|x s IH]; [intros _; apply not_elem_of_nil|].
  destruct (decide (x = c)) as [->|Hx].
  - by rewrite filter_cons_True.
  - rewrite filter_cons_False by done. intros H.
    apply not_elem_of_cons. split; [done|by apply IH].
Qed.

(** A string splits in one way only at the first occurrence of [c]. *)
Lemma first_split_unique c u v u' v' :
  c ∉ u -> c ∉ u' -> u ++ c :: v = u' ++ c :: v' -> u = u' /\ v = v'.
Proof.
  revert u'. induction u as [|x u IH]; intros u' Hu Hu' H.
  - destruct u' as [|y u']; [by injection H|].
    injection H as -> _. by apply not_elem_of_cons in Hu' as [? _].
  - destruct u' as [|y u'].
    + injection H as -> _. by apply not_elem_of_cons in Hu as [? _].
    + injection H as -> H.
      apply not_elem_of_cons in Hu as [_ Hu].
      apply not_elem_of_cons in Hu' as [_ Hu'].
      destruct (IH u' Hu Hu' H) as [-> ->]. done.
Qed.

(** A row holds the text between backticks of another row only when the
    two are the same. *)
Lemma body_unique (A B p q : str) :
  BACKTICK ∉ A -> BACKTICK ∉ B ->
  lit "# `" ++ B ++ [BACKTICK] = p ++ (BACKTICK :: A ++ [BACKTICK]) ++ q ->
  A = B.
Proof.
  intros HA HB H.
  assert (Hcount : (count p BACKTICK + count q BACKTICK = 0)%nat).
  { apply (f_equal (fun s => count s BACKTICK)) in H.
    rewrite !count_app in H.
    change (BACKTICK :: A ++ [BACKTICK]) with ([BACKTICK] ++ A ++ [BACKTICK]) in H.
    rewrite !count_app, (count_not_elem A), (count_not_elem B) in H by done.
    change (count (lit "# `") BACKTICK) with 1%nat in H.
    change (count [BACKTICK] BACKTICK) with 1%nat in H. lia. }
  assert (Hp : BACKTICK ∉ p) by (apply count_zero; lia).
  assert (Hq : BACKTICK ∉ q) by (apply count_zero; lia).
  change (lit "# `" ++ B ++ [BACKTICK])
    with (lit "# " ++ BACKTICK :: (B ++ [BACKTICK])) in H.
  cbn [app] in H.
  apply first_split_unique in H as [_ H];
    [|apply (bool_decide_unpack _); vm_compute; exact I|done].
  rewrite <- app_assoc in H. cbn [app] in H.
  apply first_split_unique in H as [H _]; done.
Qed.

End Backticks.

Section Rows.

Implicit Types (nm ms : str) (w : nat) (streak : Z) (c : N).

Lemma member_row_body w nm ms streak :
  member_row w nm ms streak
  = HASH :: SPACE :: BACKTICK :: row_body w nm ms streak ++ [BACKTICK].
Proof.
  unfold member_row, row_body, streak_note. rewrite <- !app_assoc. reflexivity.
Qed.

Lemma streak_note_chars streak : streak_note streak ⊆ note_chars.
Proof.
  assert (Hd : lit "0123456789" ⊆ note_chars)
    by (apply (bool_decide_unpack _); vm_compute; exact I).
  assert (Hint : str_of_int streak ⊆ note_chars).
  { unfold str_of_int. destruct (Z.to_int streak) as [u|u].
    - etrans; [apply str_of_uint_digits|done].
    - intros y [->|Hy]%elem_of_cons.
      + apply (bool_decide_unpack _). vm_compute. exact I.
      + by apply Hd, (str_of_uint_digits u). }
  unfold streak_note, day_suffix. intros c. rewrite !elem_of_app.
  intros [H|[H|[H|[H|H]]]]; [| by apply Hint | | |]; revert c H.
  - change (lit "(Streak: " ⊆ note_chars).
    apply (bool_decide_unpack _). vm_compute. exact I.
  - change (lit " " ⊆ note_chars).
    apply (bool_decide_unpack _). vm_compute. exact I.
  - change ((if streak =? 1 then lit "day" else lit "days") ⊆ note_chars).
    destruct (streak =? 1); apply (bool_decide_unpack _); vm_compute; exact I.
  - change (lit ")" ⊆ note_chars).
    apply (bool_decide_unpack _). vm_compute. exact I.
Qed.

Lemma mark_seq_chars ms c : mark_seq ms -> c ∈ ms -> c = CHECK \/ c = QUESTION.
Proof. unfold mark_seq. rewrite Forall_forall. auto. Qed.

Lemma row_body_chars w nm ms streak c :
  c ∈ row_body w nm ms streak ->
  c ∈ nm \/ c = SPACE \/ c ∈ ms \/ c ∈ note_chars.
Proof.
  unfold row_body. rewrite !elem_of_app.
  intros [H|[H|[H|[H|H]]]].
  - apply ljust_chars in H as [?| ->]; auto.
  - apply list_elem_of_singleton in H. auto.
  - auto.
  - apply list_elem_of_singleton in H. auto.
  - right; right; right. by apply (streak_note_chars streak).
Qed.

(** A character that is no space, no mark and not of the annotation, and
    not in the name, is not in the row body. *)
Lemma row_body_avoids c w nm ms streak :
  c ∉ nm -> mark_seq ms ->
  c ∉ [SPACE; CHECK; QUESTION] ++ note_chars ->
  c ∉ row_body w nm ms streak.
Proof.
  intros Hnm Hms Hc Hin. apply Hc.
  apply row_body_chars in Hin as [?|[->|[Hin|Hin]]]; [done| | |].
  - by left.
  - apply (mark_seq_chars _ _ Hms) in Hin as [Hc'|Hc']; subst c;
      [by right; left|by right; right; left].
  - by do 3 right.
Qed.

End Rows.

Section EditedLine.

Implicit Types (nm ms : str) (w : nat) (streak : Z) (c : N).

Lemma strip_lead a (s : str) x y :
  head s = Some x -> last s = Some y ->
  is_space x = false -> is_space y = false ->
  strip (replicate a SPACE ++ s) = s.
Proof.
  intros Hx Hy Hsx Hsy.
  rewrite <- (strip_padded a 0 s x y Hx Hy Hsx Hsy) at 2.
  cbn [replicate]. by rewrite app_nil_r.
Qed.

Lemma strip_trail b (s : str) x y :
  head s = Some x -> last s = Some y ->
  is_space x = false -> is_space y = false ->
  strip (s ++ replicate b SPACE) = s.
Proof.
  intros Hx Hy Hsx Hsy.
  by rewrite <- (strip_padded 0 b s x y Hx Hy Hsx Hsy) at 2.
Qed.

Lemma mark_not_space c : c = CHECK \/ c = QUESTION -> is_space c = false.
Proof. by intros [->| ->]. Qed.

Lemma mark_seq_head ms :
  mark_seq ms -> ms <> [] -> exists x, head ms = Some x /\ is_space x = false.
Proof.
  intros Hms Hne. destruct ms as [|x ms]; [done|].
  exists x. split; [done|]. apply mark_not_space.
  apply (mark_seq_chars _ _ Hms). by left.
Qed.

Lemma mark_seq_last ms :
  mark_seq ms -> ms <> [] -> exists y, last ms = Some y /\ is_space y = false.
Proof.
  intros Hms Hne. destruct (last ms) as [y|] eqn:E.
  - exists y. split; [done|]. apply mark_not_space.
    apply (mark_seq_chars _ _ Hms). by apply last_Some_elem_of.
  - by apply last_None in E.
Qed.

(** The line [update_post] looks for in the content: the row without its
    leading "# ". *)
Lemma line_to_edit_of_row w nm ms streak :
  HASH ∉ nm -> mark_seq ms ->
  strip (replace (member_row w nm ms streak) [HASH] [])
  = BACKTICK :: row_body w nm ms streak ++ [BACKTICK].
Proof.
  intros Hnm Hms. rewrite member_row_body, replace_erase_first.
  - apply (strip_lead 1 _ BACKTICK BACKTICK); try done.
    change (BACKTICK :: row_body w nm ms streak ++ [BACKTICK])
      with ((BACKTICK :: row_body w nm ms streak) ++ [BACKTICK]).
    apply last_snoc.
  - rewrite !not_elem_of_cons, not_elem_of_app. split_and!; try done.
    + apply row_body_avoids; [done..|].
      apply (bool_decide_unpack _). vm_compute. exact I.
    + apply (bool_decide_unpack _). vm_compute. exact I.
Qed.

(** What [update_post] reads as marks and streak of a row. *)
Lemma marks_streak_of_row w nm ms streak :
  HASH ∉ nm -> SPACE ∉ nm -> mark_seq ms -> ms <> [] ->
  marks_streak_of (member_row w nm ms streak)
  = ms ++ SPACE :: streak_note streak ++ [BACKTICK].
Proof.
  intros Hhash Hspace Hms Hne. unfold marks_streak_of. cbv zeta.
  rewrite line_to_edit_of_row by done.
  set (rest := ms ++ SPACE :: streak_note streak ++ [BACKTICK]).
  assert (Hline : BACKTICK :: row_body w nm ms streak ++ [BACKTICK]
                  = (BACKTICK :: nm)
                      ++ SPACE :: (replicate (w - length nm) SPACE ++ rest)).
  { unfold row_body, ljust, rest. cbn [app]. f_equal.
    rewrite <- !app_assoc. f_equal.
    change (lit " " ++ ms ++ lit " " ++ streak_note streak ++ [BACKTICK])
      with ([SPACE] ++ ms ++ SPACE :: streak_note streak ++ [BACKTICK]).
    rewrite app_assoc, <- replicate_S_end. reflexivity. }
  rewrite Hline, find_char; [|].
  - rewrite slice_from_app.
    change (SPACE :: replicate (w - length nm) SPACE ++ rest)
      with (replicate (S (w - length nm)) SPACE ++ rest).
    destruct (mark_seq_head ms Hms Hne) as (x & Hx & Hsx).
    apply (strip_lead _ _ x BACKTICK); try done.
    + unfold rest. by destruct ms.
    + unfold rest.
      change (ms ++ SPACE :: streak_note streak ++ [BACKTICK])
        with (ms ++ (SPACE :: streak_note streak) ++ [BACKTICK]).
      rewrite app_assoc. apply last_snoc.
  - rewrite not_elem_of_cons. split; [done|done].
Qed.

Lemma flip_first_split (m1 m2 : str) :
  QUESTION ∉ m1 -> flip_first (m1 ++ QUESTION :: m2) = m1 ++ CHECK :: m2.
Proof.
  induction m1 as [|c m1 IH]; [done|]. intros [Hc Hm1]%not_elem_of_cons. cbn.
  destruct (N.eqb_spec c QUESTION) as [->|_]; [done|]. by rewrite IH.
Qed.

(** Writing a done mark over the first pending one. *)
Lemma new_marks_streak_of (ms rest : str) :
  QUESTION ∈ ms ->
  find (ms ++ rest) [QUESTION] <> -1
  /\ slice_to (ms ++ rest) (find (ms ++ rest) [QUESTION]) ++ [CHECK]
       ++ slice_from (ms ++ rest) (find (ms ++ rest) [QUESTION] + 1)
     = flip_first ms ++ rest.
Proof.
  intros (m1 & m2 & -> & Hm1)%list_elem_of_split_l.
  rewrite flip_first_split by done. rewrite <- !app_assoc. cbn [app].
  rewrite find_char by done. split; [unfold len; lia|].
  rewrite slice_to_app.
  replace (len m1 + 1) with (len (m1 ++ [QUESTION]))
    by (unfold len; rewrite length_app; cbn; lia).
  rewrite (cons_middle QUESTION m1), app_assoc, slice_from_app.
  reflexivity.
Qed.

(** The marks [update_post] puts into the new line. *)
Lemma new_marks_of (ms : str) streak :
  mark_seq ms -> ms <> [] ->
  strip (default [] (head (split (ms ++ SPACE :: streak_note streak ++ [BACKTICK]) LPAREN)))
  = ms.
Proof.
  intros Hms Hne.
  change (streak_note streak)
    with (LPAREN :: (lit "Streak: " ++ str_of_int streak ++ lit " "
                       ++ day_suffix streak ++ lit ")")).
  cbn [app]. rewrite (cons_middle SPACE ms), app_assoc.
  rewrite split_app_sep.
  - cbn [head default].
    destruct (mark_seq_head ms Hms Hne) as (x & Hx & Hsx).
    destruct (mark_seq_last ms Hms Hne) as (y & Hy & Hsy).
    by apply (strip_trail 1 ms x y).
  - rewrite not_elem_of_app, list_elem_of_singleton. split; [|done].
    intros [?|?]%(mark_seq_chars _ _ Hms); done.
Qed.

End EditedLine.

Section Board.

Implicit Types (e : Entry) (entries before after : list Entry).

Lemma flip_first_mark_seq ms : mark_seq ms -> mark_seq (flip_first ms).
Proof.
  unfold mark_seq. induction 1 as [|c ms Hc Hms IH]; [done|]. cbn.
  destruct (c =? QUESTION)%N; constructor; auto.
Qed.

Lemma flip_first_length ms : length (flip_first ms) = length ms.
Proof.
  induction ms as [|c ms IH]; [done|]. cbn.
  destruct (c =? QUESTION)%N; cbn; by rewrite ?IH.
Qed.

Lemma flip_first_nonempty ms : ms <> [] -> flip_first ms <> [].
Proof.
  intros Hne H. apply (f_equal length) in H.
  rewrite flip_first_length in H. by destruct ms.
Qed.

Lemma row_body_no_backtick e :
  plain_entry e ->
  BACKTICK ∉ row_body (width e) (name (member e)) (marks e) (shown e).
Proof.
  intros [(_ & _ & Hbt & _) Hms]. apply row_body_avoids; [done..|].
  apply (bool_decide_unpack _). vm_compute. exact I.
Qed.

Lemma entry_row_no_newline e : plain_entry e -> NEWLINE ∉ entry_row e.
Proof.
  intros [(Hnl & _) Hms]. unfold entry_row.
  apply member_row_no_newline; [done|].
  intros [?|?]%(mark_seq_chars _ _ Hms); done.
Qed.

Lemma board_lines entries :
  entries <> [] -> Forall plain_entry entries ->
  split (board_text entries) NEWLINE = map entry_row entries.
Proof.
  intros Hne Hplain. unfold board_text. apply split_join.
  - by destruct entries.
  - apply Forall_map. eapply Forall_impl; [exact Hplain|].
    intros e He. by apply entry_row_no_newline.
Qed.

(** Another row does not hold the line of [e]. *)
Lemma other_row_keeps e e' :
  plain_entry e -> plain_entry e' -> entry_row e' <> entry_row e ->
  contains (entry_row e')
    (BACKTICK :: row_body (width e) (name (member e)) (marks e) (shown e)
       ++ [BACKTICK]) = false.
Proof.
  intros He He' Hne.
  destruct (contains _ _) eqn:Hc; [|done]. exfalso. apply Hne.
  apply contains_true in Hc as (p & q & Hc).
  unfold entry_row in Hc. rewrite member_row_body in Hc.
  apply (body_unique _ _ p q) in Hc;
    [|by apply row_body_no_backtick|by apply row_body_no_backtick].
  unfold entry_row. by rewrite !member_row_body, Hc.
Qed.

End Board.

Lemma get_streak_run i st :
  get_streak i st = Ok (default 0 (streaks (world st) !! i)) st.
Proof. reflexivity. Qed.

#[local] Arguments get_streak : simpl never.

(** The content [update_post] writes on a board of plain rows. *)
Lemma update_post_on_board st post before e after :
  editable_weekly_post (self st) = Some post ->
  is_Some (messages (channel (world st)) !! msg_id post) ->
  content post = board_text (before ++ e :: after) ->
  Forall plain_entry (before ++ e :: after) ->
  Forall (fun e' => contains (entry_row e') (name (member e)) = false) before ->
  Forall (fun e' => entry_row e' <> entry_row e) after ->
  QUESTION ∈ marks e ->
  update_post (member e) st
  = Ok tt (with_post_text st post (board_text (before ++ recorded st e :: after))).
Proof.
  intros Hpost Hlive Htext Hplain Hbefore Hafter Hq.
  assert (He : plain_entry e).
  { rewrite Forall_forall in Hplain. apply Hplain.
    rewrite elem_of_app, elem_of_cons. auto. }
  destruct He as [(Hnl & Hhash & Hbt & Hsp) Hms].
  assert (Hne : marks e <> []) by (intros E; rewrite E in Hq; by apply elem_of_nil in Hq).
  unfold update_post. unfold bind at 1. rewrite (the_post_run _ _ Hpost).
  rewrite Htext, board_lines by (done || by destruct before).
  assert (Hline : member_line (map entry_row (before ++ e :: after)) (name (member e))
                  = Some (entry_row e)).
  { unfold member_line. rewrite map_app, find_skip by (by apply Forall_map).
    cbn. unfold entry_row at 1. by rewrite member_row_contains_name. }
  rewrite Hline. cbv zeta.
  change (strip (slice_from (strip (replace (entry_row e) [HASH] []))
                   (find (strip (replace (entry_row e) [HASH] [])) [SPACE])))
    with (marks_streak_of (entry_row e)).
  set (rest := SPACE :: streak_note (shown e) ++ [BACKTICK]).
  assert (Hread : marks_streak_of (entry_row e) = marks e ++ rest)
    by (by apply marks_streak_of_row).
  assert (Hedit : strip (replace (entry_row e) [HASH] [])
                  = BACKTICK :: row_body (width e) (name (member e)) (marks e) (shown e)
                      ++ [BACKTICK])
    by (by apply line_to_edit_of_row).
  rewrite !Hread, !Hedit.
  destruct (new_marks_streak_of (marks e) rest Hq) as [Hfound Hnew].
  destruct (Z.eqb_spec (find (marks e ++ rest) [QUESTION]) (-1)) as [|_]; [done|].
  rewrite Hnew. unfold rest.
  rewrite new_marks_of by (by apply flip_first_mark_seq || by apply flip_first_nonempty).
  unfold bind at 1. rewrite get_streak_run.
  unfold bind at 1. unfold gets at 1.
  set (streak := default 0 (streaks (world st) !! discord_id (member e))).
  set (w := max_name_length (self st)).
  set (line := BACKTICK :: row_body (width e) (name (member e)) (marks e) (shown e)
                 ++ [BACKTICK]).
  set (new_line := lit "`" ++ _).
  assert (Hreplace :
    replace (board_text (before ++ e :: after)) line new_line
    = board_text (before ++ checked_in w streak e :: after)).
  { unfold board_text. rewrite replace_join; [|done|].
    - f_equal. rewrite !map_app. cbn [map]. rewrite !map_map.
      f_equal; [|f_equal].
      + apply map_ext_in. intros e' He'%list_elem_of_In.
        apply replace_none; [done|]. apply other_row_keeps.
        * done.
        * rewrite Forall_forall in Hplain. apply Hplain.
          rewrite elem_of_app. auto.
        * rewrite Forall_forall in Hbefore. intros Heq.
          specialize (Hbefore e' He'). rewrite Heq in Hbefore.
          unfold entry_row in Hbefore.
          by rewrite member_row_contains_name in Hbefore.
      + unfold entry_row at 1. rewrite member_row_body. fold line.
        rewrite replace_after_two by done.
        unfold entry_row, checked_in. cbn [member width marks shown].
        rewrite member_row_body. unfold new_line, row_body, streak_note.
        rewrite <- !app_assoc. reflexivity.
      + apply map_ext_in. intros e' He'%list_elem_of_In.
        apply replace_none; [done|]. apply other_row_keeps.
        * done.
        * rewrite Forall_forall in Hplain. apply Hplain.
          rewrite elem_of_app, elem_of_cons. auto.
        * rewrite Forall_forall in Hafter. by apply Hafter.
    - unfold line. rewrite not_elem_of_cons, not_elem_of_app. split_and!.
      + done.
      + apply row_body_avoids; [done..|].
        apply (bool_decide_unpack _). vm_compute. exact I.
      + apply (bool_decide_unpack _). vm_compute. exact I. }
  rewrite Hreplace. unfold bind. rewrite (edit_run _ _ _ Hlive). reflexivity.
Qed.

(** ** Any sequence of check-ins on a board of separated names *)

Section Monotone.

Implicit Types (ms : str) (e : Entry) (entries : list Entry).

Lemma flip_first_keeps_done ms : keeps_done ms (flip_first ms).
Proof.
  split; [apply flip_first_length|]. split.
  - induction ms as [|c ms IH]; intros i; [done|]. cbn.
    destruct (N.eqb_spec c QUESTION) as [->|_].
    + destruct i; [done|]. done.
    + destruct i; [done|]. apply IH.
  - unfold count. induction ms as [|c ms IH]; [done|]. cbn [flip_first].
    destruct (N.eqb_spec c QUESTION) as [->|_].
    + rewrite (filter_cons_False _ QUESTION) by done.
      rewrite (filter_cons_True _ CHECK) by done. cbn [length]. lia.
    + rewrite !filter_cons. destruct (decide (c = CHECK)); cbn [length]; lia.
Qed.

(** A check-in with a pending slot adds exactly one done mark. *)
Lemma flip_first_count ms :
  QUESTION ∈ ms -> count (flip_first ms) CHECK = S (count ms CHECK).
Proof.
  intros (m1 & m2 & -> & Hm1)%list_elem_of_split_l.
  rewrite flip_first_split by done. rewrite !count_app, count_cons_eq.
  assert (Hq : count (QUESTION :: m2) CHECK = count m2 CHECK).
  { unfold count. by rewrite filter_cons_False. }
  rewrite Hq. lia.
Qed.

Lemma keeps_done_refl ms : keeps_done ms ms.
Proof. by split_and!. Qed.

Lemma keeps_done_trans ms1 ms2 ms3 :
  keeps_done ms1 ms2 -> keeps_done ms2 ms3 -> keeps_done ms1 ms3.
Proof.
  intros (Hl1 & Hk1 & Hc1) (Hl2 & Hk2 & Hc2). split_and!; [congruence|auto|lia].
Qed.

Lemma board_keeps_done_refl entries : board_keeps_done entries entries.
Proof.
  apply Forall_Forall2_diag, Forall_forall. intros e _.
  split; [done|apply keeps_done_refl].
Qed.

Lemma board_keeps_done_trans entries1 entries2 entries3 :
  board_keeps_done entries1 entries2 -> board_keeps_done entries2 entries3 ->
  board_keeps_done entries1 entries3.
Proof.
  intros H12 H23. eapply Forall2_trans; [|exact H12|exact H23].
  intros e1 e2 e3 [Hm1 Hk1] [Hm2 Hk2].
  split; [congruence|by eapply keeps_done_trans].
Qed.

Lemma separated_not_contained w nm ms streak nm' :
  separated nm nm' -> mark_seq ms ->
  contains (member_row w nm ms streak) nm' = false.
Proof.
  intros (c & Hin & Hnm & Hc) Hms.
  destruct (contains _ _) eqn:E; [|done]. exfalso.
  apply contains_true in E as (p & q & E).
  assert (Hrow : c ∈ member_row w nm ms streak).
  { rewrite E, !elem_of_app. auto. }
  apply member_row_chars in Hrow as [?|[Hrow|Hrow]]; [done| |].
  - apply Hc. apply (mark_seq_chars _ _ Hms) in Hrow as [Hc'|Hc']; subst c.
    + by left.
    + by right; left.
  - apply Hc. by do 2 right.
Qed.

End Monotone.

Section Steps.

Implicit Types (e : Entry) (entries before after : list Entry).

Lemma update_streak_run m st :
  update_streak m st
  = Ok tt {| self := self st;
             world := {| channel := channel (world st);
                         data_file := data_file (world st);
                         streaks := <[discord_id m :=
                                        default 0 (streaks (world st) !! discord_id m) + 1]>
                                      (streaks (world st));
                         clock_now := clock_now (world st);
                         clock_utcnow := clock_utcnow (world st) |} |}.
Proof. reflexivity. Qed.

(** On a board of separated names, no other row holds the name of [e]. *)
Lemma separated_rows before e after :
  Forall plain_entry (before ++ e :: after) ->
  separated_names (map (fun e => name (member e)) (before ++ e :: after)) ->
  Forall (fun e' => contains (entry_row e') (name (member e)) = false) before
  /\ Forall (fun e' => contains (entry_row e') (name (member e)) = false) after.
Proof.
  intros Hplain Hsep.
  assert (Hat : map (fun e => name (member e)) (before ++ e :: after)
                !! length before = Some (name (member e))).
  { rewrite list_lookup_fmap, lookup_app_r, Nat.sub_diag by lia. done. }
  rewrite Forall_app, Forall_cons in Hplain. destruct Hplain as (Hb & _ & Ha).
  split; apply Forall_forall; intros e' He'.
  - apply list_elem_of_lookup in He' as [i Hi].
    pose proof (lookup_lt_Some _ _ _ Hi) as Hlt.
    apply separated_not_contained.
    + apply (Hsep i (length before)); [lia| |done].
      rewrite list_lookup_fmap, lookup_app_l, Hi by done. done.
    + rewrite Forall_forall in Hb. apply Hb. by eapply list_elem_of_lookup_2.
  - apply list_elem_of_lookup in He' as [i Hi].
    apply separated_not_contained.
    + apply (Hsep (length before + S i)%nat (length before)); [lia| |done].
      rewrite list_lookup_fmap, lookup_app_r by lia.
      replace (length before + S i - length before)%nat with (S i) by lia.
      change ((e :: after) !! S i) with (after !! i). by rewrite Hi.
    + rewrite Forall_forall in Ha. apply Ha. by eapply list_elem_of_lookup_2.
Qed.

Lemma good_board_checkin st entries m :
  good_board st entries -> m ∈ map member entries ->
  exists st' entries',
    update_post m st = Ok tt st'
    /\ good_board st' entries'
    /\ board_keeps_done entries entries'.
Proof.
  intros ((post & Hpost & Hlive & Htext) & Hplain & Hfive & Hsep) Hm.
  apply list_elem_of_fmap in Hm as (e & -> & He).
  apply list_elem_of_split in He as (before & after & ->).
  destruct (separated_rows _ _ _ Hplain Hsep) as [Hbefore Hafter].
  assert (He : plain_entry e /\ length (marks e) = 5%nat).
  { rewrite Forall_forall in Hplain, Hfive.
    split; [apply Hplain|apply Hfive]; rewrite elem_of_app, elem_of_cons; auto. }
  destruct He as [[(Hnl & Hhash & Hbt & Hsp) Hms] Hlen].
  assert (Hne : marks e <> []) by (intros E; by rewrite E in Hlen).
  destruct (decide (QUESTION ∈ marks e)) as [Hq|Hq].
  - eexists _, (before ++ recorded st e :: after).
    split; [|split].
    + apply (update_post_on_board st post before e after); try done.
      eapply Forall_impl; [exact Hafter|]. intros e' He' Heq.
      cbv beta in He'. rewrite Heq in He'. unfold entry_row in He'.
      by rewrite member_row_contains_name in He'.
    + split_and!.
      * eexists. split; [reflexivity|]. cbn. rewrite lookup_insert_eq. eauto.
      * rewrite Forall_app, Forall_cons in Hplain |- *.
        destruct Hplain as (Hb & _ & Ha). split_and!; [done| |done].
        split; [done|]. by apply flip_first_mark_seq.
      * rewrite Forall_app, Forall_cons in Hfive |- *.
        destruct Hfive as (Hb & _ & Ha). split_and!; [done| |done].
        cbn. by rewrite flip_first_length.
      * by rewrite map_app in Hsep |- *.
    + apply Forall2_app; [apply board_keeps_done_refl|].
      constructor; [|apply board_keeps_done_refl].
      split; [done|]. apply flip_first_keeps_done.
  - exists st, (before ++ e :: after). split; [|split].
    + apply (update_post_no_pending st post (member e) (entry_row e)); [done| |].
      * rewrite Htext, board_lines by (done || by destruct before).
        unfold member_line. rewrite map_app, find_skip by (by apply Forall_map).
        cbn. unfold entry_row at 1. by rewrite member_row_contains_name.
      * unfold entry_row. rewrite marks_streak_of_row by done.
        rewrite not_elem_of_app, not_elem_of_cons, not_elem_of_app.
        split_and!; [done|done| |by apply (bool_decide_unpack _)].
        intros Hin%(streak_note_chars (shown e)). revert Hin.
        apply (bool_decide_unpack _). vm_compute. exact I.
    + split_and!; [|done..]. exists post. done.
    + apply board_keeps_done_refl.
Qed.

Lemma good_board_step st entries c :
  good_board st entries -> call_member c ∈ map member entries ->
  exists st' entries',
    run_call c st = Ok tt st'
    /\ good_board st' entries'
    /\ board_keeps_done entries entries'.
Proof.
  intros Hgood Hm. destruct c as [m|m]; cbn [run_call call_member] in *.
  - eexists _, entries. split; [apply update_streak_run|].
    split; [|apply board_keeps_done_refl].
    destruct Hgood as ((post & Hpost & Hlive & Htext) & Hrest).
    split; [|done]. exists post. done.
  - by apply good_board_checkin.
Qed.

End Steps.

(** On a board of plain rows, where no row before the member's own holds
    the member's name and no row after it is a copy of it, a check-in of a
    member with a pending mark rewrites exactly that member's line: its
    first pending mark becomes a done mark, which adds one done slot and
    keeps the others, the name is padded to the current width and the
    streak is the stored one; every other line of the post is kept as it
    is. *)
Theorem update_post_flips_first_pending st post before e after :
  editable_weekly_post (self st) = Some post ->
  is_Some (messages (channel (world st)) !! msg_id post) ->
  content post = board_text (before ++ e :: after) ->
  Forall plain_entry (before ++ e :: after) ->
  Forall (fun e' => contains (entry_row e') (name (member e)) = false) before ->
  Forall (fun e' => entry_row e' <> entry_row e) after ->
  QUESTION ∈ marks e ->
  exists st',
    update_post (member e) st = Ok tt st'
    /\ split (content post) NEWLINE
       = map entry_row before ++ entry_row e :: map entry_row after
    /\ post_lines st'
       = map entry_row before ++ entry_row (recorded st e) :: map entry_row after
    /\ marks (recorded st e) = flip_first (marks e)
    /\ count (flip_first (marks e)) CHECK = S (count (marks e) CHECK)
    /\ keeps_done (marks e) (flip_first (marks e)).
Proof.
  intros Hpost Hlive Htext Hplain Hbefore Hafter Hq.
  eexists. split; [by apply (update_post_on_board st post before e after)|].
  assert (Hplain' : Forall plain_entry (before ++ recorded st e :: after)).
  { rewrite Forall_app, Forall_cons in Hplain |- *.
    destruct Hplain as (Hb & [Hname Hms] & Ha). split_and!; [done| |done].
    split; [done|]. by apply flip_first_mark_seq. }
  split_and!.
  - rewrite Htext, board_lines by (done || by destruct before).
    by rewrite map_app.
  - unfold post_lines, with_post_text. cbn [self editable_weekly_post content].
    rewrite board_lines by (done || by destruct before). by rewrite map_app.
  - done.
  - by apply flip_first_count.
  - apply flip_first_keeps_done.
Qed.

Lemma update_post_flips_first_pending_witness :
  exists st',
    update_post alice (state_of alice_bob_start) = Ok tt st'
    /\ post_lines st'
       = [entry_row {| member := alice; width := 5;
                       marks := [CHECK; QUESTION; QUESTION; QUESTION; QUESTION];
                       shown := 0 |};
          entry_row {| member := bob; width := 5; marks := pending5; shown := 0 |}].
Proof.
  destruct (update_post_flips_first_pending (state_of alice_bob_start)
              {| msg_id := 102; content := board_text alice_bob_board |}
              [] {| member := alice; width := 5; marks := pending5; shown := 0 |}
              [ {| member := bob; width := 5; marks := pending5; shown := 0 |} ])
    as (st' & Hrun & _ & Hlines & _).
  - vm_compute; reflexivity.
  - vm_compute. eauto.
  - reflexivity.
  - repeat constructor; apply (bool_decide_unpack _); vm_compute; exact I.
  - constructor.
  - repeat constructor. intros H. vm_compute in H. discriminate.
  - apply (bool_decide_unpack _). vm_compute. exact I.
  - exists st'. split; [exact Hrun|]. rewrite Hlines. vm_compute. reflexivity.
Defined.

(** Within a week, on a board of plain and separated names with five marks
    a row, every sequence of [update_streak] and [update_post] calls for
    roster members returns normally, keeps the board well formed, and
    never loses a done slot: each slot that was done stays done and no
    member's count of done slots decreases. *)
Theorem checkins_keep_done_slots calls st entries :
  good_board st entries ->
  Forall (fun c => call_member c ∈ map member entries) calls ->
  exists st' entries',
    for_each calls run_call st = Ok tt st'
    /\ good_board st' entries'
    /\ board_keeps_done entries entries'.
Proof.
  revert st entries. induction calls as [|c calls IH]; intros st entries Hgood Hcalls.
  - exists st, entries. split; [done|]. split; [done|apply board_keeps_done_refl].
  - apply Forall_cons in Hcalls as [Hc Hcalls].
    destruct (good_board_step st entries c Hgood Hc) as (st1 & entries1 & Hrun & Hgood1 & Hkeep1).
    assert (Hmembers : map member entries1 = map member entries).
    { clear -Hkeep1. induction Hkeep1 as [|e e' ? ? [Hm _] _ IH]; [done|].
      cbn. by rewrite Hm, IH. }
    destruct (IH st1 entries1 Hgood1) as (st2 & entries2 & Hrun2 & Hgood2 & Hkeep2).
    { by rewrite Hmembers. }
    exists st2, entries2. split; [|split; [done|]].
    + cbn [for_each]. unfold bind. by rewrite Hrun.
    + by eapply board_keeps_done_trans.
Qed.

Lemma checkins_keep_done_slots_witness :
  exists st' entries',
    for_each week_calls run_call (state_of alice_bob_start) = Ok tt st'
    /\ good_board st' entries'
    /\ board_keeps_done alice_bob_board entries'.
Proof.
  apply (checkins_keep_done_slots week_calls (state_of alice_bob_start) alice_bob_board).
  - split_and!.
    + eexists. split; [vm_compute; reflexivity|].
      split; [vm_compute; eauto|reflexivity].
    + repeat constructor; apply (bool_decide_unpack _); vm_compute; exact I.
    + repeat constructor.
    + intros i j nm nm' Hij Hi Hj.
      destruct i as [|[|i]], j as [|[|j]]; try done;
        injection Hi as <-; injection Hj as <-.
      * exists 66%N. split_and!; apply (bool_decide_unpack _); vm_compute; exact I.
      * exists 65%N. split_and!; apply (bool_decide_unpack _); vm_compute; exact I.
  - repeat constructor.
Defined.

(** * Further properties of the manager *)

(** ** The two mark predicates *)

#[local] Arguments slots_read : simpl never.

Section Predicates.

Implicit Types (s : str) (c : N).


Lemma count_full s c :
  count s c = length s <-> forallb (fun x => (x =? c)%N) s = true.
Proof.
  unfold count. induction s as [|x s IH]; [done|]. cbn [forallb length].
  pose proof (length_filter (fun y => y = c) s) as Hle.
  destruct (N.eqb_spec x c) as [->|Hx]; cbn [andb].
  - rewrite filter_cons_True by done. cbn [length]. rewrite <- IH. lia.
  - rewrite filter_cons_False by done. split; [lia|done].
Qed.


Lemma has_all_checkmarks_run st post m :
  editable_weekly_post (self st) = Some post ->
  has_all_checkmarks m st
  = Ok (if find (content post) (name m) =? -1 then false
        else forallb (fun x => (x =? CHECK)%N)
               (slots_read (content post) (max_name_length (self st)) (name m)))
       st.
Proof.
  intros Hpost. unfold has_all_checkmarks, bind, gets.
  rewrite (the_post_run _ _ Hpost).
  by destruct (find (content post) (name m) =? -1).
Qed.

Lemma has_minimum_checkmarks_slots st post m n :
  editable_weekly_post (self st) = Some post ->
  has_minimum_checkmarks m n st
  = Ok (if find (content post) (name m) =? -1 then false
        else n <=? Z.of_nat
               (count (slots_read (content post) (max_name_length (self st)) (name m))
                  CHECK))
       st.
Proof.
  intros Hpost. unfold has_minimum_checkmarks, bind, gets.
  rewrite (the_post_run _ _ Hpost).
  by destruct (find (content post) (name m) =? -1).
Qed.

End Predicates.



(** ** Calls made before there is a post *)

(** Without a post, every call that reads the post raises
    [AttributeError] and changes nothing; [reset_streaks] does so as soon
    as the roster has a member, and returns normally on an empty roster. *)
Theorem calls_without_post_raise st :
  editable_weekly_post (self st) = None ->
  (forall m, update_post m st = Raise AttributeError st)
  /\ (forall m n, has_minimum_checkmarks m n st = Raise AttributeError st)
  /\ (forall m, has_all_checkmarks m st = Raise AttributeError st)
  /\ save_weekly_post_data st = Raise AttributeError st
  /\ (team_members (self st) <> [] -> reset_streaks st = Raise AttributeError st)
  /\ (team_members (self st) = [] -> reset_streaks st = Ok tt st).
Proof.
  intros Hnone.
  assert (Hpost : the_post st = Raise AttributeError st).
  { unfold the_post, bind, gets. by rewrite Hnone. }
  split_and!.
  - intros m. unfold update_post, bind. by rewrite Hpost.
  - intros m n. unfold has_minimum_checkmarks, bind. by rewrite Hpost.
  - intros m. unfold has_all_checkmarks, bind. by rewrite Hpost.
  - unfold save_weekly_post_data, bind. by rewrite Hpost.
  - intros Hne. unfold reset_streaks. unfold bind at 1. unfold gets.
    destruct (team_members (self st)) as [|m members]; [done|].
    cbn [for_each]. unfold bind at 1. unfold bind at 1.
    unfold has_minimum_checkmarks. unfold bind at 1. by rewrite Hpost.
  - intros Hempty. unfold reset_streaks, bind, gets. by rewrite Hempty.
Qed.

Lemma calls_without_post_raise_witness :
  update_post alice first_run = Raise AttributeError first_run
  /\ reset_streaks first_run = Raise AttributeError first_run.
Proof.
  destruct (calls_without_post_raise first_run eq_refl)
    as (Hupdate & _ & _ & _ & Hreset & _).
  split; [apply Hupdate|]. apply Hreset. vm_compute. discriminate.
Defined.

(** ** Dates of the heading *)

Section Dates.

Lemma month_day_range n leapyear :
  0 <= n <= 364 ->
  1 <= (month_day n leapyear).1 <= 12 /\ 1 <= (month_day n leapyear).2 <= 31.
Proof.
  intros Hn.
  assert (Hall : forallb (fun k =>
            forallb (fun l =>
              let md := month_day (Z.of_nat k) l in
              (1 <=? md.1) && (md.1 <=? 12) && (1 <=? md.2) && (md.2 <=? 31))
              [true; false])
            (seq 0 365) = true) by (vm_compute; reflexivity).
  rewrite forallb_forall in Hall.
  specialize (Hall (Z.to_nat n)). rewrite Z2Nat.id in Hall by lia.
  assert (Hin : In (Z.to_nat n) (seq 0 365)) by (apply in_seq; lia).
  specialize (Hall Hin). rewrite forallb_forall in Hall.
  assert (Hl : In leapyear [true; false]) by (destruct leapyear; cbn; tauto).
  specialize (Hall _ Hl). cbv zeta in Hall.
  rewrite !andb_true_iff, !Z.leb_le in Hall. lia.
Qed.

Lemma ord2ymd_range n0 :
  1 <= (ord2ymd n0).1.2 <= 12 /\ 1 <= (ord2ymd n0).2 <= 31.
Proof.
  unfold ord2ymd. cbv zeta.
  destruct (_ || _); [cbn; lia|].
  set (n := (((n0 - 1) mod 146097) mod 36524) mod 1461 mod 365).
  set (leapyear := (_ =? 3) && _).
  assert (Hn : 0 <= n <= 364).
  { subst n. pose proof (Z.mod_pos_bound
      ((((n0 - 1) mod 146097) mod 36524) mod 1461) 365). lia. }
  pose proof (month_day_range n leapyear Hn) as Hmd.
  unfold month_day in Hmd. cbv zeta in Hmd.
  destruct (n <? _); exact Hmd.
Qed.

Lemma suffix_of_day day :
  1 <= day <= 31 ->
  default [] ([lit "th"; lit "st"; lit "nd"; lit "rd"]
              !! Z.to_nat (if (4 <=? day) && (day <=? 20) || (24 <=? day) && (day <=? 30)
                           then 0 else day mod 10))
  = english_suffix day.
Proof.
  intros Hday.
  assert (Hall : forallb (fun k =>
            let day := Z.of_nat k in
            bool_decide
              (default [] ([lit "th"; lit "st"; lit "nd"; lit "rd"]
                 !! Z.to_nat (if (4 <=? day) && (day <=? 20) || (24 <=? day) && (day <=? 30)
                              then 0 else day mod 10))
               = english_suffix day))
            (seq 1 31) = true) by (vm_compute; reflexivity).
  rewrite forallb_forall in Hall.
  specialize (Hall (Z.to_nat day)). rewrite Z2Nat.id in Hall by lia.
  assert (Hin : In (Z.to_nat day) (seq 1 31)) by (apply in_seq; lia).
  specialize (Hall Hin). cbv zeta in Hall.
  by apply bool_decide_eq_true in Hall.
Qed.

End Dates.

(** [format_date] writes the month by its name, the day of the month and
    the English ordinal suffix of that day (1st, 2nd, 3rd, 4th, ..., 11th,
    12th, 13th, ..., 21st, 22nd, 23rd, ..., 31st), for every date. *)
Theorem format_date_english_ordinal dt :
  1 <= month_of dt <= 12
  /\ 1 <= day_of dt <= 31
  /\ month_name dt <> []
  /\ format_date dt
     = month_name dt ++ lit " " ++ str_of_int (day_of dt) ++ english_suffix (day_of dt).
Proof.
  pose proof (ord2ymd_range (ordinal dt)) as [Hmonth Hday].
  fold (month_of dt) in Hmonth. fold (day_of dt) in Hday.
  split; [done|]. split; [done|]. split.
  - unfold month_name.
    assert (Hm : exists k, Z.to_nat (month_of dt) = S k /\ (k < 12)%nat).
    { exists (Z.to_nat (month_of dt) - 1)%nat. lia. }
    destruct Hm as (k & -> & Hk).
    do 12 (destruct k as [|k]; [done|]). lia.
  - unfold format_date. cbv zeta. by rewrite suffix_of_day.
Qed.

(** ** Starting a week, again *)

Section NewWeek.

(** The state after [initialize_post] created the post [text]. *)
Lemma initialize_post_new_week st :
  ~ saved_post_is_current st ->
  let ch := channel (world st) in
  let text :=
    join [NEWLINE]
      (map (fun m => member_row (max_name_length (self st)) (name m)
                       (replicate 5 QUESTION)
                       (default 0 (streaks (world st) !! discord_id m)))
           (team_members (self st))) in
  let headed :=
    <[next_id ch + 1 := week_heading (clock_utcnow (world st))]>
      (<[next_id ch := lit "# Weekly Status Updates"]> (messages ch)) in
  initialize_post st
  = match text with
    | [] =>
        Ok tt {| self := self st;
                 world := {| channel := {| messages := headed;
                                           next_id := next_id ch + 1 + 1;
                                           readable := readable ch |};
                             data_file := data_file (world st);
                             streaks := streaks (world st);
                             clock_now := clock_now (world st);
                             clock_utcnow := clock_utcnow (world st) |} |}
    | _ :: _ =>
        Ok tt {| self := {| team_members := team_members (self st);
                            max_name_length := max_name_length (self st);
                            editable_weekly_post :=
                              Some {| msg_id := next_id ch + 1 + 1; content := text |};
                            editable_weekly_post_id := editable_weekly_post_id (self st);
                            weekly_post_timestamp := weekly_post_timestamp (self st) |};
                 world := {| channel := {| messages := <[next_id ch + 1 + 1 := text]> headed;
                                           next_id := next_id ch + 1 + 1 + 1;
                                           readable := readable ch |};
                             data_file :=
                               Some {| post_id := Some (next_id ch + 1 + 1);
                                       timestamp := Some (clock_now (world st)) |};
                             streaks := streaks (world st);
                             clock_now := clock_now (world st);
                             clock_utcnow := clock_utcnow (world st) |} |}
    end.
Proof.
  intros Hcur ch text headed.
  unfold initialize_post, bind, gets.
  destruct (truthy_id _ && _) eqn:Hguard;
    [by apply initialize_post_guard in Hguard|].
  rewrite (collect_reads _ _
             (fun m => member_row (max_name_length (self st)) (name m)
                         (replicate 5 QUESTION)
                         (default 0 (streaks (world st) !! discord_id m))))
    by done.
  fold text. rewrite !send_run. cbn.
  destruct text as [|x text'].
  - destruct st as [me w]. reflexivity.
  - rewrite send_run. reflexivity.
Qed.

Lemma week_monday_sunday utc_now :
  let monday := sub_days utc_now (weekday utc_now) in
  let sunday := add_days monday 6 in
  weekday monday = 0 /\ weekday sunday = 6
  /\ ordinal monday <= ordinal utc_now <= ordinal sunday.
Proof.
  unfold weekday, sub_days, add_days. cbn [ordinal].
  split_and!; Z.div_mod_to_equations; lia.
Qed.

End NewWeek.

(** Whenever [initialize_post] does not fetch a saved post, it sends the
    title and then a heading that names two dates with [format_date]: the
    Monday on or before the current UTC day and the Sunday six days after
    that Monday; this does not depend on the roster. *)
Theorem initialize_post_heading_spans_week st :
  ~ saved_post_is_current st ->
  exists st' monday sunday,
    initialize_post st = Ok tt st'
    /\ messages (channel (world st')) !! next_id (channel (world st))
       = Some (lit "# Weekly Status Updates")
    /\ messages (channel (world st')) !! (next_id (channel (world st)) + 1)
       = Some (lit "## " ++ format_date monday ++ lit " to " ++ format_date sunday)
    /\ weekday monday = 0 /\ weekday sunday = 6
    /\ ordinal sunday = ordinal monday + 6
    /\ ordinal monday <= ordinal (clock_utcnow (world st)) <= ordinal sunday.
Proof.
  intros Hcur.
  pose proof (initialize_post_new_week st Hcur) as Hrun. cbv zeta in Hrun.
  destruct (week_monday_sunday (clock_utcnow (world st))) as (Hmon & Hsun & Hin).
  destruct (join _ _) as [|x text'];
    (eexists _, (sub_days (clock_utcnow (world st)) (weekday (clock_utcnow (world st)))),
       (add_days (sub_days (clock_utcnow (world st))
                    (weekday (clock_utcnow (world st)))) 6);
     split; [exact Hrun|];
     split_and!; [| |exact Hmon|exact Hsun|reflexivity|apply Hin|apply Hin];
     cbn [world channel messages]).
  - rewrite lookup_insert_ne by lia. apply lookup_insert_eq.
  - apply lookup_insert_eq.
  - rewrite !lookup_insert_ne by lia. apply lookup_insert_eq.
  - rewrite lookup_insert_ne by lia. apply lookup_insert_eq.
Qed.

Lemma initialize_post_heading_spans_week_witness :
  exists st',
    initialize_post first_run = Ok tt st'
    /\ messages (channel (world st')) !! 101
       = Some (lit "## November 2nd to November 8th").
Proof.
  destruct (initialize_post_heading_spans_week first_run)
    as (st' & mon & sun & Hrun & _ & Hhead & _).
  - intros (pid & t & H & _). vm_compute in H. discriminate.
  - exists st'. split; [exact Hrun|].
    assert (Est : st' = state_of (initialize_post first_run))
      by (rewrite Hrun; reflexivity).
    rewrite Est. vm_compute. reflexivity.
Defined.

(** With an empty roster and no saved post of the current week,
    [initialize_post] sends the title and the heading and nothing else: it
    creates no post, keeps the manager as it is and saves nothing, so that
    a call that reads the post still raises afterwards. *)
Theorem initialize_post_empty_roster st :
  ~ saved_post_is_current st ->
  team_members (self st) = [] ->
  exists st',
    initialize_post st = Ok tt st'
    /\ self st' = self st
    /\ data_file (world st') = data_file (world st)
    /\ streaks (world st') = streaks (world st)
    /\ messages (channel (world st'))
       = <[next_id (channel (world st)) + 1 := week_heading (clock_utcnow (world st))]>
           (<[next_id (channel (world st)) := lit "# Weekly Status Updates"]>
              (messages (channel (world st))))
    /\ next_id (channel (world st')) = next_id (channel (world st)) + 1 + 1
    /\ (editable_weekly_post (self st) = None ->
        forall m, update_post m st' = Raise AttributeError st').
Proof.
  intros Hcur Hempty.
  pose proof (initialize_post_new_week st Hcur) as Hrun. cbv zeta in Hrun.
  rewrite Hempty in Hrun. cbn [map join] in Hrun.
  eexists. split; [exact Hrun|]. cbn. split_and!; try done.
  intros Hnone m. unfold update_post, bind, the_post, gets. cbn. by rewrite Hnone.
Qed.

Lemma initialize_post_empty_roster_witness :
  exists st',
    initialize_post (state_of (init [] fresh_world)) = Ok tt st'
    /\ self st' = self (state_of (init [] fresh_world))
    /\ next_id (channel (world st')) = 102.
Proof.
  destruct (initialize_post_empty_roster (state_of (init [] fresh_world)))
    as (st' & Hrun & Hself & _ & _ & _ & Hnext & _).
  - intros (pid & t & H & _). vm_compute in H. discriminate.
  - reflexivity.
  - exists st'. split; [exact Hrun|]. split; [exact Hself|]. exact Hnext.
Defined.

(** [initialize_post] does not record the post it created in the fields
    its guard reads: called again on the same manager, it creates a second
    post with the same rows three message ids later, leaves the first one
    on the channel, and saves the id of the second. *)
Theorem initialize_post_again_creates_again st :
  ~ saved_post_is_current st ->
  team_members (self st) <> [] ->
  exists st1 st2 post1 post2,
    initialize_post st = Ok tt st1
    /\ initialize_post st1 = Ok tt st2
    /\ editable_weekly_post (self st1) = Some post1
    /\ editable_weekly_post (self st2) = Some post2
    /\ msg_id post1 = next_id (channel (world st)) + 1 + 1
    /\ msg_id post2 = msg_id post1 + 1 + 1 + 1
    /\ content post2 = content post1
    /\ messages (channel (world st2)) !! msg_id post1 = Some (content post1)
    /\ messages (channel (world st2)) !! msg_id post2 = Some (content post2)
    /\ data_file (world st2)
       = Some {| post_id := Some (msg_id post2);
                 timestamp := Some (clock_now (world st)) |}.
Proof.
  intros Hcur Hne.
  pose proof (initialize_post_new_week st Hcur) as Hrun. cbv zeta in Hrun.
  set (text := join [NEWLINE] _) in Hrun.
  assert (Htext : text <> []).
  { apply join_rows_nonempty; [done|]. intros m. by rewrite <- fresh_row_eq. }
  destruct text as [|x text'] eqn:Etext; [done|]. rewrite <- Etext in Hrun.
  set (st1 := {| self := _; world := _ |}) in Hrun.
  assert (Hcur1 : ~ saved_post_is_current st1).
  { intros (pid & t & Hpid & Hnz & Ht & Hweek). apply Hcur. by exists pid, t. }
  pose proof (initialize_post_new_week st1 Hcur1) as Hrun1. cbv zeta in Hrun1.
  cbn [st1 self world team_members max_name_length streaks] in Hrun1.
  fold text in Hrun1. rewrite Etext in Hrun1. rewrite <- Etext in Hrun1.
  eexists _, _, _, _. split; [exact Hrun|]. split; [exact Hrun1|].
  cbn. split_and!; try done; cbn [msg_id content].
  - rewrite !lookup_insert_ne by lia. apply lookup_insert_eq.
  - apply lookup_insert_eq.
Qed.

Lemma initialize_post_again_creates_again_witness :
  exists st1 st2 post1 post2,
    initialize_post (state_of (init [alice; bob] fresh_world)) = Ok tt st1
    /\ initialize_post st1 = Ok tt st2
    /\ editable_weekly_post (self st1) = Some post1
    /\ editable_weekly_post (self st2) = Some post2
    /\ msg_id post1 = 102
    /\ msg_id post2 = 105.
Proof.
  destruct (initialize_post_again_creates_again (state_of (init [alice; bob] fresh_world)))
    as (st1 & st2 & post1 & post2 & H1 & H2 & H3 & H4 & H5 & H6 & _).
  - intros (pid & t & H & _). vm_compute in H. discriminate.
  - vm_compute. discriminate.
  - exists st1, st2, post1, post2. split_and!; try done.
    rewrite H6, H5. reflexivity.
Defined.

(** What [initialize_post] saves is what a later manager needs: when a
    manager is constructed after the post was created, with any roster,
    and the current time then has the ISO week number of the time of
    saving, its [initialize_post] fetches the very post that was created
    and sends nothing, as long as the channel is readable. *)
Theorem restart_in_same_week_fetches_post st members now' utcnow' :
  ~ saved_post_is_current st ->
  team_members (self st) <> [] ->
  readable (channel (world st)) = true ->
  next_id (channel (world st)) + 1 + 1 <> 0 ->
  isoweek now' = isoweek (clock_now (world st)) ->
  exists st1 st2 st3 post,
    initialize_post st = Ok tt st1
    /\ init members (at_time (world st1) now' utcnow') = Ok tt st2
    /\ initialize_post st2 = Ok tt st3
    /\ editable_weekly_post (self st1) = Some post
    /\ editable_weekly_post (self st3) = Some post
    /\ team_members (self st3) = members
    /\ world st3 = at_time (world st1) now' utcnow'.
Proof.
  intros Hcur Hne Hread Hid Hweek.
  pose proof (initialize_post_new_week st Hcur) as Hrun. cbv zeta in Hrun.
  set (text := join [NEWLINE] _) in Hrun.
  assert (Htext : text <> []).
  { apply join_rows_nonempty; [done|]. intros m. by rewrite <- fresh_row_eq. }
  destruct text as [|x text'] eqn:Etext; [done|]. rewrite <- Etext in Hrun.
  eexists _, _, _, _. split; [exact Hrun|].
  split; [reflexivity|]. cbn.
  split; [|split; [reflexivity|]].
  - unfold initialize_post, bind, gets. cbn.
    destruct (Z.eqb_spec (next_id (channel (world st)) + 1 + 1) 0) as [|_]; [done|].
    rewrite Hweek, Z.eqb_refl. cbn.
    unfold fetch_message, bind, gets. cbn. rewrite Hread. cbn.
    rewrite lookup_insert_eq. reflexivity.
  - rewrite ?Hread. split_and!; reflexivity.
Qed.

Lemma restart_in_same_week_fetches_post_witness :
  exists st1 st2 st3 post,
    initialize_post (state_of (init [alice; bob] fresh_world)) = Ok tt st1
    /\ init [alice; bob; chris]
         (at_time (world st1) {| ordinal := 739925; second_of_day := 0 |}
            {| ordinal := 739925; second_of_day := 0 |}) = Ok tt st2
    /\ initialize_post st2 = Ok tt st3
    /\ editable_weekly_post (self st1) = Some post
    /\ editable_weekly_post (self st3) = Some post.
Proof.
  destruct (restart_in_same_week_fetches_post
              (state_of (init [alice; bob] fresh_world)) [alice; bob; chris]
              {| ordinal := 739925; second_of_day := 0 |}
              {| ordinal := 739925; second_of_day := 0 |})
    as (st1 & st2 & st3 & post & H1 & H2 & H3 & H4 & H5 & _).
  - intros (pid & t & H & _). vm_compute in H. discriminate.
  - vm_compute. discriminate.
  - reflexivity.
  - vm_compute. discriminate.
  - vm_compute. reflexivity.
  - by exists st1, st2, st3, post.
Defined.

(** ** Boards under roster changes *)

#[local] Arguments refreshed : simpl never.
#[local] Arguments joined : simpl never.

Section Rosters.

Implicit Types (e : Entry) (entries kept : list Entry) (m : TeamMember)
  (names : list str) (nm : str).

Lemma Forall_sublist_of {A} (P : A -> Prop) (l' l : list A) :
  l' `sublist_of` l -> Forall P l -> Forall P l'.
Proof.
  rewrite !Forall_forall. intros Hsub Hall x Hx.
  by eapply Hall, elem_of_sublist.
Qed.

Lemma separated_names_cons nm names :
  separated_names (nm :: names)
  <-> Forall (fun nm' => separated nm nm' /\ separated nm' nm) names
      /\ separated_names names.
Proof.
  split.
  - intros Hsep. split.
    + apply Forall_forall. intros nm' [j Hj]%list_elem_of_lookup. split.
      * by apply (Hsep 0%nat (S j)).
      * by apply (Hsep (S j) 0%nat).
    + intros i j nm1 nm2 Hij Hi Hj. apply (Hsep (S i) (S j)); [lia|done..].
  - intros [Hhead Htail] i j nm1 nm2 Hij Hi Hj.
    rewrite Forall_forall in Hhead.
    destruct i as [|i], j as [|j]; [done| | |].
    + injection Hi as <-. apply Hhead. by eapply list_elem_of_lookup_2.
    + injection Hj as <-. apply Hhead. by eapply list_elem_of_lookup_2.
    + apply (Htail i j); [lia|done..].
Qed.

Lemma separated_names_sublist names names' :
  names' `sublist_of` names -> separated_names names -> separated_names names'.
Proof.
  induction 1 as [|nm l1 l2 Hsub IH|nm l1 l2 Hsub IH]; [done| |].
  - rewrite !separated_names_cons. intros [Hhead Htail]. split; [|by apply IH].
    by eapply Forall_sublist_of.
  - rewrite separated_names_cons. intros [_ Htail]. by apply IH.
Qed.

Lemma separated_names_snoc names nm :
  separated_names names ->
  Forall (fun nm' => separated nm' nm /\ separated nm nm') names ->
  separated_names (names ++ [nm]).
Proof.
  induction names as [|nm0 names IH]; intros Hsep Hnew.
  - intros i j nm1 nm2 Hij Hi Hj. destruct i, j; done.
  - apply separated_names_cons in Hsep as [Hhead Htail].
    apply Forall_cons in Hnew as [[Hn1 Hn2] Hnew].
    cbn [app]. apply separated_names_cons. split; [|by apply IH].
    apply Forall_app. split; [done|]. by repeat constructor.
Qed.

Lemma progress_marks_shape (ms : str) :
  progress_marks ms ->
  length ms = 5%nat /\ mark_seq ms
  /\ ((exists rest, ms = CHECK :: rest)
      \/ ((CHECK ∉ ms) /\ exists rest, ms = QUESTION :: rest)).
Proof.
  intros (k & Hk & ->). split_and!.
  - rewrite length_app, !length_replicate. lia.
  - apply Forall_app. split; apply Forall_replicate; auto.
  - destruct k as [|k].
    + right. split; [|by eexists].
      apply (bool_decide_unpack _). vm_compute. exact I.
    + left. by eexists.
Qed.

Lemma progress_marks_pending : progress_marks (replicate 5 QUESTION).
Proof. exists 0%nat. split; [lia|done]. Qed.

Lemma progress_marks_flip (ms : str) :
  progress_marks ms -> progress_marks (flip_first ms).
Proof.
  intros (k & Hk & ->).
  destruct k as [|[|[|[|[|[|k]]]]]];
    [exists 1%nat|exists 2%nat|exists 3%nat|exists 4%nat|exists 5%nat|exists 5%nat|lia];
    (split; [lia|reflexivity]).
Qed.

(** On a board, every name is first found in its own row. *)
Lemma board_member_line entries e :
  Forall plain_entry entries ->
  separated_names (map (fun e => name (member e)) entries) ->
  e ∈ entries ->
  member_line (map entry_row entries) (name (member e)) = Some (entry_row e).
Proof.
  intros Hplain Hsep (before & after & ->)%list_elem_of_split.
  destruct (separated_rows _ _ _ Hplain Hsep) as [Hbefore _].
  unfold member_line. rewrite map_app, find_skip by (by apply Forall_map).
  cbn. unfold entry_row at 1. by rewrite member_row_contains_name.
Qed.

(** ... and the marks read back for it are its own. *)
Lemma board_marks_read entries e :
  Forall plain_entry entries ->
  separated_names (map (fun e => name (member e)) entries) ->
  Forall (fun e => progress_marks (marks e)) entries ->
  names_without_marks (map member entries) ->
  e ∈ entries ->
  existing_marks (split (board_text entries) NEWLINE) (name (member e)) = marks e.
Proof.
  intros Hplain Hsep Hprog Hnames He.
  assert (Hne : entries <> []) by (intros ->; by apply elem_of_nil in He).
  rewrite board_lines by done.
  rewrite Forall_forall in Hprog. unfold names_without_marks in Hnames.
  rewrite Forall_map, Forall_forall in Hnames.
  destruct (Hnames e He) as [Hc Hq].
  destruct (progress_marks_shape _ (Hprog e He)) as (Hlen & _ & Hshape).
  apply (existing_marks_own_row _ (width e) _ _ (shown e)); try done.
  by apply board_member_line.
Qed.

(** For a name that no row holds, five pending marks are read. *)
Lemma board_marks_absent entries nm :
  entries <> [] -> Forall plain_entry entries ->
  separated_from entries nm ->
  existing_marks (split (board_text entries) NEWLINE) nm = replicate 5 QUESTION.
Proof.
  intros Hne Hplain Hfrom. rewrite board_lines by done.
  unfold existing_marks.
  assert (Hnone : member_line (map entry_row entries) nm = None).
  { unfold member_line.
    rewrite <- (app_nil_r (map entry_row entries)), find_skip; [done|].
    apply Forall_map. unfold separated_from in Hfrom.
    rewrite Forall_forall in Hplain, Hfrom |- *. intros e He. cbn.
    apply separated_not_contained; [apply (Hfrom e He)|apply (Hplain e He)]. }
  by rewrite Hnone.
Qed.

(** What a full rebuild writes over a board, for members who have a row
    and members who have none. *)
Lemma rebuilt_text_board st entries kept (extra : list TeamMember) :
  entries <> [] ->
  Forall plain_entry entries ->
  separated_names (map (fun e => name (member e)) entries) ->
  Forall (fun e => progress_marks (marks e)) entries ->
  names_without_marks (map member entries) ->
  kept ⊆ entries ->
  Forall (fun m => separated_from entries (name m)) extra ->
  rebuilt_text (map member kept ++ extra) (max_name_length (self st))
    (streaks (world st)) (board_text entries)
  = board_text (map (refreshed st) kept ++ map (joined st) extra).
Proof.
  intros Hne Hplain Hsep Hprog Hnames Hkept Hextra.
  remember (board_text entries) as old eqn:Eold.
  unfold rebuilt_text, board_text. f_equal. subst old.
  rewrite !map_app, !map_map. f_equal.
  - apply map_ext_in. intros e He%list_elem_of_In.
    unfold entry_row, refreshed. cbn [member width marks shown].
    rewrite board_marks_read by auto. done.
  - apply map_ext_in. intros m Hm%list_elem_of_In.
    unfold entry_row, joined. cbn [member width marks shown].
    rewrite Forall_forall in Hextra.
    rewrite board_marks_absent by auto. done.
Qed.

Lemma filter_members m entries :
  filter (fun m' => discord_id m' ≠ discord_id m) (map member entries)
  = map member (staying m entries).
Proof.
  unfold staying. induction entries as [|e entries IH]; [done|].
  cbn [map]. rewrite !filter_cons.
  destruct (decide (discord_id (member e) ≠ discord_id m)); cbn [map]; by rewrite IH.
Qed.

Lemma add_member_to_post_run m st :
  add_member_to_post m st
  = rebuild_post (with_roster st (team_members (self st) ++ [m])).
Proof. reflexivity. Qed.

Lemma remove_member_from_post_run m st :
  remove_member_from_post m st
  = rebuild_post
      (with_roster st
         (filter (fun m' => discord_id m' ≠ discord_id m) (team_members (self st)))).
Proof. reflexivity. Qed.

(** A board whose rows keep the members and marks of [entries]. *)
Lemma week_board_rewritten st st' post text entries (f : Entry -> Entry) kept
    (extra : list Entry) :
  week_board st entries ->
  editable_weekly_post (self st') = Some {| msg_id := msg_id post; content := text |} ->
  messages (channel (world st')) !! msg_id post = Some text ->
  text = board_text (map f kept ++ extra) ->
  team_members (self st') = map member (map f kept ++ extra) ->
  (forall e, member (f e) = member e /\ marks (f e) = marks e) ->
  kept `sublist_of` entries ->
  Forall plain_entry extra ->
  Forall (fun e => progress_marks (marks e)) extra ->
  names_without_marks (map member extra) ->
  Forall (fun e => name (member e) <> []) extra ->
  separated_names (map (fun e => name (member e)) (kept ++ extra)) ->
  week_board st' (map f kept ++ extra).
Proof.
  intros (((post0 & _) & Hplain & Hfive & Hsep) & Hroster & Hprog & Hnames & Hne)
    Hpost Hlive Htext Hroster' Hf Hkept Hplain' Hprog' Hnames' Hne' Hsep'.
  assert (Hmap : forall (P : TeamMember -> str -> Prop),
            Forall (fun e => P (member e) (marks e)) entries ->
            Forall (fun e => P (member e) (marks e)) extra ->
            Forall (fun e => P (member e) (marks e)) (map f kept ++ extra)).
  { intros P Hall Hextra. apply Forall_app. split; [|done].
    apply Forall_map. apply (Forall_sublist_of _ _ _ Hkept) in Hall.
    eapply Forall_impl; [exact Hall|]. intros e He. cbn.
    destruct (Hf e) as [-> ->]. done. }
  unfold week_board, good_board. split_and!.
  - eexists. split; [exact Hpost|]. cbn. rewrite Hlive. split; [eauto|exact Htext].
  - apply (Hmap (fun m ms => plain_name (name m) /\ mark_seq ms)); done.
  - apply (Hmap (fun m ms => length ms = 5%nat)); [done|].
    eapply Forall_impl; [exact Hprog'|]. intros e He.
    by apply progress_marks_shape in He as (? & _).
  - assert (Hnm : map (fun e => name (member e)) (map f kept ++ extra)
                  = map (fun e => name (member e)) (kept ++ extra)).
    { rewrite !map_app, map_map. f_equal. apply map_ext. intros e.
      by destruct (Hf e) as [-> _]. }
    by rewrite Hnm.
  - done.
  - apply (Hmap (fun m ms => progress_marks ms)); done.
  - unfold names_without_marks in *. rewrite Forall_map in Hnames, Hnames' |- *.
    apply (Hmap (fun m ms => (CHECK ∉ name m) /\ (QUESTION ∉ name m))); done.
  - apply (Hmap (fun m ms => name m <> [])); done.
Qed.

End Rosters.

Section Rebuilds.

Implicit Types (e : Entry) (entries kept : list Entry) (m : TeamMember).

Lemma padded_rewritten st st' kept (extra : list TeamMember) :
  max_name_length (self st') = max_name_length (self st) ->
  padded st' (map (refreshed st) kept ++ map (joined st) extra).
Proof.
  intros Hw. unfold padded. rewrite Hw.
  apply Forall_app. split; apply Forall_map, Forall_forall; by intros.
Qed.

(** A full rebuild over a board, for a roster of members who have a row
    and newcomers. *)
Lemma rebuild_post_board st0 st entries kept (extra : list TeamMember) :
  week_board st0 entries -> entries <> [] ->
  editable_weekly_post (self st) = editable_weekly_post (self st0) ->
  world st = world st0 ->
  team_members (self st) = map member kept ++ extra ->
  map member kept ++ extra <> [] ->
  kept `sublist_of` entries ->
  Forall (newcomer entries) extra ->
  separated_names (map (fun e => name (member e)) (kept ++ map (joined st) extra)) ->
  exists post,
    editable_weekly_post (self st0) = Some post
    /\ rebuild_post st
       = Ok tt (with_post_text st post
                  (board_text (map (refreshed st) kept ++ map (joined st) extra)))
    /\ week_board
         (with_post_text st post
            (board_text (map (refreshed st) kept ++ map (joined st) extra)))
         (map (refreshed st) kept ++ map (joined st) extra).
Proof.
  intros Hboard Hne Hsame Hworld Hroster Hmembers Hkept Hnew Hsep'.
  pose proof Hboard as
    (((post & Hpost & Hlive & Htext) & Hplain & Hfive & Hsep) & _ & Hprog & Hnames & _).
  exists post. split; [done|].
  assert (Hrun : rebuild_post st
                 = Ok tt (with_post_text st post
                            (board_text (map (refreshed st) kept ++ map (joined st) extra)))).
  { rewrite (rebuild_post_full st post);
      [|by rewrite Hroster|by rewrite Hsame|by rewrite Hworld].
    rewrite Hroster, Htext.
    rewrite (rebuilt_text_board st entries kept extra); try done.
    - intros e He. by eapply elem_of_sublist.
    - eapply Forall_impl; [exact Hnew|]. by intros m (_ & _ & _ & _ & ?). }
  split; [exact Hrun|].
  apply (week_board_rewritten st0 _ post
           (board_text (map (refreshed st) kept ++ map (joined st) extra))
           entries (refreshed st) kept (map (joined st) extra)); try done.
  - cbn. apply lookup_insert_eq.
  - cbn. rewrite Hroster, map_app, !map_map. f_equal.
    symmetry. apply map_id.
  - apply Forall_map. eapply Forall_impl; [exact Hnew|].
    intros m (Hplain' & _). split; [done|].
    apply Forall_replicate. by right.
  - apply Forall_map, Forall_forall. intros m _. apply progress_marks_pending.
  - unfold names_without_marks. rewrite map_map. cbn.
    eapply Forall_map, Forall_impl; [exact Hnew|].
    by intros m (_ & ? & ? & _).
  - apply Forall_map. eapply Forall_impl; [exact Hnew|].
    by intros m (_ & _ & _ & ? & _).
Qed.

End Rebuilds.

(** The sample board is a board of the week, and Christopher can join it. *)
Lemma thrice_week_board : week_board (state_of alice_full_bob_thrice) thrice_board.
Proof.
  unfold week_board, good_board. split_and!.
  - eexists. split; [vm_compute; reflexivity|].
    split; [vm_compute; eauto|vm_compute; reflexivity].
  - repeat constructor; apply (bool_decide_unpack _); vm_compute; exact I.
  - repeat constructor.
  - intros i j nm nm' Hij Hi Hj.
    destruct i as [|[|i]], j as [|[|j]]; try done;
      injection Hi as <-; injection Hj as <-.
    + exists 66%N. split_and!; apply (bool_decide_unpack _); vm_compute; exact I.
    + exists 65%N. split_and!; apply (bool_decide_unpack _); vm_compute; exact I.
  - vm_compute. reflexivity.
  - constructor; [exists 5%nat; split; [lia|reflexivity]|].
    constructor; [exists 3%nat; split; [lia|reflexivity]|]. constructor.
  - repeat constructor; apply (bool_decide_unpack _); vm_compute; exact I.
  - repeat constructor; done.
Qed.

Lemma chris_newcomer : newcomer thrice_board chris.
Proof.
  unfold newcomer, plain_name, separated_from. split_and!;
    try (apply (bool_decide_unpack _); vm_compute; exact I).
  repeat constructor.
  - exists 67%N. split_and!; apply (bool_decide_unpack _); vm_compute; exact I.
  - exists 65%N. split_and!; apply (bool_decide_unpack _); vm_compute; exact I.
  - exists 67%N. split_and!; apply (bool_decide_unpack _); vm_compute; exact I.
  - exists 66%N. split_and!; apply (bool_decide_unpack _); vm_compute; exact I.
Qed.


(** On a board of the week, a rebuild rewrites every row with the marks it
    had, padded to the width the manager holds and with the stored streak
    of the member; the result is again a board of the week, and every row
    of it is padded to that width. *)
Theorem rebuild_post_keeps_marks st entries :
  week_board st entries -> entries <> [] ->
  exists st',
    rebuild_post st = Ok tt st'
    /\ week_board st' (map (refreshed st) entries)
    /\ padded st' (map (refreshed st) entries)
    /\ team_members (self st') = team_members (self st)
    /\ streaks (world st') = streaks (world st).
Proof.
  intros Hboard Hne.
  pose proof Hboard as ((_ & _ & _ & Hsep) & Hroster & _).
  destruct (rebuild_post_board st st entries entries [] Hboard Hne)
    as (post & Hpost & Hrun & Hboard'); try done.
  - by rewrite app_nil_r.
  - rewrite app_nil_r. by destruct entries.
  - by rewrite app_nil_r.
  - cbn [map app] in Hrun, Hboard'. rewrite !app_nil_r in Hrun, Hboard'.
    eexists. split; [exact Hrun|]. split; [exact Hboard'|].
    split; [|done].
    pose proof (padded_rewritten st
                  (with_post_text st post (board_text (map (refreshed st) entries)))
                  entries [] eq_refl) as Hpad.
    cbn [map] in Hpad. by rewrite app_nil_r in Hpad.
Qed.

Lemma rebuild_post_keeps_marks_witness :
  exists st',
    rebuild_post (state_of alice_full_bob_thrice) = Ok tt st'
    /\ week_board st'
         (map (refreshed (state_of alice_full_bob_thrice)) thrice_board).
Proof.
  destruct (rebuild_post_keeps_marks (state_of alice_full_bob_thrice) thrice_board)
    as (st' & Hrun & Hboard & _).
  - exact thrice_week_board.
  - done.
  - exists st'. split; [exact Hrun|exact Hboard].
Defined.

(** Adding a member whose name is plain, non-empty, without mark
    characters and separated from the names of the board appends a row
    with five pending marks and the member's stored streak, and keeps the
    marks of every other row; all rows are padded to the longest name of
    the new roster. *)
Theorem add_member_to_post_appends_row st entries m :
  week_board st entries -> entries <> [] -> newcomer entries m ->
  exists st',
    add_member_to_post m st = Ok tt st'
    /\ team_members (self st') = team_members (self st) ++ [m]
    /\ max_name_length (self st') = max_len (team_members (self st) ++ [m])
    /\ week_board st' (map (refreshed st') entries ++ [joined st' m])
    /\ padded st' (map (refreshed st') entries ++ [joined st' m]).
Proof.
  intros Hboard Hne Hnew.
  pose proof Hboard as ((_ & _ & _ & Hsep) & Hroster & _).
  set (st1 := with_roster st (team_members (self st) ++ [m])).
  destruct (rebuild_post_board st st1 entries entries [m] Hboard Hne)
    as (post & Hpost & Hrun & Hboard'); try done.
  - cbn. by rewrite Hroster.
  - by destruct (map member entries).
  - by constructor.
  - rewrite map_app. cbn [map joined member]. apply separated_names_snoc; [done|].
    destruct Hnew as (_ & _ & _ & _ & Hfrom).
    apply Forall_map. eapply Forall_impl; [exact Hfrom|]. by intros e [? ?].
  - eexists. split; [rewrite add_member_to_post_run; exact Hrun|].
    split; [done|]. split; [done|]. split; [exact Hboard'|].
    apply (padded_rewritten st1 _ entries [m]). done.
Qed.

Lemma add_member_to_post_appends_row_witness :
  exists st',
    add_member_to_post chris (state_of alice_full_bob_thrice) = Ok tt st'
    /\ week_board st' (map (refreshed st') thrice_board ++ [joined st' chris])
    /\ max_name_length (self st') = 11%nat.
Proof.
  destruct (add_member_to_post_appends_row
              (state_of alice_full_bob_thrice) thrice_board chris)
    as (st' & Hrun & Hroster & Hwidth & Hboard & _).
  - exact thrice_week_board.
  - done.
  - exact chris_newcomer.
  - exists st'. split; [exact Hrun|]. split; [exact Hboard|].
    rewrite Hwidth. vm_compute. reflexivity.
Defined.

(** Removing a member drops the rows of that member's id and keeps the
    marks of the rows that stay, which are padded to the longest name that
    is left. *)
Theorem remove_member_from_post_keeps_others st entries m :
  week_board st entries -> staying m entries <> [] ->
  exists st',
    remove_member_from_post m st = Ok tt st'
    /\ team_members (self st') = map member (staying m entries)
    /\ max_name_length (self st') = max_len (map member (staying m entries))
    /\ week_board st' (map (refreshed st') (staying m entries))
    /\ padded st' (map (refreshed st') (staying m entries)).
Proof.
  intros Hboard Hne.
  pose proof Hboard as ((_ & _ & _ & Hsep) & Hroster & _).
  assert (Hentries : entries <> []) by (by intros ->).
  assert (Hsub : staying m entries `sublist_of` entries) by apply sublist_filter.
  set (st1 := with_roster st
                (filter (fun m' => discord_id m' ≠ discord_id m) (team_members (self st)))).
  destruct (rebuild_post_board st st1 entries (staying m entries) [] Hboard Hentries)
    as (post & Hpost & Hrun & Hboard'); try done.
  - cbn. by rewrite Hroster, filter_members, app_nil_r.
  - rewrite app_nil_r. by destruct (staying m entries).
  - cbn [map]. rewrite app_nil_r.
    eapply separated_names_sublist; [|exact Hsep]. by apply fmap_sublist.
  - cbn [map] in Hrun, Hboard'. rewrite !app_nil_r in Hrun, Hboard'.
    eexists. split; [rewrite remove_member_from_post_run; exact Hrun|].
    split; [cbn; by rewrite Hroster, filter_members|].
    split; [cbn; by rewrite Hroster, filter_members|].
    split; [exact Hboard'|].
    pose proof (padded_rewritten st1
                  (with_post_text st1 post
                     (board_text (map (refreshed st1) (staying m entries))))
                  (staying m entries) [] eq_refl) as Hpad.
    cbn [map] in Hpad. by rewrite app_nil_r in Hpad.
Qed.

Lemma remove_member_from_post_keeps_others_witness :
  exists st',
    remove_member_from_post alice (state_of alice_full_bob_thrice) = Ok tt st'
    /\ team_members (self st') = [bob]
    /\ max_name_length (self st') = 3%nat.
Proof.
  destruct (remove_member_from_post_keeps_others
              (state_of alice_full_bob_thrice) thrice_board alice)
    as (st' & Hrun & Hroster & Hwidth & _).
  - exact thrice_week_board.
  - vm_compute. discriminate.
  - exists st'. split; [exact Hrun|]. split.
    + rewrite Hroster. vm_compute. reflexivity.
    + rewrite Hwidth. vm_compute. reflexivity.
Defined.

Section RoundTrip.

Implicit Types (e : Entry) (entries : list Entry) (m : TeamMember).

Lemma filter_other_ids m entries :
  Forall (fun e => discord_id (member e) <> discord_id m) entries ->
  filter (fun m' => discord_id m' ≠ discord_id m) (map member entries ++ [m])
  = map member entries.
Proof.
  intros Hids. rewrite filter_app.
  rewrite (list.filter_singleton_False _ m []) by (intros H; by apply H).
  rewrite app_nil_r. induction Hids as [|e entries He _ IH]; [done|].
  cbn [map]. rewrite filter_cons_True by done. by rewrite IH.
Qed.

End RoundTrip.

(** Adding a newcomer whose id no row has and removing that member again
    leaves the manager, the channel and the stores exactly as one
    [rebuild_post] would, when the manager held the width of its
    roster. *)
Theorem add_then_remove_is_rebuild st entries m :
  week_board st entries -> entries <> [] -> width_ok st ->
  newcomer entries m ->
  Forall (fun e => discord_id (member e) <> discord_id m) entries ->
  exists st',
    rebuild_post st = Ok tt st'
    /\ (add_member_to_post m ;; remove_member_from_post m) st = Ok tt st'.
Proof.
  intros Hboard Hne Hwidth Hnew Hids.
  pose proof Hboard as ((_ & _ & _ & Hsep) & Hroster & _).
  (* the rebuild *)
  destruct (rebuild_post_board st st entries entries [] Hboard Hne)
    as (post & Hpost & Hrun & _); try done.
  { by rewrite app_nil_r. }
  { rewrite app_nil_r. by destruct entries. }
  { by rewrite app_nil_r. }
  cbn [map] in Hrun. rewrite app_nil_r in Hrun.
  (* the addition *)
  set (st1 := with_roster st (team_members (self st) ++ [m])).
  destruct (rebuild_post_board st st1 entries entries [m] Hboard Hne)
    as (post' & Hpost' & Hrun1 & Hboard1); try done.
  { cbn. by rewrite Hroster. }
  { by destruct (map member entries). }
  { by constructor. }
  { rewrite map_app. cbn [map joined member]. apply separated_names_snoc; [done|].
    destruct Hnew as (_ & _ & _ & _ & Hfrom).
    apply Forall_map. eapply Forall_impl; [exact Hfrom|]. by intros e [? ?]. }
  rewrite Hpost in Hpost'. injection Hpost' as <-.
  set (text1 := board_text (map (refreshed st1) entries ++ map (joined st1) [m])) in *.
  set (sta := with_post_text st1 post text1) in *.
  (* the removal *)
  set (st2 := with_roster sta
                (filter (fun m' => discord_id m' ≠ discord_id m) (team_members (self sta)))).
  assert (Hroster2 : team_members (self st2) = map member entries).
  { cbn. rewrite Hroster. by apply filter_other_ids. }
  destruct (rebuild_post_board sta st2
              (map (refreshed st1) entries ++ map (joined st1) [m])
              (map (refreshed st1) entries) [] Hboard1)
    as (posta & Hposta & Hrun2 & _); try done.
  { by destruct entries. }
  { rewrite Hroster2, app_nil_r, map_map. apply map_ext. done. }
  { rewrite app_nil_r, map_map. by destruct entries. }
  { by apply sublist_inserts_r. }
  { cbn [map]. rewrite app_nil_r, map_map. done. }
  cbn [map] in Hrun2. rewrite app_nil_r in Hrun2.
  injection Hposta as <-.
  eexists. split; [exact Hrun|].
  unfold bind. rewrite add_member_to_post_run. fold st1. rewrite Hrun1.
  rewrite remove_member_from_post_run. fold st2. rewrite Hrun2.
  f_equal.
  assert (Hw2 : max_name_length (self st2) = max_name_length (self st)).
  { change (max_name_length (self st2)) with (max_len (team_members (self st2))).
    rewrite Hroster2, <- Hroster. symmetry. exact Hwidth. }
  assert (Htext : map (refreshed st2) (map (refreshed st1) entries)
                  = map (refreshed st) entries).
  { rewrite map_map. apply map_ext. intros e. unfold refreshed.
    cbn [member marks]. rewrite Hw2. reflexivity. }
  rewrite Htext. unfold with_post_text.
  rewrite Hw2, Hroster2, <- Hroster. cbn.
  rewrite insert_insert_eq. reflexivity.
Qed.

Lemma add_then_remove_is_rebuild_witness :
  exists st',
    rebuild_post (state_of alice_full_bob_thrice) = Ok tt st'
    /\ (add_member_to_post chris ;; remove_member_from_post chris)
         (state_of alice_full_bob_thrice) = Ok tt st'.
Proof.
  apply (add_then_remove_is_rebuild (state_of alice_full_bob_thrice) thrice_board chris).
  - exact thrice_week_board.
  - done.
  - vm_compute. reflexivity.
  - exact chris_newcomer.
  - repeat constructor; vm_compute; discriminate.
Defined.

(** ** A check-in on a board of the week *)

Section CheckIn.

Implicit Types (e : Entry) (entries before after : list Entry) (m : TeamMember).

Lemma week_board_bumped st entries m :
  week_board st entries -> week_board (bumped st m) entries.
Proof. intros (((post & Hpost) & Hgood) & Hrest). split; [split|]; eauto. Qed.

Lemma week_board_checked_in st post before e after :
  week_board st (before ++ e :: after) ->
  editable_weekly_post (self st) = Some post ->
  week_board (with_post_text st post (board_text (before ++ recorded st e :: after)))
    (before ++ recorded st e :: after).
Proof.
  intros ((_ & Hplain & Hfive & Hsep) & Hroster & Hprog & Hnames & Hne) Hpost.
  unfold week_board, good_board. split_and!.
  - eexists. split; [reflexivity|]. cbn. rewrite lookup_insert_eq. eauto.
  - rewrite Forall_app, Forall_cons in Hplain |- *.
    destruct Hplain as (Hb & [Hname Hms] & Ha). split_and!; [done| |done].
    split; [done|]. by apply flip_first_mark_seq.
  - rewrite Forall_app, Forall_cons in Hfive |- *.
    destruct Hfive as (Hb & He & Ha). split_and!; [done| |done].
    cbn. by rewrite flip_first_length.
  - by rewrite map_app in Hsep |- *.
  - cbn. rewrite Hroster, !map_app. done.
  - rewrite Forall_app, Forall_cons in Hprog |- *.
    destruct Hprog as (Hb & He & Ha). split_and!; [done| |done].
    by apply progress_marks_flip.
  - by rewrite map_app in Hnames |- *.
  - rewrite Forall_app, Forall_cons in Hne |- *. done.
Qed.

End CheckIn.

(** The check-in of a week, [update_streak] and then [update_post], on a
    board of the week: while the member has a pending mark, the stored
    streak rises by one and the row shows one more done mark and the
    raised streak, padded to the width the manager holds; once the five
    marks are done, the stored streak still rises and the post stays as it
    is, so that the row shows an older streak. *)
Theorem checkin_raises_and_shows_streak st before e after :
  week_board st (before ++ e :: after) ->
  let raised := default 0 (streaks (world st) !! discord_id (member e)) + 1 in
  let row := {| member := member e; width := max_name_length (self st);
                marks := flip_first (marks e); shown := raised |} in
  (QUESTION ∈ marks e ->
   exists st',
     (update_streak (member e) ;; update_post (member e)) st = Ok tt st'
     /\ streaks (world st') = <[discord_id (member e) := raised]> (streaks (world st))
     /\ week_board st' (before ++ row :: after)
     /\ count (marks row) CHECK = S (count (marks e) CHECK))
  /\ (QUESTION ∉ marks e ->
      (update_streak (member e) ;; update_post (member e)) st
      = Ok tt (bumped st (member e))).
Proof.
  intros Hboard raised row.
  pose proof (week_board_bumped st _ (member e) Hboard) as Hboard1.
  pose proof Hboard1 as (((post & Hpost & Hlive & Htext) & Hplain & Hfive & Hsep) & _).
  destruct (separated_rows _ _ _ Hplain Hsep) as [Hbefore Hafter].
  assert (He : plain_entry e).
  { rewrite Forall_forall in Hplain. apply Hplain.
    rewrite elem_of_app, elem_of_cons. auto. }
  assert (Hrow : recorded (bumped st (member e)) e = row).
  { unfold recorded, checked_in, row, raised. cbn. by rewrite lookup_insert_eq. }
  split.
  - intros Hq.
    assert (Hrun : update_post (member e) (bumped st (member e))
                   = Ok tt (with_post_text (bumped st (member e)) post
                              (board_text (before ++ recorded (bumped st (member e)) e
                                             :: after)))).
    { apply (update_post_on_board _ post before e after); try done.
      eapply Forall_impl; [exact Hafter|]. intros e' He' Heq.
      cbv beta in He'. rewrite Heq in He'. unfold entry_row in He'.
      by rewrite member_row_contains_name in He'. }
    eexists. split; [unfold bind; rewrite update_streak_run; exact Hrun|].
    split; [reflexivity|]. split.
    + rewrite <- Hrow. by apply week_board_checked_in.
    + cbn. by apply flip_first_count.
  - intros Hq. unfold bind. rewrite update_streak_run.
    apply (update_post_no_pending _ post (member e) (entry_row e)); [done| |].
    + rewrite Htext, board_lines by (done || by destruct before).
      unfold member_line. rewrite map_app, find_skip by (by apply Forall_map).
      cbn. unfold entry_row at 1. by rewrite member_row_contains_name.
    + destruct He as [(Hnl & Hhash & Hbt & Hsp) Hms].
      assert (Hlen : length (marks e) = 5%nat).
      { rewrite Forall_forall in Hfive. apply Hfive.
        rewrite elem_of_app, elem_of_cons. auto. }
      assert (Hne : marks e <> []) by (intros E; by rewrite E in Hlen).
      unfold entry_row. rewrite marks_streak_of_row by done.
      rewrite not_elem_of_app, not_elem_of_cons, not_elem_of_app.
      split_and!; [done|done| |by apply (bool_decide_unpack _)].
      intros Hin%(streak_note_chars (shown e)). revert Hin.
      apply (bool_decide_unpack _). vm_compute. exact I.
Qed.

Lemma checkin_raises_and_shows_streak_witness :
  exists st',
    (update_streak bob ;; update_post bob) (state_of alice_full_bob_thrice) = Ok tt st'
    /\ streaks (world st') !! discord_id bob = Some 4
    /\ (update_streak alice ;; update_post alice) (state_of alice_full_bob_thrice)
       = Ok tt (bumped (state_of alice_full_bob_thrice) alice).
Proof.
  destruct (checkin_raises_and_shows_streak (state_of alice_full_bob_thrice)
              [ {| member := alice; width := 5; marks := replicate 5 CHECK; shown := 5 |} ]
              {| member := bob; width := 5;
                 marks := [CHECK; CHECK; CHECK; QUESTION; QUESTION]; shown := 3 |}
              [] thrice_week_board) as [Hbob _].
  destruct (checkin_raises_and_shows_streak (state_of alice_full_bob_thrice)
              []
              {| member := alice; width := 5; marks := replicate 5 CHECK; shown := 5 |}
              [ {| member := bob; width := 5;
                   marks := [CHECK; CHECK; CHECK; QUESTION; QUESTION]; shown := 3 |} ]
              thrice_week_board) as [_ Halice].
  destruct Hbob as (st' & Hrun & Hstreaks & _).
  { apply (bool_decide_unpack _). vm_compute. exact I. }
  exists st'. split; [exact Hrun|]. split.
  - rewrite Hstreaks. vm_compute. reflexivity.
  - apply Halice. apply (bool_decide_unpack _). vm_compute. exact I.
Defined.

(** ** Reading the marks of a padded board *)

Section Columns.

Implicit Types (s sub r rest nm : str) (e : Entry) (entries before after : list Entry).

Lemma index_of_cons sub (x : N) s :
  index_of sub (x :: s)
  = if starts_with sub (x :: s) then Some 0%nat else S <$> index_of sub s.
Proof. reflexivity. Qed.

Lemma starts_with_newline sub s rest :
  NEWLINE ∉ sub -> starts_with sub (s ++ NEWLINE :: rest) = starts_with sub s.
Proof.
  revert s. induction sub as [|a sub IH]; intros s Hnl; [by destruct s|].
  apply not_elem_of_cons in Hnl as [Ha Hnl].
  destruct s as [|b s]; cbn.
  - destruct (N.eqb_spec a NEWLINE) as [E|_]; [by symmetry in E|done].
  - by rewrite IH.
Qed.

(** The first occurrence of a name is not in a line that does not hold
    it. *)
Lemma index_of_skip_line sub r rest :
  sub <> [] -> NEWLINE ∉ sub -> index_of sub r = None ->
  index_of sub (r ++ NEWLINE :: rest)
  = (fun i => (length r + 1 + i)%nat) <$> index_of sub rest.
Proof.
  intros Hne Hnl. induction r as [|x r IH]; intros Hnone.
  - cbn [app length]. rewrite index_of_cons.
    pose proof (starts_with_newline sub [] rest Hnl) as Hsw. cbn [app] in Hsw.
    rewrite Hsw. destruct sub; [done|]. cbn. by destruct (index_of _ rest).
  - rewrite index_of_cons in Hnone.
    destruct (starts_with sub (x :: r)) eqn:Hsw; [done|].
    destruct (index_of sub r) eqn:Hr; [done|].
    cbn [app]. rewrite index_of_cons.
    change (x :: r ++ NEWLINE :: rest) with ((x :: r) ++ NEWLINE :: rest).
    rewrite starts_with_newline, Hsw by done.
    rewrite IH by done. by destruct (index_of sub rest).
Qed.

Lemma index_of_own_row nm rest :
  plain_name nm -> nm <> [] -> index_of nm (lit "# `" ++ nm ++ rest) = Some 3%nat.
Proof.
  intros (_ & Hhash & Hbt & Hsp) Hne. destruct nm as [|a nm]; [done|].
  apply not_elem_of_cons in Hhash as [Hhash _].
  apply not_elem_of_cons in Hbt as [Hbt _].
  apply not_elem_of_cons in Hsp as [Hsp _].
  change (lit "# `") with [HASH; SPACE; BACKTICK]. cbn [app].
  rewrite !index_of_cons.
  assert (Hsw : forall c s, a <> c -> starts_with (a :: nm) (c :: s) = false).
  { intros c s Hc. cbn. by destruct (N.eqb_spec a c). }
  rewrite !Hsw by (intros E; by symmetry in E).
  pose proof (starts_with_app (a :: nm) rest) as Hown. cbn [app] in Hown.
  by rewrite Hown.
Qed.

(** On a board whose rows are padded to [w], the five characters read
    for a name are the marks of its row. *)
Lemma board_slots_read (w : nat) before e after :
  Forall plain_entry (before ++ e :: after) ->
  separated_names (map (fun e => name (member e)) (before ++ e :: after)) ->
  name (member e) <> [] ->
  width e = w -> (length (name (member e)) <= w)%nat ->
  length (marks e) = 5%nat ->
  find (board_text (before ++ e :: after)) (name (member e)) <> -1
  /\ slots_read (board_text (before ++ e :: after)) w (name (member e)) = marks e.
Proof.
  intros Hplain Hsep Hne Hw Hlen Hfive.
  destruct (separated_rows _ _ _ Hplain Hsep) as [Hbefore _].
  assert (He : plain_entry e).
  { rewrite Forall_forall in Hplain. apply Hplain.
    rewrite elem_of_app, elem_of_cons. auto. }
  destruct He as [Hname _].
  assert (Hgoal : exists i rest,
            index_of (name (member e)) (board_text (before ++ e :: after)) = Some i
            /\ drop (i + w + 1) (board_text (before ++ e :: after)) = marks e ++ rest).
  { clear Hplain Hsep. induction before as [|b before IH].
    - assert (Hrow : exists tail, board_text ([] ++ e :: after)
                       = lit "# `" ++ name (member e)
                           ++ (replicate (w - length (name (member e))) SPACE
                                 ++ lit " " ++ marks e ++ tail)).
      { unfold board_text. cbn [app map].
        destruct (map entry_row after) as [|r rows] eqn:Erows.
        - eexists. unfold join, entry_row, member_row, ljust. rewrite Hw.
          rewrite <- !app_assoc. reflexivity.
        - eexists. rewrite join_cons by done.
          unfold entry_row, member_row, ljust. rewrite Hw.
          rewrite <- !app_assoc. reflexivity. }
      destruct Hrow as [tail Hrow]. rewrite Hrow.
      exists 3%nat, tail. split; [by apply index_of_own_row|].
      change (lit "# `") with [HASH; SPACE; BACKTICK]. cbn [app Nat.add drop].
      rewrite app_assoc, (app_assoc _ (lit " ")).
      apply drop_app_length'.
      rewrite !length_app, length_replicate.
      change (length (lit " ")) with 1%nat. lia.
    - apply Forall_cons in Hbefore as [Hb Hbefore].
      destruct (IH Hbefore) as (i & rest & Hi & Hdrop).
      assert (Htext : board_text ((b :: before) ++ e :: after)
                      = entry_row b ++ NEWLINE :: board_text (before ++ e :: after)).
      { unfold board_text. cbn [app map]. rewrite join_cons; [done|].
        rewrite map_app. by destruct (map entry_row before). }
      rewrite Htext. exists (length (entry_row b) + 1 + i)%nat, rest. split.
      + rewrite index_of_skip_line, Hi; [done|done|apply Hname|].
        unfold contains in Hb. by destruct (index_of _ (entry_row b)).
      + rewrite <- Hdrop.
        replace (length (entry_row b) + 1 + i + w + 1)%nat
          with (length (entry_row b) + S (i + w + 1))%nat by lia.
        by rewrite drop_app_add. }
  destruct Hgoal as (i & rest & Hi & Hdrop).
  unfold slots_read, find. rewrite Hi. split; [lia|].
  replace (Z.of_nat i + Z.of_nat w + 1) with (Z.of_nat (i + w + 1)) by lia.
  rewrite slice_five, Hdrop. by apply take_app_length'.
Qed.

(** What both predicates answer on a padded board of the week. *)
Lemma board_predicates st entries e n :
  week_board st entries -> padded st entries -> width_ok st -> e ∈ entries ->
  has_minimum_checkmarks (member e) n st
  = Ok (n <=? Z.of_nat (count (marks e) CHECK)) st
  /\ has_all_checkmarks (member e) st
     = Ok (forallb (fun c => (c =? CHECK)%N) (marks e)) st.
Proof.
  intros (((post & Hpost & Hlive & Htext) & Hplain & Hfive & Hsep) & Hroster & _ & _ & Hne)
    Hpad Hwidth He.
  unfold padded in Hpad. rewrite Forall_forall in Hfive, Hne, Hpad.
  pose proof He as (before & after & ->)%list_elem_of_split.
  destruct (board_slots_read (max_name_length (self st)) before e after) as [Hfound Hslots];
    try done.
  - by apply Hne.
  - by apply Hpad.
  - rewrite Hwidth, Hroster. apply max_len_bound, list_elem_of_fmap. eauto.
  - by apply Hfive.
  - rewrite <- Htext in Hfound, Hslots.
    rewrite (has_minimum_checkmarks_slots _ post), (has_all_checkmarks_run _ post) by done.
    destruct (Z.eqb_spec (find (content post) (name (member e))) (-1)) as [|_]; [done|].
    by rewrite Hslots.
Qed.

Lemma all_done_five (ms : str) :
  length ms = 5%nat ->
  forallb (fun c => (c =? CHECK)%N) ms = true <-> ms = replicate 5 CHECK.
Proof.
  intros Hfive. rewrite <- count_full. split.
  - intros Hall. symmetry. apply replicate_as_Forall. split; [done|].
    apply count_full in Hall. clear -Hall.
    induction ms as [|c ms IH]; [done|]. cbn in Hall.
    destruct (N.eqb_spec c CHECK) as [->|]; [|done]. constructor; auto.
  - intros ->. rewrite length_replicate. apply count_full. reflexivity.
Qed.

End Columns.

(** On a board of the week whose rows are padded to the width of the
    roster, both predicates read the marks of the member's own row:
    [has_minimum_checkmarks(member, n)] holds when the row has at least
    [n] done marks, and [has_all_checkmarks(member)] when all five are
    done. *)
Theorem predicates_read_own_row st entries e n :
  week_board st entries -> padded st entries -> width_ok st -> e ∈ entries ->
  has_minimum_checkmarks (member e) n st
  = Ok (n <=? Z.of_nat (count (marks e) CHECK)) st
  /\ has_all_checkmarks (member e) st
     = Ok (forallb (fun c => (c =? CHECK)%N) (marks e)) st
  /\ (forallb (fun c => (c =? CHECK)%N) (marks e) = true
      <-> marks e = replicate 5 CHECK).
Proof.
  intros Hboard Hpad Hwidth He.
  destruct (board_predicates st entries e n Hboard Hpad Hwidth He) as [Hmin Hall].
  split; [exact Hmin|]. split; [exact Hall|].
  apply all_done_five.
  destruct Hboard as ((_ & _ & Hfive & _) & _).
  rewrite Forall_forall in Hfive. by apply Hfive.
Qed.

Lemma predicates_read_own_row_witness :
  has_minimum_checkmarks bob 3 (state_of alice_full_bob_thrice)
  = Ok true (state_of alice_full_bob_thrice)
  /\ has_all_checkmarks bob (state_of alice_full_bob_thrice)
     = Ok false (state_of alice_full_bob_thrice).
Proof.
  destruct (predicates_read_own_row (state_of alice_full_bob_thrice) thrice_board
              {| member := bob; width := 5;
                 marks := [CHECK; CHECK; CHECK; QUESTION; QUESTION]; shown := 3 |} 3)
    as (Hmin & Hall & _).
  - exact thrice_week_board.
  - repeat constructor.
  - vm_compute. reflexivity.
  - right. left.
  - split; [exact Hmin|exact Hall].
Defined.

(** Closing the week on such a board: [reset_streaks] sets the stored
    streak to 0 for every member whose row has a pending mark and keeps
    the stored streak of every id whose rows have five done marks; the
    manager and the channel stay as they are. *)
Theorem reset_streaks_on_board st entries :
  week_board st entries -> padded st entries -> width_ok st ->
  exists st',
    reset_streaks st = Ok tt st'
    /\ self st' = self st
    /\ channel (world st') = channel (world st)
    /\ (forall e, e ∈ entries -> QUESTION ∈ marks e ->
          streaks (world st') !! discord_id (member e) = Some 0)
    /\ (forall i,
          (forall e, e ∈ entries -> discord_id (member e) = i ->
                     marks e = replicate 5 CHECK) ->
          streaks (world st') !! i = streaks (world st) !! i).
Proof.
  intros Hboard Hpad Hwidth.
  pose proof Hboard as (((post & Hpost & _) & _ & _ & _) & Hroster & Hprog & _).
  assert (Hmeets : forall e, e ∈ entries ->
            meets_minimum (content post) (max_name_length (self st)) (name (member e)) 5
            = (5 <=? Z.of_nat (count (marks e) CHECK))).
  { intros e He.
    destruct (board_predicates st entries e 5 Hboard Hpad Hwidth He) as [Hmin _].
    rewrite (has_minimum_checkmarks_run _ post) in Hmin by done.
    by injection Hmin. }
  eexists. split; [by apply reset_streaks_run|]. cbn.
  split_and!; try done.
  - intros e He Hq. apply reset_table_fails.
    + rewrite Hroster. apply list_elem_of_fmap. eauto.
    + rewrite Hmeets by done. apply Z.leb_gt.
      rewrite Forall_forall in Hprog. destruct (Hprog e He) as (k & Hk & Hms).
      rewrite Hms in Hq |- *.
      destruct k as [|[|[|[|[|[|k]]]]]]; [vm_compute; reflexivity..| |lia].
      exfalso. revert Hq. apply (bool_decide_unpack _). vm_compute. exact I.
  - intros i Hall. apply reset_table_meets. rewrite Hroster.
    apply Forall_map, Forall_forall. intros e He Hi. cbn.
    rewrite Hmeets, (Hall e He Hi) by done. vm_compute. reflexivity.
Qed.

Lemma reset_streaks_on_board_witness :
  exists st',
    reset_streaks (state_of alice_full_bob_thrice) = Ok tt st'
    /\ streaks (world st') !! discord_id bob = Some 0
    /\ streaks (world st') !! discord_id alice = Some 5.
Proof.
  destruct (reset_streaks_on_board (state_of alice_full_bob_thrice) thrice_board)
    as (st' & Hrun & _ & _ & Hreset & Hkeep).
  - exact thrice_week_board.
  - repeat constructor.
  - vm_compute. reflexivity.
  - exists st'. split; [exact Hrun|]. split.
    + apply (Hreset {| member := bob; width := 5;
                       marks := [CHECK; CHECK; CHECK; QUESTION; QUESTION];
                       shown := 3 |}).
      * right. left.
      * apply (bool_decide_unpack _). vm_compute. exact I.
    + rewrite (Hkeep (discord_id alice)); [vm_compute; reflexivity|].
      intros e [->|[->|[]%elem_of_nil]%elem_of_cons]%elem_of_cons Hid.
      * reflexivity.
      * vm_compute in Hid. discriminate.
Defined.
